(** * Flow Library: persistence, search and highlight relocation

    A shallow embedding of the library coordinator, the document search
    and the highlight relocation of the Flow Library reader (the [App]
    component and the types it imports), with the properties of its
    specification settled against it.

    JavaScript strings are modelled as [string], read as sequences of code
    units in the range 0..255 (the Latin-1 part of UTF-16); numbers that the
    code uses as integers are modelled as [Z]. *)

From Stdlib Require Import ZArith Ascii Lia Permutation.
From stdpp Require Import base option list sorting gmap strings pretty.

Local Open Scope Z_scope.

(* ================================================================== *)
(** * String primitives *)
(* ================================================================== *)

(** [s.length] *)
Definition strlen (s : string) : Z := Z.of_nat (String.length s).

(** Code units that [\s] and [trim] treat as white space, below 256:
    TAB, LF, VT, FF, CR, SPACE and NBSP. *)
Definition isWhiteSpace (c : ascii) : bool :=
  let n := Ascii.N_of_ascii c in
  ((9 <=? n) && (n <=? 13) || (n =? 32) || (n =? 160))%N.

(** Case folding of one code unit: A-Z and the Latin-1 capitals
    (U+00C0..U+00DE without U+00D7) move up by 32. *)
Definition lowerChar (c : ascii) : ascii :=
  let n := Ascii.N_of_ascii c in
  if ((65 <=? n) && (n <=? 90)
      || (192 <=? n) && (n <=? 222) && negb (n =? 215))%N
  then Ascii.ascii_of_N (n + 32) else c.

(** [s.toLowerCase()] *)
Fixpoint toLowerCase (s : string) : string :=
  match s with
  | EmptyString => EmptyString
  | String c r => String (lowerChar c) (toLowerCase r)
  end.

(** [s.replace(/\s+/g, ' ')]: [inrun] tells that the previous code unit
    belonged to a white-space run that was already replaced. *)
Fixpoint replaceWsRuns (inrun : bool) (s : string) : string :=
  match s with
  | EmptyString => EmptyString
  | String c r =>
      if isWhiteSpace c
      then (if inrun then replaceWsRuns true r
            else String " "%char (replaceWsRuns true r))
      else String c (replaceWsRuns false r)
  end.

Fixpoint trimStart (s : string) : string :=
  match s with
  | EmptyString => EmptyString
  | String c r => if isWhiteSpace c then trimStart r else s
  end.

Fixpoint trimEnd (s : string) : string :=
  match s with
  | EmptyString => EmptyString
  | String c r =>
      match trimEnd r with
      | EmptyString => if isWhiteSpace c then EmptyString
                       else String c EmptyString
      | r' => String c r'
      end
  end.

(** [s.trim()] *)
Definition trim (s : string) : string := trimEnd (trimStart s).

(** [s.startsWith(p)] *)
Fixpoint startsWith (s p : string) : bool :=
  match p, s with
  | EmptyString, _ => true
  | String _ _, EmptyString => false
  | String a p', String b s' => if Ascii.eqb a b then startsWith s' p' else false
  end.

(** The scan behind [indexOf]: [i] is the position of the head of [s] in
    the string searched. *)
Fixpoint indexOfFrom (s pat : string) (i : Z) : Z :=
  if startsWith s pat then i
  else match s with
       | EmptyString => -1
       | String _ r => indexOfFrom r pat (i + 1)
       end.

(** [s.indexOf(pat)]: position of the first occurrence, or -1. *)
Definition indexOf (s pat : string) : Z := indexOfFrom s pat 0.

(** [s.includes(pat)] *)
Definition includes (s pat : string) : bool := negb (indexOf s pat =? -1).

Fixpoint sdrop (n : nat) (s : string) : string :=
  match n, s with
  | O, _ => s
  | S _, EmptyString => EmptyString
  | S n', String _ r => sdrop n' r
  end.

Fixpoint stake (n : nat) (s : string) : string :=
  match n, s with
  | O, _ => EmptyString
  | S _, EmptyString => EmptyString
  | S n', String c r => String c (stake n' r)
  end.

(** [s.substring(a, b)]: both arguments are clamped to [0, s.length] and
    swapped when the first exceeds the second. *)
Definition substring (s : string) (a b : Z) : string :=
  let len := strlen s in
  let a' := Z.min (Z.max a 0) len in
  let b' := Z.min (Z.max b 0) len in
  let lo := Z.min a' b' in
  let hi := Z.max a' b' in
  stake (Z.to_nat (hi - lo)) (sdrop (Z.to_nat lo) s).

(** [items.join(sep)] *)
Fixpoint join (sep : string) (items : list string) : string :=
  match items with
  | [] => EmptyString
  | [x] => x
  | x :: rest => x +:+ sep +:+ join sep rest
  end.

(** [s.replace(pat, rep)] with a string pattern: the first occurrence only. *)
Definition replaceFirst (s pat rep : string) : string :=
  let i := indexOf s pat in
  if i =? -1 then s
  else stake (Z.to_nat i) s +:+ rep
       +:+ sdrop (Z.to_nat i + String.length pat) s.

(** [t] occurs in [s] as a run of consecutive code units. *)
Definition isSubstringOf (t s : string) : Prop :=
  ∃ pre post, s = pre +:+ t +:+ post.

(** A value used as a condition: the empty string is falsy. *)
Definition truthyStr (s : string) : bool :=
  match s with EmptyString => false | _ => true end.

(* ================================================================== *)
(** * Data model *)
(* ================================================================== *)

Module BookStatus.
Inductive t := next | reading | paused | completed | discarded.
#[global] Instance eq_dec : EqDecision t.
Proof. solve_decision. Defined.
End BookStatus.
Abbreviation BookStatus := BookStatus.t.

Module Book.
(** [fileData] is left out: it only lives in the blob store. *)
Record t := mk {
  id : string;
  title : string;
  author : string;
  uploadDate : Z;
  totalPages : Z;
  currentPage : Z;
  status : option BookStatus;
  category : option string;
  rating : option Z
}.
#[global] Instance eq_dec : EqDecision t.
Proof. solve_decision. Defined.
End Book.
Abbreviation Book := Book.t.

(** [Partial<Book>]: every field may be absent; an optional field may be
    present with the value [undefined]. *)
Module PartialBook.
Record t := mk {
  id : option string;
  title : option string;
  author : option string;
  uploadDate : option Z;
  totalPages : option Z;
  currentPage : option Z;
  status : option (option BookStatus);
  category : option (option string);
  rating : option (option Z)
}.
Definition empty : t := mk None None None None None None None None None.
End PartialBook.
Abbreviation PartialBook := PartialBook.t.

(** [{ ...b, ...updates }] *)
Definition spread (b : Book) (updates : PartialBook) : Book :=
  Book.mk
    (default (Book.id b) (PartialBook.id updates))
    (default (Book.title b) (PartialBook.title updates))
    (default (Book.author b) (PartialBook.author updates))
    (default (Book.uploadDate b) (PartialBook.uploadDate updates))
    (default (Book.totalPages b) (PartialBook.totalPages updates))
    (default (Book.currentPage b) (PartialBook.currentPage updates))
    (default (Book.status b) (PartialBook.status updates))
    (default (Book.category b) (PartialBook.category updates))
    (default (Book.rating b) (PartialBook.rating updates)).

Module Note.
Record t := mk {
  id : string;
  bookId : string;
  pageNumber : Z;
  text : string;
  highlight : option string;
  createdAt : Z
}.
#[global] Instance eq_dec : EqDecision t.
Proof. solve_decision. Defined.
End Note.
Abbreviation Note := Note.t.

Module Category.
Record t := mk { id : string; name : string }.
#[global] Instance eq_dec : EqDecision t.
Proof. solve_decision. Defined.
End Category.
Abbreviation Category := Category.t.

Inductive ViewState := LIBRARY | READER | NOTES | CATEGORIES.

#[global] Instance ViewState_eq_dec : EqDecision ViewState.
Proof. solve_decision. Defined.

Module GroupingMode.
Inductive t := none | category | status | rating.
#[global] Instance eq_dec : EqDecision t.
Proof. solve_decision. Defined.
End GroupingMode.
Abbreviation GroupingMode := GroupingMode.t.

Module SortMode.
Inductive t := recent | rating | progress | pages | completed.
#[global] Instance eq_dec : EqDecision t.
Proof. solve_decision. Defined.
End SortMode.
Abbreviation SortMode := SortMode.t.

(** The payload of a document, as the PDF reader (an external library) sees
    it: either it cannot be parsed, or it has pages, each an ordered sequence
    of text items. *)
Inductive PdfData :=
| Unparseable
| Pdf (pages : list (list string)).

#[global] Instance PdfData_eq_dec : EqDecision PdfData.
Proof. solve_decision. Defined.

(** A file picked in the upload input. [uuid] and [now] are what
    [crypto.randomUUID()] and [Date.now()] return while the file is
    processed. *)
Module File.
Record t := mk {
  name : string;
  type : string;
  arrayBuffer : PdfData;
  uuid : string;
  now : Z
}.
End File.
Abbreviation File := File.t.

Module ToastType.
Inductive t := success | error | info.
#[global] Instance eq_dec : EqDecision t.
Proof. solve_decision. Defined.
End ToastType.

Record Toast := mkToast { message : string; type : ToastType.t }.

#[global] Instance Toast_eq_dec : EqDecision Toast.
Proof. solve_decision. Defined.

Record SearchResult := mkResult { page : Z; text : string }.

#[global] Instance SearchResult_eq_dec : EqDecision SearchResult.
Proof. solve_decision. Defined.

(* ================================================================== *)
(** * The blob store *)
(* ================================================================== *)

(** Modelled from the spec: the module [utils/db] ([saveBookData],
    [getBookData], [deleteBookData]) is not among the sources. The spec's
    large-object store is keyed by document id; [put] and [delete] report
    success or failure, [get] returns the payload or absent. [faulty] holds
    the keys on which the store rejects [put] and [delete]; a rejected
    operation leaves the store as it was, and deleting an absent key
    succeeds. *)
Record IDB := mkIDB {
  blobs : gmap string PdfData;
  faulty : gset string
}.

(** Modelled from the spec: [put(documentId, binary)]; [None] is the
    failure, which the caller sees as a rejected promise. *)
Definition saveBookData (id : string) (data : PdfData) (db : IDB) : option IDB :=
  if decide (id ∈ faulty db) then None
  else Some (mkIDB (<[id := data]> (blobs db)) (faulty db)).

(** Modelled from the spec: [get(documentId)], the payload or absent. *)
Definition getBookData (id : string) (db : IDB) : option PdfData :=
  blobs db !! id.

(** Modelled from the spec: [delete(documentId)]; [None] is the failure. *)
Definition deleteBookData (id : string) (db : IDB) : option IDB :=
  if decide (id ∈ faulty db) then None
  else Some (mkIDB (delete id (blobs db)) (faulty db)).

(* ================================================================== *)
(** * The state of the application *)
(* ================================================================== *)

(** The [useState] hooks of [App] that the coordinator, the search and the
    relocation read or write, and the blob store. Hooks that only drive the
    presentation (panels, scale, layout, translation) are left out, and so
    are the timers that clear a toast or a highlight. [booksToDelete] is a
    [Set], kept in insertion order. A state is what the hooks hold once the
    updates of an event are applied; the initial load from [localStorage]
    fills [books], [notes] and [categories] before the first event. *)
Record State := mkState {
  view : ViewState;
  books : list Book;
  notes : list Note;
  categories : list Category;
  currentBook : option Book;
  currentBookData : option PdfData;
  pageNumber : Z;
  numPages : Z;
  temporaryHighlight : option string;
  booksToDelete : list string;
  toast : option Toast;
  selection : string;
  noteText : string;
  searchQuery : string;
  searchResults : list SearchResult;
  newCategoryName : string;
  idb : IDB
}.

Definition setView (x : ViewState) (st : State) : State :=
  mkState x (books st) (notes st) (categories st) (currentBook st)
    (currentBookData st) (pageNumber st) (numPages st) (temporaryHighlight st)
    (booksToDelete st) (toast st) (selection st) (noteText st)
    (searchQuery st) (searchResults st) (newCategoryName st) (idb st).

Definition setBooks (x : list Book) (st : State) : State :=
  mkState (view st) x (notes st) (categories st) (currentBook st)
    (currentBookData st) (pageNumber st) (numPages st) (temporaryHighlight st)
    (booksToDelete st) (toast st) (selection st) (noteText st)
    (searchQuery st) (searchResults st) (newCategoryName st) (idb st).

Definition setNotes (x : list Note) (st : State) : State :=
  mkState (view st) (books st) x (categories st) (currentBook st)
    (currentBookData st) (pageNumber st) (numPages st) (temporaryHighlight st)
    (booksToDelete st) (toast st) (selection st) (noteText st)
    (searchQuery st) (searchResults st) (newCategoryName st) (idb st).

Definition setCategories (x : list Category) (st : State) : State :=
  mkState (view st) (books st) (notes st) x (currentBook st)
    (currentBookData st) (pageNumber st) (numPages st) (temporaryHighlight st)
    (booksToDelete st) (toast st) (selection st) (noteText st)
    (searchQuery st) (searchResults st) (newCategoryName st) (idb st).

Definition setCurrentBook (x : option Book) (st : State) : State :=
  mkState (view st) (books st) (notes st) (categories st) x
    (currentBookData st) (pageNumber st) (numPages st) (temporaryHighlight st)
    (booksToDelete st) (toast st) (selection st) (noteText st)
    (searchQuery st) (searchResults st) (newCategoryName st) (idb st).

Definition setCurrentBookData (x : option PdfData) (st : State) : State :=
  mkState (view st) (books st) (notes st) (categories st) (currentBook st) x
    (pageNumber st) (numPages st) (temporaryHighlight st) (booksToDelete st)
    (toast st) (selection st) (noteText st) (searchQuery st)
    (searchResults st) (newCategoryName st) (idb st).

Definition setPageNumber (x : Z) (st : State) : State :=
  mkState (view st) (books st) (notes st) (categories st) (currentBook st)
    (currentBookData st) x (numPages st) (temporaryHighlight st)
    (booksToDelete st) (toast st) (selection st) (noteText st)
    (searchQuery st) (searchResults st) (newCategoryName st) (idb st).

Definition setNumPages (x : Z) (st : State) : State :=
  mkState (view st) (books st) (notes st) (categories st) (currentBook st)
    (currentBookData st) (pageNumber st) x (temporaryHighlight st)
    (booksToDelete st) (toast st) (selection st) (noteText st)
    (searchQuery st) (searchResults st) (newCategoryName st) (idb st).

Definition setTemporaryHighlight (x : option string) (st : State) : State :=
  mkState (view st) (books st) (notes st) (categories st) (currentBook st)
    (currentBookData st) (pageNumber st) (numPages st) x (booksToDelete st)
    (toast st) (selection st) (noteText st) (searchQuery st)
    (searchResults st) (newCategoryName st) (idb st).

Definition setBooksToDelete (x : list string) (st : State) : State :=
  mkState (view st) (books st) (notes st) (categories st) (currentBook st)
    (currentBookData st) (pageNumber st) (numPages st) (temporaryHighlight st)
    x (toast st) (selection st) (noteText st) (searchQuery st)
    (searchResults st) (newCategoryName st) (idb st).

Definition setToast (x : option Toast) (st : State) : State :=
  mkState (view st) (books st) (notes st) (categories st) (currentBook st)
    (currentBookData st) (pageNumber st) (numPages st) (temporaryHighlight st)
    (booksToDelete st) x (selection st) (noteText st) (searchQuery st)
    (searchResults st) (newCategoryName st) (idb st).

Definition setSelection (x : string) (st : State) : State :=
  mkState (view st) (books st) (notes st) (categories st) (currentBook st)
    (currentBookData st) (pageNumber st) (numPages st) (temporaryHighlight st)
    (booksToDelete st) (toast st) x (noteText st) (searchQuery st)
    (searchResults st) (newCategoryName st) (idb st).

Definition setNoteText (x : string) (st : State) : State :=
  mkState (view st) (books st) (notes st) (categories st) (currentBook st)
    (currentBookData st) (pageNumber st) (numPages st) (temporaryHighlight st)
    (booksToDelete st) (toast st) (selection st) x (searchQuery st)
    (searchResults st) (newCategoryName st) (idb st).

Definition setSearchQuery (x : string) (st : State) : State :=
  mkState (view st) (books st) (notes st) (categories st) (currentBook st)
    (currentBookData st) (pageNumber st) (numPages st) (temporaryHighlight st)
    (booksToDelete st) (toast st) (selection st) (noteText st) x
    (searchResults st) (newCategoryName st) (idb st).

Definition setSearchResults (x : list SearchResult) (st : State) : State :=
  mkState (view st) (books st) (notes st) (categories st) (currentBook st)
    (currentBookData st) (pageNumber st) (numPages st) (temporaryHighlight st)
    (booksToDelete st) (toast st) (selection st) (noteText st)
    (searchQuery st) x (newCategoryName st) (idb st).

Definition setNewCategoryName (x : string) (st : State) : State :=
  mkState (view st) (books st) (notes st) (categories st) (currentBook st)
    (currentBookData st) (pageNumber st) (numPages st) (temporaryHighlight st)
    (booksToDelete st) (toast st) (selection st) (noteText st)
    (searchQuery st) (searchResults st) x (idb st).

Definition setIdb (x : IDB) (st : State) : State :=
  mkState (view st) (books st) (notes st) (categories st) (currentBook st)
    (currentBookData st) (pageNumber st) (numPages st) (temporaryHighlight st)
    (booksToDelete st) (toast st) (selection st) (noteText st)
    (searchQuery st) (searchResults st) (newCategoryName st) x.

(** The state after the hooks are initialised, over a given blob store. *)
Definition initialState (db : IDB) : State :=
  mkState LIBRARY [] [] [] None None 1 0 None [] None "" "" "" [] "" db.

Definition showToast (msg : string) (ty : ToastType.t) (st : State) : State :=
  setToast (Some (mkToast msg ty)) st.

(* ================================================================== *)
(** * Highlight relocation (the [temporaryHighlight] effect) *)
(* ================================================================== *)

(** [normalize] of the effect: collapse white-space runs, trim, case-fold. *)
Definition normalize (str : string) : string :=
  toLowerCase (trim (replaceWsRuns false str)).

(** A span of the rendered text layer: its text and whether it carries the
    [temporary-highlight] class. *)
Record Span := mkSpan { textContent : string; highlighted : bool }.

(** The condition under which the effect adds the class to a span. *)
Definition spanMatches (target : string) (span : Span) : bool :=
  let text := normalize (textContent span) in
  ((3 <? strlen text) && includes target text)
  || ((3 <? strlen target) && includes text target).

(** The body of the delayed callback: returns the spans after the pass and
    the [found] flag. *)
Definition highlightPass (temporaryHighlight : string) (spans : list Span)
  : list Span * bool :=
  let target := normalize temporaryHighlight in
  (map (fun span =>
          if spanMatches target span
          then mkSpan (textContent span) true else span) spans,
   existsb (spanMatches target) spans).

(** The effect as a whole: it does nothing unless a highlight text is set
    (non-null and non-empty) and the reader view is shown. *)
Definition highlightEffect (temporaryHighlight : option string)
    (view : ViewState) (spans : list Span) : list Span * bool :=
  match temporaryHighlight with
  | Some h =>
      if truthyStr h && bool_decide (view = READER)
      then highlightPass h spans else (spans, false)
  | None => (spans, false)
  end.

(** The marking rule in the words of the specification: after
    normalization, the token is longer than 3 and occurs in the target, or
    the target is longer than 3 and occurs in the token. *)
Definition shouldMark (target token : string) : Prop :=
  (3 < strlen (normalize token)
   ∧ isSubstringOf (normalize token) (normalize target))
  ∨ (3 < strlen (normalize target)
     ∧ isSubstringOf (normalize target) (normalize token)).

(* ================================================================== *)
(** * Search: one page *)
(* ================================================================== *)

(** The text of a page: its items joined by single spaces. *)
Definition pageText (items : list string) : string := join " " items.

(** The body of the page loop: the snippet when the page matches. *)
Definition searchPage (text searchQuery : string) : option string :=
  let lowerText := toLowerCase text in
  let lowerQuery := toLowerCase searchQuery in
  if includes lowerText lowerQuery then
    let index := indexOf lowerText lowerQuery in
    let start := Z.max 0 (index - 30) in
    let end_ := Z.min (strlen text) (index + strlen searchQuery + 30) in
    Some ("..." +:+ substring text start end_ +:+ "...")
  else None.

(** The page loop of [handleSearch]: [i] is the number of the first page of
    [pages], [results] what was pushed so far. *)
Fixpoint searchLoop (pages : list (list string)) (i : Z) (searchQuery : string)
    (results : list SearchResult) : list SearchResult :=
  match pages with
  | [] => results
  | items :: rest =>
      match searchPage (pageText items) searchQuery with
      | Some snippet =>
          let results' := results ++ [mkResult i snippet] in
          if 50 <? Z.of_nat (length results') then results'
          else searchLoop rest (i + 1) searchQuery results'
      | None => searchLoop rest (i + 1) searchQuery results
      end
  end.

(** What [handleSearch] stores in [searchResults] for a parsed document. *)
Definition search (pages : list (list string)) (searchQuery : string)
  : list SearchResult :=
  searchLoop pages 1 searchQuery [].

(* ================================================================== *)
(** * Handlers of the library coordinator *)
(* ================================================================== *)

Definition dquote : string := String (Ascii.ascii_of_nat 34) EmptyString.

Definition hasId (id : string) (b : Book) : bool := bool_decide (Book.id b = id).

Definition newBookOf (file : File) : Book :=
  Book.mk (File.uuid file) (replaceFirst (File.name file) ".pdf" "")
    "Desconhecido" (File.now file) 0 1 (Some BookStatus.next) None (Some 0).

(** The loop of [handleFileUpload]. The first component is [None] when
    [saveBookData] rejected and the loop was left through the exception. *)
Fixpoint uploadLoop (files : list File) (newBooks : list Book) (db : IDB)
  : option (list Book) * IDB :=
  match files with
  | [] => (Some newBooks, db)
  | file :: rest =>
      if negb (bool_decide (File.type file = "application/pdf"))
      then uploadLoop rest newBooks db
      else
        let newBook := newBookOf file in
        match saveBookData (Book.id newBook) (File.arrayBuffer file) db with
        | Some db' => uploadLoop rest (newBooks ++ [newBook]) db'
        | None => (None, db)
        end
  end.

Definition handleFileUpload (files : list File) (st : State) : State :=
  match files with
  | [] => st
  | _ =>
      match uploadLoop files [] (idb st) with
      | (Some newBooks, db) =>
          showToast (pretty (length newBooks)
                     +:+ " livro(s) adicionado(s) à biblioteca.")
            ToastType.success
            (setBooks (books st ++ newBooks) (setIdb db st))
      | (None, db) =>
          showToast "Falha ao salvar alguns pergaminhos." ToastType.error
            (setIdb db st)
      end
  end.

(** The four hooks reset when the open book is deleted. *)
Definition leaveReader (st : State) : State :=
  setView LIBRARY (setCurrentBookData None (setCurrentBook None st)).

(** [confirmed] is the answer of [window.confirm]. *)
Definition deleteBook (id : string) (confirmed : bool) (st : State) : State :=
  let bookToDelete := List.find (hasId id) (books st) in
  if negb confirmed then st
  else
    match deleteBookData id (idb st) with
    | Some db =>
        let st1 := setIdb db st in
        let st2 :=
          match currentBook st with
          | Some cb => if bool_decide (Book.id cb = id) then leaveReader st1 else st1
          | None => st1
          end in
        let st3 := setBooks (filter (λ b, Book.id b ≠ id) (books st2)) st2 in
        let st4 := setNotes (filter (λ n, Note.bookId n ≠ id) (notes st3)) st3 in
        showToast ("Livro " +:+ dquote
                   +:+ from_option Book.title "undefined" bookToDelete
                   +:+ dquote +:+ " excluído com sucesso!")
          ToastType.success st4
    | None => showToast "Erro ao excluir livro." ToastType.error st
    end.

Definition toggleBookForDeletion (id : string) (st : State) : State :=
  if decide (id ∈ booksToDelete st)
  then setBooksToDelete (filter (λ x, x ≠ id) (booksToDelete st)) st
  else setBooksToDelete (booksToDelete st ++ [id]) st.

(** [new Set(ids)]: the first occurrence of every id, in order. *)
Definition newSet (ids : list string) : list string :=
  foldl (λ acc x, if decide (x ∈ acc) then acc else acc ++ [x]) [] ids.

Definition toggleAllForDeletion (st : State) : State :=
  if bool_decide (length (booksToDelete st) = length (books st))
  then setBooksToDelete [] st
  else setBooksToDelete (newSet (map Book.id (books st))) st.

(** The loop of [executeBatchDelete]; [None] when it was left through the
    exception of a rejected [deleteBookData]. *)
Fixpoint batchDeleteLoop (ids : list string) (books : list Book)
    (deletedNames : list string) (db : IDB) : option (list string) * IDB :=
  match ids with
  | [] => (Some deletedNames, db)
  | id :: rest =>
      let deletedNames' :=
        match List.find (hasId id) books with
        | Some book => deletedNames ++ [Book.title book]
        | None => deletedNames
        end in
      match deleteBookData id db with
      | Some db' => batchDeleteLoop rest books deletedNames' db'
      | None => (None, db)
      end
  end.

Definition namesStr (deletedNames : list string) : string :=
  join ", " (take 2 deletedNames)
  +:+ (if (2 <? length deletedNames)%nat
       then " e outros " +:+ pretty (length deletedNames - 2)%nat
       else "").

Definition executeBatchDelete (st : State) : State :=
  match booksToDelete st with
  | [] => st
  | _ =>
      match batchDeleteLoop (booksToDelete st) (books st) [] (idb st) with
      | (Some deletedNames, db) =>
          let st1 := setIdb db st in
          let st2 :=
            match currentBook st with
            | Some cb =>
                if decide (Book.id cb ∈ booksToDelete st) then leaveReader st1
                else st1
            | None => st1
            end in
          let st3 :=
            setBooks (filter (λ b, Book.id b ∉ booksToDelete st) (books st2)) st2 in
          let st4 :=
            setNotes (filter (λ n, Note.bookId n ∉ booksToDelete st) (notes st3))
              st3 in
          let st5 := setBooksToDelete [] st4 in
          showToast ("Livro(s) excluído(s) com sucesso! " +:+ namesStr deletedNames
                     +:+ ". Não estarão mais disponíveis nesta sessão.")
            ToastType.success st5
      | (None, db) =>
          showToast "Erro ao excluir alguns livros." ToastType.error (setIdb db st)
      end
  end.

(** [updateBookMetadata] reads [currentBook] from the closure of the render
    it was created in ([closure]), while its functional updates apply to the
    latest state. *)
Definition updateBookMetadataIn (closure : option Book) (id : string)
    (updates : PartialBook) (st : State) : State :=
  let st1 :=
    setBooks (map (λ b, if hasId id b then spread b updates else b) (books st))
      st in
  match closure with
  | Some cb =>
      if bool_decide (Book.id cb = id)
      then setCurrentBook (option_map (λ prev, spread prev updates) (currentBook st1)) st1
      else st1
  | None => st1
  end.

Definition updateBookMetadata (id : string) (updates : PartialBook) (st : State)
  : State :=
  updateBookMetadataIn (currentBook st) id updates st.

(** [a || b] on numbers: 0 is falsy. *)
Definition orZ (a b : Z) : Z := if a =? 0 then b else a.

(** [targetPage] is [None] when the argument is omitted (default 1);
    [highlightText] is [None] when it is omitted. *)
Definition openBook (book : Book) (targetPage : option Z)
    (highlightText : option string) (st : State) : State :=
  match List.find (hasId (Book.id book)) (books st) with
  | None => showToast "Este livro foi excluído." ToastType.error st
  | Some _ =>
      match getBookData (Book.id book) (idb st) with
      | Some data =>
          let st1 := setCurrentBookData (Some data) st in
          let st2 := setCurrentBook (Some book) st1 in
          let st3 :=
            setPageNumber (orZ (orZ (default 1 targetPage) (Book.currentPage book)) 1)
              st2 in
          let st4 :=
            setTemporaryHighlight
              (match highlightText with
               | Some h => if truthyStr h then Some h else None
               | None => None
               end) st3 in
          let st5 := setView READER st4 in
          if bool_decide (Book.status book = Some BookStatus.next)
          then updateBookMetadataIn (currentBook st) (Book.id book)
                 (PartialBook.mk None None None None None None
                    (Some (Some BookStatus.reading)) None None) st5
          else st5
      | None =>
          showToast "O pergaminho parece estar danificado (Arquivo não encontrado)."
            ToastType.error st
      end
  end.

Definition handleJumpToPage (page : Z) (st : State) : State :=
  setPageNumber page st.

(** The two page buttons of the paginated reader. *)
Definition previousPage (st : State) : State :=
  setPageNumber (Z.max 1 (pageNumber st - 1)) st.

Definition nextPage (st : State) : State :=
  setPageNumber (Z.min (numPages st) (pageNumber st + 1)) st.

Definition closeBook (st : State) : State :=
  let st1 :=
    match currentBook st with
    | Some cb =>
        setBooks
          (map (λ b,
             if hasId (Book.id cb) b
             then Book.mk (Book.id b) (Book.title b) (Book.author b)
                    (Book.uploadDate b)
                    (if 0 <? numPages st then numPages st else Book.totalPages b)
                    (pageNumber st)
                    (Book.status b) (Book.category b) (Book.rating b)
             else b) (books st)) st
    | None => st
    end in
  setView LIBRARY
    (setTemporaryHighlight None (setCurrentBookData None (setCurrentBook None st1))).

(** [uuid] and [now]: the results of [crypto.randomUUID()] and [Date.now()]. *)
Definition saveNote (uuid : string) (now : Z) (st : State) : State :=
  match currentBook st with
  | None => st
  | Some cb =>
      if negb (truthyStr (noteText st)) && negb (truthyStr (selection st)) then st
      else
        let newNote :=
          Note.mk uuid (Book.id cb) (pageNumber st) (noteText st)
            (Some (selection st)) now in
        showToast "Nota salva." ToastType.success
          (setSelection "" (setNoteText "" (setNotes (newNote :: notes st) st)))
  end.

(** The delete button of a note in the notes panel. *)
Definition deleteNote (id : string) (st : State) : State :=
  setNotes (filter (λ n, Note.id n ≠ id) (notes st)) st.

Definition onDocumentLoadSuccess (n : Z) (st : State) : State :=
  let st1 := setNumPages n st in
  match currentBook st with
  | Some cb =>
      if Book.totalPages cb =? 0
      then setBooks
             (map (λ b,
                if hasId (Book.id cb) b
                then Book.mk (Book.id b) (Book.title b) (Book.author b)
                       (Book.uploadDate b) n (Book.currentPage b)
                       (Book.status b) (Book.category b) (Book.rating b)
                else b) (books st1)) st1
      else st1
  | None => st1
  end.

(** [sel] is [window.getSelection().toString()]. *)
Definition handleSelection (sel : string) (st : State) : State :=
  if truthyStr sel then setSelection sel st else st.

Definition handleSearch (st : State) : State :=
  match currentBookData st with
  | None => st
  | Some data =>
      if negb (truthyStr (trim (searchQuery st))) then st
      else
        let st1 := setSearchResults [] st in
        match data with
        | Pdf pages => setSearchResults (search pages (searchQuery st)) st1
        | Unparseable => showToast "Erro na pesquisa." ToastType.error st1
        end
  end.

Definition addCategory (uuid : string) (st : State) : State :=
  if negb (truthyStr (trim (newCategoryName st))) then st
  else
    let newCat := Category.mk uuid (trim (newCategoryName st)) in
    showToast "Categoria criada." ToastType.success
      (setNewCategoryName "" (setCategories (categories st ++ [newCat]) st)).

Definition deleteCategory (id : string) (confirmed : bool) (st : State) : State :=
  if confirmed then
    let st1 := setCategories (filter (λ c, Category.id c ≠ id) (categories st)) st in
    let st2 :=
      setBooks
        (map (λ b,
           if bool_decide (Book.category b = Some id)
           then Book.mk (Book.id b) (Book.title b) (Book.author b)
                  (Book.uploadDate b) (Book.totalPages b) (Book.currentPage b)
                  (Book.status b) None (Book.rating b)
           else b) (books st1)) st1 in
    showToast "Categoria removida." ToastType.success st2
  else st.

(* ================================================================== *)
(** * The application as a transition system *)
(* ================================================================== *)

(** One constructor for every event that writes to the modelled state. A
    handler runs in the closure of the latest render, so it reads the state
    the previous event left. *)
Inductive Action :=
| HandleFileUpload (files : list File)
| DeleteBook (id : string) (confirmed : bool)
| ToggleBookForDeletion (id : string)
| ToggleAllForDeletion
| ExecuteBatchDelete
| UpdateBookMetadata (id : string) (updates : PartialBook)
| OpenBook (book : Book) (targetPage : option Z) (highlightText : option string)
| HandleJumpToPage (page : Z)
| PreviousPage
| NextPage
| CloseBook
| SaveNote (uuid : string) (now : Z)
| DeleteNote (id : string)
| OnDocumentLoadSuccess (n : Z)
| HandleSelection (sel : string)
| HandleSearch
| AddCategory (uuid : string)
| DeleteCategory (id : string) (confirmed : bool)
| SetView (v : ViewState)
| SetTemporaryHighlight (h : option string)
| SetNoteText (s : string)
| SetSearchQuery (s : string)
| SetNewCategoryName (s : string).

Definition step (a : Action) (st : State) : State :=
  match a with
  | HandleFileUpload files => handleFileUpload files st
  | DeleteBook id confirmed => deleteBook id confirmed st
  | ToggleBookForDeletion id => toggleBookForDeletion id st
  | ToggleAllForDeletion => toggleAllForDeletion st
  | ExecuteBatchDelete => executeBatchDelete st
  | UpdateBookMetadata id updates => updateBookMetadata id updates st
  | OpenBook book targetPage highlightText =>
      openBook book targetPage highlightText st
  | HandleJumpToPage page => handleJumpToPage page st
  | PreviousPage => previousPage st
  | NextPage => nextPage st
  | CloseBook => closeBook st
  | SaveNote uuid now => saveNote uuid now st
  | DeleteNote id => deleteNote id st
  | OnDocumentLoadSuccess n => onDocumentLoadSuccess n st
  | HandleSelection sel => handleSelection sel st
  | HandleSearch => handleSearch st
  | AddCategory uuid => addCategory uuid st
  | DeleteCategory id confirmed => deleteCategory id confirmed st
  | SetView v => setView v st
  | SetTemporaryHighlight h => setTemporaryHighlight h st
  | SetNoteText s => setNoteText s st
  | SetSearchQuery s => setSearchQuery s st
  | SetNewCategoryName s => setNewCategoryName s st
  end.

(** Running a sequence of events, the first one first. *)
Definition run (actions : list Action) (st : State) : State :=
  foldl (λ s a, step a s) st actions.

(* ================================================================== *)
(** * Sorting and grouping ([renderLibrary]) *)
(* ================================================================== *)

(** [Array.prototype.sort] is stable; for a comparator [cmp] it is modelled
    by the stable insertion sort: an element stays in front of the elements
    it does not compare greater than. *)
Fixpoint insertSorted {A} (cmp : A → A → Z) (x : A) (l : list A) : list A :=
  match l with
  | [] => [x]
  | y :: l' => if cmp x y <=? 0 then x :: l else y :: insertSorted cmp x l'
  end.

Definition sortBy {A} (cmp : A → A → Z) (l : list A) : list A :=
  foldr (insertSorted cmp) [] l.

(** [x || 0] on an optional number. *)
Definition orZero (x : option Z) : Z := default 0 x.

(** The object [groups]: its own properties in creation order. *)
Abbreviation Groups := (list (string * list Book)).

Section Arrange.

(** [String.prototype.localeCompare], provided by the host. *)
Variable localeCompare : string → string → Z.

Definition compareBooks (sortMode : SortMode) (a b : Book) : Z :=
  match sortMode with
  | SortMode.rating => orZero (Book.rating b) - orZero (Book.rating a)
  | SortMode.progress => orZ (Book.currentPage b) 0 - orZ (Book.currentPage a) 0
  | SortMode.pages => orZ (Book.totalPages b) 0 - orZ (Book.totalPages a) 0
  | SortMode.completed =>
      let aCompleted :=
        if bool_decide (Book.status a = Some BookStatus.completed) then 1 else 0 in
      let bCompleted :=
        if bool_decide (Book.status b = Some BookStatus.completed) then 1 else 0 in
      if negb (aCompleted =? bCompleted) then bCompleted - aCompleted
      else localeCompare (Book.title a) (Book.title b)
  | SortMode.recent => Book.uploadDate b - Book.uploadDate a
  end.

Definition sortBooks (sortMode : SortMode) (list : Datatypes.list Book)
  : Datatypes.list Book :=
  sortBy (compareBooks sortMode) list.

Definition statusLabel (s : BookStatus) : string :=
  match s with
  | BookStatus.next => "Próximo"
  | BookStatus.reading => "Lendo"
  | BookStatus.paused => "Pausado"
  | BookStatus.completed => "Concluído"
  | BookStatus.discarded => "Descartado"
  end.

(** The key computed for a book in the body of [forEach]. *)
Definition groupKey (groupingMode : GroupingMode) (categories : list Category)
    (book : Book) : string :=
  match groupingMode with
  | GroupingMode.category =>
      match List.find (λ c, bool_decide (Some (Category.id c) = Book.category book))
              categories with
      | Some cat => Category.name cat
      | None => "Sem Categoria"
      end
  | GroupingMode.status =>
      statusLabel (default BookStatus.next (Book.status book))
  | GroupingMode.rating =>
      match Book.rating book with
      | Some r => if r =? 0 then "Sem Avaliação" else pretty r +:+ " Estrelas"
      | None => "Sem Avaliação"
      end
  | GroupingMode.none => "Outros"
  end.

(** The properties every object literal inherits from [Object.prototype]. *)
Definition objectPrototypeKeys : list string :=
  ["constructor"; "hasOwnProperty"; "isPrototypeOf"; "propertyIsEnumerable";
   "toLocaleString"; "toString"; "valueOf"; "__proto__";
   "__defineGetter__"; "__defineSetter__"; "__lookupGetter__";
   "__lookupSetter__"].

Definition hasOwn (key : string) (groups : Groups) : bool :=
  bool_decide (key ∈ map fst groups).

(** [groups[key].push(book)] on an own property. *)
Fixpoint pushOwn (key : string) (book : Book) (groups : Groups) : Groups :=
  match groups with
  | [] => []
  | (k, arr) :: rest =>
      if bool_decide (k = key) then (k, arr ++ [book]) :: rest
      else (k, arr) :: pushOwn key book rest
  end.

(** [if (!groups[key]) groups[key] = []; groups[key].push(book)]. An own
    property holds an array, which is truthy. A key that is not an own
    property but is inherited reads as a function or object of the
    prototype: it is truthy, nothing is assigned, and [push] is not a
    function on it, so a [TypeError] is thrown ([None]). *)
Definition addToGroups (key : string) (book : Book) (groups : Groups)
  : option Groups :=
  if hasOwn key groups then Some (pushOwn key book groups)
  else if bool_decide (key ∈ objectPrototypeKeys) then None
  else Some (pushOwn key book (groups ++ [(key, [])])).

Definition getGroupedBooks (groupingMode : GroupingMode)
    (categories : list Category) (sortedBooks : list Book) : option Groups :=
  match groupingMode with
  | GroupingMode.none => Some [("Todos", sortedBooks)]
  | _ =>
      foldl (λ groups book,
               groups ≫= addToGroups (groupKey groupingMode categories book) book)
        (Some []) sortedBooks
  end.

(** The value of the digits of [s], if [s] is a non-empty digit string. *)
Fixpoint digitsValue (acc : option N) (s : string) : option N :=
  match s with
  | EmptyString => acc
  | String c r =>
      let n := Ascii.N_of_ascii c in
      if ((48 <=? n) && (n <=? 57))%N
      then digitsValue (Some (10 * default 0%N acc + (n - 48))%N) r
      else None
  end.

(** A property key is an array index when it is the canonical decimal form
    of an integer below 2^32 - 1. *)
Definition arrayIndex (key : string) : option N :=
  match digitsValue None key with
  | Some n =>
      if bool_decide (pretty n = key) && (n <? 4294967295)%N then Some n else None
  | None => None
  end.

(** [Object.entries(groups)]: the array-index keys in ascending numeric
    order, then the other keys in creation order. *)
Definition objectEntries (groups : Groups) : Groups :=
  map snd
    (sortBy (λ a b, Z.of_N (fst a) - Z.of_N (fst b))
       (omap (λ kv, (λ n, (n, kv)) <$> arrayIndex (fst kv)) groups))
  ++ filter (λ kv, arrayIndex (fst kv) = None) groups.

(** The buckets the library view renders, in order; [None] when rendering
    throws. *)
Definition arrange (books : list Book) (categories : list Category)
    (groupingMode : GroupingMode) (sortMode : SortMode) : option Groups :=
  objectEntries <$> getGroupedBooks groupingMode categories (sortBooks sortMode books).

End Arrange.

(** Flattening the buckets back to one list. *)
Definition flatten (buckets : Groups) : list Book := concat (map snd buckets).

(** A comparison of strings by code units, to run [arrange] on examples. *)
Definition codeUnitCompare (a b : string) : Z :=
  match String.compare a b with Lt => -1 | Eq => 0 | Gt => 1 end.

(* ================================================================== *)
(** * Further handlers and views *)
(* ================================================================== *)

Section PageInput.

(** [parseInt], provided by the host: [None] stands for [NaN]. *)
Variable parseInt : string → option Z.

(** [handlePageInputSubmit], with the text of the page input passed in and
    returned. After a jump the effect that follows [pageNumber] rewrites the
    input when the page number changed. *)
Definition handlePageInputSubmit (pageInput : string) (st : State)
  : State * string :=
  match parseInt pageInput with
  | Some val =>
      if (1 <=? val) && (val <=? numPages st)
      then (handleJumpToPage val st,
            if val =? pageNumber st then pageInput else pretty val)
      else (st, pretty (pageNumber st))
  | None => (st, pretty (pageNumber st))
  end.

End PageInput.

(** The notes listed in the note panel of the reader: those of the open
    book, the most recent first. *)
Definition readerNotes (st : State) : list Note :=
  sortBy (λ a b, Note.createdAt b - Note.createdAt a)
    (filter (λ n, Some (Note.bookId n) = Book.id <$> currentBook st) (notes st)).

(** The books listed in the side bar of the notes view. *)
Definition booksWithNotes (st : State) : list Book :=
  filter (λ b, Exists (λ n, Note.bookId n = Book.id b) (notes st)) (books st).

(** The count shown beside a book of the side bar. *)
Definition noteCount (st : State) (book : Book) : nat :=
  length (filter (λ n, Note.bookId n = Book.id book) (notes st)).

(** [bookNotes] of [handleExportNotes], also the list of the notes view:
    the notes of the selected book by ascending page. *)
Definition bookNotes (selectedNoteBookId : string) (st : State) : list Note :=
  sortBy (λ a b, Note.pageNumber a - Note.pageNumber b)
    (filter (λ n, Note.bookId n = selectedNoteBookId) (notes st)).

(** [handleExportNotes]; the export itself is a stub in the source, so the
    handler only reports. [selectedNoteBookId] is the hook of that name. *)
Definition handleExportNotes (selectedNoteBookId : option string) (st : State)
  : State :=
  match selectedNoteBookId with
  | None => st
  | Some sel =>
      if negb (truthyStr sel) then st
      else
        match List.find (hasId sel) (books st) with
        | None => st
        | Some book =>
            match bookNotes sel st with
            | [] => showToast "Não há anotações para exportar." ToastType.info st
            | _ =>
                showToast "Anotações exportadas com sucesso!" ToastType.success st
            end
        end
  end.

(* ================================================================== *)
(** * Example states *)
(* ================================================================== *)

(** A document as [handleFileUpload] creates it. *)
Definition bookA : Book :=
  Book.mk "a" "Alpha" "Desconhecido" 10 0 1 (Some BookStatus.next) None (Some 0).

(** A document that was opened before: 7 pages are stored for it. *)
Definition bookB : Book :=
  Book.mk "b" "Beta" "Desconhecido" 20 7 3 (Some BookStatus.paused) (Some "c1")
    (Some 4).

Definition noteA : Note := Note.mk "n1" "a" 3 "remember" (Some "hello world") 30.

Definition noteB : Note := Note.mk "n2" "b" 1 "" (Some "beta") 40.

Definition sciFi : Category := Category.mk "c1" "Sci-Fi".

(** A store holding the payloads of both documents; it rejects writes on
    the keys of [faultyKeys]. *)
Definition storeAB (faultyKeys : gset string) : IDB :=
  mkIDB (<["a" := Pdf [["hello"; "world"]]]> (<["b" := Pdf [["beta"]]]> ∅))
    faultyKeys.

(** The library with the two documents, their notes and one category. *)
Definition libraryAB (faultyKeys : gset string) : State :=
  setCategories [sciFi]
    (setNotes [noteA; noteB]
       (setBooks [bookA; bookB] (initialState (storeAB faultyKeys)))).

(** Both documents selected for deletion. *)
Definition selectedAB (faultyKeys : gset string) : State :=
  setBooksToDelete ["a"; "b"] (libraryAB faultyKeys).

Definition fileC : File :=
  File.mk "Gamma.pdf" "application/pdf" (Pdf [["gamma"]]) "c" 50.

Definition fileD : File :=
  File.mk "Delta.pdf" "application/pdf" (Pdf [["delta"]]) "d" 60.

Definition fileTxt : File :=
  File.mk "notes.txt" "text/plain" Unparseable "t" 70.

(* ================================================================== *)
(** * Notions used to state the properties, and example data *)
(* ================================================================== *)

(** The example of the specification: "ocean" at offset 100 of a page of 500
    code units. *)
Definition oceanPage : string :=
  String.concat "" (replicate 100 "x") +:+ "ocean"
  +:+ String.concat "" (replicate 395 "y").

(** The document on which the cap is exceeded: 51 pages, each with the one
    text item "ocean". *)
Definition fiftyOnePages : list (list string) := replicate 51 ["ocean"].

(** The titles [executeBatchDelete] collects: those of the selected ids
    that are found in the library, in the order of the selection. *)
Definition selectedTitles (ids : list string) (bks : list Book) : list string :=
  omap (λ id, Book.title <$> List.find (hasId id) bks) ids.



(** The record [b] with its status replaced. *)
Definition withStatus (s : BookStatus) (b : Book) : Book :=
  Book.mk (Book.id b) (Book.title b) (Book.author b) (Book.uploadDate b)
    (Book.totalPages b) (Book.currentPage b) (Some s) (Book.category b)
    (Book.rating b).

(** The direct edit of a document by the user. *)
Definition isUserEdit (a : Action) : bool :=
  match a with UpdateBookMetadata _ _ => true | _ => false end.

(** The opening of a document. *)
Definition isOpen (a : Action) : bool :=
  match a with OpenBook _ _ _ => true | _ => false end.

(** [b'] continues a record of [bks]: same identity, same status. *)
Definition keepsStatusOf (bks : list Book) (b' : Book) : Prop :=
  ∃ b, b ∈ bks
       ∧ Book.id b' = Book.id b
       ∧ Book.title b' = Book.title b
       ∧ Book.uploadDate b' = Book.uploadDate b
       ∧ Book.status b' = Book.status b.

(** Two reading sessions: the first document is opened, loads with 100
    pages and is closed; the second one is opened and closed before the
    renderer reports anything for it. *)
Definition twoSessions : list Action :=
  [OpenBook bookA None None; OnDocumentLoadSuccess 100; CloseBook;
   OpenBook bookB None None; CloseBook].

(** A bucket is well formed for the key function [key] when it is not empty
    and holds documents of its own key only. *)
Definition bucketOf (key : Book → string) (kv : string * list Book) : Prop :=
  kv.2 ≠ [] ∧ Forall (λ b, key b = kv.1) kv.2.

(** The string holds a space. *)
Fixpoint hasSpace (s : string) : bool :=
  match s with
  | EmptyString => false
  | String c r => bool_decide (c = " "%char) || hasSpace r
  end.

(** A category as [addCategory] creates it for the name "constructor". *)
Definition constructorCategory : Category := Category.mk "c9" "constructor".

(** A document filed under the category named "constructor". *)
Definition bookC : Book :=
  Book.mk "c" "Gamma" "Desconhecido" 50 0 1 (Some BookStatus.next) (Some "c9")
    (Some 0).

(** The results of all the matching pages, without a cap; [i] is the number
    of the first page of [pages]. *)
Fixpoint allMatches (pages : list (list string)) (i : Z) (searchQuery : string)
  : list SearchResult :=
  match pages with
  | [] => []
  | items :: rest =>
      match searchPage (pageText items) searchQuery with
      | Some snippet => mkResult i snippet :: allMatches rest (i + 1) searchQuery
      | None => allMatches rest (i + 1) searchQuery
      end
  end.

(** The white space of [s] consists of single spaces, none of them right
    after another space; [afterSpace] tells that a space precedes [s]. *)
Fixpoint collapsed (afterSpace : bool) (s : string) : bool :=
  match s with
  | EmptyString => true
  | String c r =>
      if isWhiteSpace c
      then Ascii.eqb c " "%char && negb afterSpace && collapsed true r
      else collapsed false r
  end.

(** [s] does not start with white space. *)
Definition headNonWs (s : string) : bool :=
  match s with
  | EmptyString => true
  | String c _ => negb (isWhiteSpace c)
  end.

(** The number a sort mode orders by (for [completed], whether the document
    is finished). *)
Definition sortKey (sortMode : SortMode) (b : Book) : Z :=
  match sortMode with
  | SortMode.recent => Book.uploadDate b
  | SortMode.rating => orZero (Book.rating b)
  | SortMode.progress => Book.currentPage b
  | SortMode.pages => Book.totalPages b
  | SortMode.completed =>
      if bool_decide (Book.status b = Some BookStatus.completed) then 1 else 0
  end.

(** A comparison of strings by length, a consistent comparator to run the
    sort by title on examples. *)
Definition lengthCompare (a b : string) : Z := strlen a - strlen b.

(** Three notes of the document "a", the second and third on the same
    page. *)
Definition threeNotes : list Note :=
  [Note.mk "n3" "a" 9 "late" (Some "") 90;
   Note.mk "n2" "a" 2 "second" (Some "") 80;
   Note.mk "n1" "a" 2 "first" (Some "") 70;
   Note.mk "n0" "b" 1 "other" (Some "") 60].

(** The groups built from the documents [processed]: the labels are
    distinct, every document processed has its label among them, and the
    bucket of a label holds, in order, the documents processed with that
    key, at least one. *)
Definition bucketsOf (keyOf : Book → string) (processed : list Book)
    (g : Groups) : Prop :=
  NoDup (map fst g)
  ∧ (∀ b, b ∈ processed → keyOf b ∈ map fst g)
  ∧ Forall (λ kv, kv.2 ≠ []
                  ∧ kv.2 = filter (λ b, keyOf b = kv.1) processed) g.

(** A record with the identifier [id] is in the library. *)
Definition hasBook (bks : list Book) (id : string) : Prop :=
  ∃ b, b ∈ bks ∧ Book.id b = id.

(** Every note belongs to a document of the library, and so does the copy
    of the open document. *)
Definition noOrphans (st : State) : Prop :=
  (∀ n, n ∈ notes st → hasBook (books st) (Note.bookId n))
  ∧ (∀ cb, currentBook st = Some cb → hasBook (books st) (Book.id cb)).

(** The event does not rewrite the identifier of a document: the edits of
    the reader (status, category, rating) are of this kind. *)
Definition keepsIds (a : Action) : Prop :=
  match a with
  | UpdateBookMetadata _ updates => PartialBook.id updates = None
  | _ => True
  end.

(** Every record of the library has its payload in the store. *)
Definition everyBookHasBlob (st : State) : Prop :=
  ∀ b, b ∈ books st → is_Some (getBookData (Book.id b) (idb st)).

(** If the event is a batch delete, the store accepts the delete of every
    selected identifier. *)
Definition batchAccepted (a : Action) (st : State) : Prop :=
  match a with
  | ExecuteBatchDelete => ∀ id, id ∈ booksToDelete st → id ∉ faulty (idb st)
  | _ => True
  end.

(** A session on the library of the examples: a document is opened,
    annotated and deleted, the other one is edited, a third is uploaded. *)
Definition busySession : list Action :=
  [OpenBook bookA None None; SetNoteText "read again"; SaveNote "n9" 99;
   DeleteBook "a" true;
   UpdateBookMetadata "b"
     (PartialBook.mk None None None None None None None None (Some (Some 5)));
   HandleFileUpload [fileC; fileTxt]; ToggleAllForDeletion].

(** The two page buttons with their [disabled] attributes: a disabled
    button does not run its handler. *)
Definition clickPrevious (st : State) : State :=
  if pageNumber st <=? 1 then st else previousPage st.

Definition clickNext (st : State) : State :=
  if numPages st <=? pageNumber st then st else nextPage st.

(** The page shown is a page of the document. *)
Definition pageInRange (st : State) : Prop :=
  1 ≤ pageNumber st ≤ numPages st.

(** The reader on page 3 of a document of 7 pages. *)
Definition readingB : State :=
  setNumPages 7 (setPageNumber 3 (setCurrentBook (Some bookB) (libraryAB ∅))).

(** The events that write to the blob store, to the notes and to the
    categories. *)
Definition writesStore (a : Action) : Prop :=
  match a with
  | HandleFileUpload _ | DeleteBook _ _ | ExecuteBatchDelete => True
  | _ => False
  end.

Definition writesNotes (a : Action) : Prop :=
  match a with
  | DeleteBook _ _ | ExecuteBatchDelete | SaveNote _ _ | DeleteNote _ => True
  | _ => False
  end.

Definition writesCategories (a : Action) : Prop :=
  match a with
  | AddCategory _ | DeleteCategory _ _ => True
  | _ => False
  end.

(** A category name that is not empty and has no white space around it. *)
Definition trimmedName (c : Category) : Prop :=
  Category.name c ≠ "" ∧ trim (Category.name c) = Category.name c.

(** Every category a record refers to exists. *)
Definition categoriesLive (st : State) : Prop :=
  ∀ b c, b ∈ books st → Book.category b = Some c →
    ∃ cat, cat ∈ categories st ∧ Category.id cat = c.

(** If the event is an edit that files the document under a category, the
    category exists: the select of the settings panel offers the existing
    categories only. *)
Definition picksLiveCategory (a : Action) (st : State) : Prop :=
  match a with
  | UpdateBookMetadata _ updates =>
      ∀ c, PartialBook.category updates = Some (Some c) →
        ∃ cat, cat ∈ categories st ∧ Category.id cat = c
  | _ => True
  end.

(** The confirmed single deletes of the identifiers, one after the other. *)
Definition deleteEach (ids : list string) : list Action :=
  map (λ id, DeleteBook id true) ids.

(** [s] is [st] without the documents of [ids]: their records, notes and
    payloads are gone, and the reader is left if the open document is one
    of them. The toast and the selection are not constrained. *)
Definition deletedFrom (ids : list string) (st s : State) : Prop :=
  books s = filter (λ b, Book.id b ∉ ids) (books st)
  ∧ notes s = filter (λ n, Note.bookId n ∉ ids) (notes st)
  ∧ idb s = mkIDB (foldl (λ m id, delete id m) (blobs (idb st)) ids)
              (faulty (idb st))
  ∧ currentBook s
    = match currentBook st with
      | Some cb => if decide (Book.id cb ∈ ids) then None else Some cb
      | None => None
      end
  ∧ currentBookData s
    = match currentBook st with
      | Some cb => if decide (Book.id cb ∈ ids) then None else currentBookData st
      | None => currentBookData st
      end
  ∧ view s
    = match currentBook st with
      | Some cb => if decide (Book.id cb ∈ ids) then LIBRARY else view st
      | None => view st
      end
  ∧ categories s = categories st ∧ pageNumber s = pageNumber st
  ∧ numPages s = numPages st.

(** The number of notes of a list that belong to the document [id]. *)
Definition countFor (ns : list Note) (id : string) : nat :=
  length (filter (λ n, Note.bookId n = id) ns).

(* ================================================================== *)
(** * Properties *)
(* ================================================================== *)

Example normalize_ex :
  normalize ("  The   Quick" +:+ String (Ascii.ascii_of_nat 10) "" +:+ " "
             +:+ String (Ascii.ascii_of_nat 9) "" +:+ "BROWN  ")
  = "the quick brown".
Proof. reflexivity. Qed.

Example searchPage_ex :
  searchPage "abc Ocean def" "ocean" = Some "...abc Ocean def...".
Proof. reflexivity. Qed.

Example arrange_ex :
  let b1 := Book.mk "1" "B" "" 10 0 1 (Some BookStatus.next) (Some "c1") (Some 3) in
  let b2 := Book.mk "2" "A" "" 20 0 1 (Some BookStatus.reading) None None in
  let b3 := Book.mk "3" "C" "" 30 0 1 None (Some "c2") (Some 3) in
  arrange codeUnitCompare [b1; b2; b3] [Category.mk "c1" "Sci-Fi"; Category.mk "c2" "7"]
    GroupingMode.category SortMode.recent
  = Some [("7", [b3]); ("Sem Categoria", [b2]); ("Sci-Fi", [b1])].
Proof. vm_compute. reflexivity. Qed.

(* ------------------------------------------------------------------ *)
(** ** Strings *)
(* ------------------------------------------------------------------ *)

Lemma strlen_nonneg s : 0 ≤ strlen s.
Proof. unfold strlen. lia. Qed.

Lemma strlen_cons c s : strlen (String c s) = 1 + strlen s.
Proof. unfold strlen. simpl. lia. Qed.

Lemma sapp_nil_l (a : string) : "" +:+ a = a.
Proof. reflexivity. Qed.

Lemma sapp_cons c (a b : string) : String c a +:+ b = String c (a +:+ b).
Proof. reflexivity. Qed.

Lemma strlen_app s t : strlen (s +:+ t) = strlen s + strlen t.
Proof.
  induction s as [|c s IH].
  - rewrite sapp_nil_l. change (strlen "") with 0. lia.
  - rewrite sapp_cons, !strlen_cons, IH. lia.
Qed.


Lemma startsWith_iff s p : startsWith s p = true ↔ ∃ post, s = p +:+ post.
Proof.
  revert s. induction p as [|a p IH]; intros s.
  - split; [intros _; by exists s | by destruct s].
  - destruct s as [|b s]; simpl.
    + split; [done | intros [post H]; discriminate].
    + destruct (Ascii.eqb_spec a b) as [->|Hne].
      * rewrite IH. split; intros [post H]; exists post;
          rewrite ?sapp_cons in *; congruence.
      * split; [done | intros [post H]; rewrite sapp_cons in H; congruence].
Qed.

Lemma indexOfFrom_eq s pat i :
  indexOfFrom s pat i =
  if startsWith s pat then i
  else match s with "" => -1 | String _ r => indexOfFrom r pat (i + 1) end.
Proof. by destruct s. Qed.

(** What the scan of [indexOf] returns: -1 when there is no occurrence,
    else the offset of the leftmost one. *)
Lemma indexOfFrom_spec s pat i :
  0 ≤ i →
  indexOfFrom s pat i = -1 ∧ ¬ isSubstringOf pat s
  ∨ ∃ pre post, s = pre +:+ pat +:+ post
      ∧ indexOfFrom s pat i = i + strlen pre
      ∧ ∀ pre' post', s = pre' +:+ pat +:+ post' → strlen pre ≤ strlen pre'.
Proof.
  revert i. induction s as [|c s IH]; intros i Hi; rewrite indexOfFrom_eq.
  - destruct (startsWith "" pat) eqn:Hsw; cbv iota.
    + right. apply startsWith_iff in Hsw as [post Hp]. exists "", post.
      split; [done|]. split; [change (strlen "") with 0; lia|].
      intros. apply strlen_nonneg.
    + left. split; [done|]. intros (pre & post & H).
      destruct pre; [|discriminate]. rewrite sapp_nil_l in H.
      assert (startsWith "" pat = true) by (apply startsWith_iff; eauto).
      congruence.
  - destruct (startsWith (String c s) pat) eqn:Hsw; cbv iota.
    + right. apply startsWith_iff in Hsw as [post Hp]. exists "", post.
      split; [done|]. split; [change (strlen "") with 0; lia|].
      intros. apply strlen_nonneg.
    + assert (Hpre : ∀ pre' post', String c s = pre' +:+ pat +:+ post' →
                ∃ pre'', pre' = String c pre'' ∧ s = pre'' +:+ pat +:+ post').
      { intros pre' post' H. destruct pre' as [|c' pre''].
        - rewrite sapp_nil_l in H.
          assert (startsWith (String c s) pat = true) by (apply startsWith_iff; eauto).
          congruence.
        - rewrite sapp_cons in H. injection H as -> ->. eauto. }
      destruct (IH (i + 1)) as [(Hr & Hno)|(pre & post & Hs & Hr & Hmin)]; [lia| |].
      * left. split; [done|]. intros (pre' & post' & H).
        apply Hpre in H as (pre'' & -> & H). apply Hno. by exists pre'', post'.
      * right. exists (String c pre), post. split; [rewrite sapp_cons; congruence|].
        split; [rewrite Hr, strlen_cons; lia|].
        intros pre' post' H. apply Hpre in H as (pre'' & -> & H).
        rewrite !strlen_cons. specialize (Hmin _ _ H). lia.
Qed.

Lemma indexOf_spec s pat :
  indexOf s pat = -1 ∧ ¬ isSubstringOf pat s
  ∨ ∃ pre post, s = pre +:+ pat +:+ post
      ∧ indexOf s pat = strlen pre
      ∧ ∀ pre' post', s = pre' +:+ pat +:+ post' → strlen pre ≤ strlen pre'.
Proof.
  destruct (indexOfFrom_spec s pat 0) as [?|(pre & post & ? & Hi & ?)]; [lia|by left|].
  right. exists pre, post. unfold indexOf. rewrite Hi. split_and!; [done|lia|done].
Qed.

Lemma includes_iff s t : includes s t = true ↔ isSubstringOf t s.
Proof.
  unfold includes.
  destruct (indexOf_spec s t) as [[-> Hno]|(pre & post & Hs & -> & _)].
  - simpl. split; [done|]. intros H. by destruct Hno.
  - pose proof (strlen_nonneg pre).
    destruct (Z.eqb_spec (strlen pre) (-1)); [lia|]. simpl.
    split; [|done]. intros _. by exists pre, post.
Qed.

Lemma isSubstringOf_length t s : isSubstringOf t s → strlen t ≤ strlen s.
Proof.
  intros (pre & post & ->). rewrite !strlen_app.
  pose proof (strlen_nonneg pre). pose proof (strlen_nonneg post). lia.
Qed.

(* ------------------------------------------------------------------ *)
(** ** Highlight relocation *)
(* ------------------------------------------------------------------ *)

Lemma spanMatches_iff target span :
  spanMatches (normalize target) span = true ↔ shouldMark target (textContent span).
Proof.
  unfold spanMatches, shouldMark.
  rewrite orb_true_iff, !andb_true_iff, !Z.ltb_lt, !includes_iff. tauto.
Qed.



Example relocation_the :
  spanMatches (normalize "Over the hills") (mkSpan "the" false) = false.
Proof. reflexivity. Qed.

Example relocation_cat :
  spanMatches (normalize "cat") (mkSpan "concatenate" false) = false.
Proof. reflexivity. Qed.

Example relocation_elephant :
  spanMatches (normalize "the elephant sat") (mkSpan "Elephant" false) = true.
Proof. reflexivity. Qed.

(* ------------------------------------------------------------------ *)
(** ** The snippet of a page *)
(* ------------------------------------------------------------------ *)




Lemma sdrop_add (n m : nat) s : sdrop (n + m) s = sdrop m (sdrop n s).
Proof.
  revert s. induction n as [|n IH]; intros [|c s]; simpl; try done.
  by destruct m.
Qed.




Example search_snippet_ocean :
  strlen oceanPage = 500
  ∧ indexOf (toLowerCase oceanPage) (toLowerCase "ocean") = 100
  ∧ searchPage oceanPage "ocean"
    = Some ("..." +:+ String.concat "" (replicate 30 "x") +:+ "ocean"
            +:+ String.concat "" (replicate 30 "y") +:+ "...").
Proof. vm_compute. done. Qed.

(* ------------------------------------------------------------------ *)
(** ** The page loop of the search *)
(* ------------------------------------------------------------------ *)

(** What the loop adds to [results]: results of distinct pages in ascending
    order, each with the snippet of its page, and it stops adding once the
    list is longer than 50. *)
Lemma searchLoop_spec pages i q results :
  ∃ new,
    searchLoop pages i q results = results ++ new
    ∧ StronglySorted Z.lt (map page new)
    ∧ Forall (λ r, i ≤ page r < i + Z.of_nat (length pages)
                   ∧ ∃ items, pages !! Z.to_nat (page r - i) = Some items
                       ∧ searchPage (pageText items) q = Some (text r)) new
    ∧ ((length results ≤ 50)%nat → (length (results ++ new) ≤ 51)%nat).
Proof.
  revert i results. induction pages as [|items pages IH]; intros i results.
  - exists []. rewrite app_nil_r. split_and!; [done|constructor|constructor|].
    simpl. lia.
  - simpl. destruct (searchPage (pageText items) q) as [snippet|] eqn:Hp.
    + assert (Hhere : i ≤ page (mkResult i snippet) < i + Z.of_nat (S (length pages))
                ∧ ∃ items0, (items :: pages) !! Z.to_nat (page (mkResult i snippet) - i)
                              = Some items0
                    ∧ searchPage (pageText items0) q = Some (text (mkResult i snippet))).
      { simpl. split; [lia|]. exists items. by rewrite Z.sub_diag. }
      destruct (50 <? Z.of_nat (length (results ++ [mkResult i snippet]))) eqn:Hcap.
      * exists [mkResult i snippet]. split_and!; [done|repeat constructor| |].
        { constructor; [exact Hhere|constructor]. }
        rewrite length_app. simpl. lia.
      * destruct (IH (i + 1) (results ++ [mkResult i snippet]))
          as (new & Heq & Hsorted & Hall & Hlen).
        exists (mkResult i snippet :: new). split_and!.
        { rewrite Heq. by rewrite <- app_assoc. }
        { simpl. constructor; [done|]. rewrite Forall_fmap.
          eapply Forall_impl; [exact Hall|]. simpl. intros r [? _]. lia. }
        { constructor; [exact Hhere|]. eapply Forall_impl; [exact Hall|].
          simpl. intros r [Hr (items0 & Hl & Hs)]. split; [lia|].
          exists items0. split; [|done].
          replace (Z.to_nat (page r - i)) with (S (Z.to_nat (page r - (i + 1)))) by lia.
          done. }
        intros _. rewrite <- app_assoc in Hlen. apply Hlen.
        apply Z.ltb_ge in Hcap. lia.
    + destruct (IH (i + 1) results) as (new & Heq & Hsorted & Hall & Hlen).
      exists new. split_and!; [done..| |done].
      eapply Forall_impl; [exact Hall|].
      simpl. intros r [Hr (items0 & Hl & Hs)]. split; [lia|].
      exists items0. split; [|done].
      replace (Z.to_nat (page r - i)) with (S (Z.to_nat (page r - (i + 1)))) by lia.
      done.
Qed.

(** The search returns at most 51 results, in strictly ascending page
    order, each the snippet of an existing page. *)
Lemma search_bound_order pages q :
  (length (search pages q) ≤ 51)%nat
  ∧ StronglySorted Z.lt (map page (search pages q))
  ∧ Forall (λ r, ∃ items, pages !! Z.to_nat (page r - 1) = Some items
                   ∧ 1 ≤ page r
                   ∧ searchPage (pageText items) q = Some (text r))
      (search pages q).
Proof.
  unfold search.
  destruct (searchLoop_spec pages 1 q []) as (new & -> & Hsorted & Hall & Hlen).
  simpl in *. split_and!; [apply Hlen; lia|done|].
  eapply Forall_impl; [exact Hall|]. simpl. intros r [? (items & ? & ?)].
  exists items. split_and!; [done|lia|done].
Qed.

(** C1. On a document of 51 pages that all contain the query the search
    returns 51 results, one more than the cap of 50: the loop tests
    [results.length > 50] after the push. *)
Theorem search_returns_51_results :
  length (search fiftyOnePages "ocean") = 51%nat
  ∧ map page (search fiftyOnePages "ocean") = map Z.of_nat (seq 1 51)
  ∧ length (searchResults
              (handleSearch
                 (setSearchQuery "ocean"
                    (setCurrentBookData (Some (Pdf fiftyOnePages))
                       (libraryAB ∅))))) = 51%nat.
Proof. vm_compute. done. Qed.

(* ------------------------------------------------------------------ *)
(** ** Deleting a document *)
(* ------------------------------------------------------------------ *)

(** C2. For every document [D] of the library, a confirmed
    [deleteBook (id D)]: when the blob delete succeeds, removes the blob of
    [D], every record with the id of [D] and every note of [D], and keeps
    the other blobs, records and notes; when the blob delete fails, leaves
    the records, the notes and the blobs as they were. *)
Theorem deleteBook_cascade (st : State) (D : Book) :
  D ∈ books st →
  let st' := deleteBook (Book.id D) true st in
  (Book.id D ∉ faulty (idb st) →
     getBookData (Book.id D) (idb st') = None
     ∧ (D ∉ books st')
     ∧ (∀ b, b ∈ books st' ↔ b ∈ books st ∧ Book.id b ≠ Book.id D)
     ∧ (∀ n, n ∈ notes st' ↔ n ∈ notes st ∧ Note.bookId n ≠ Book.id D)
     ∧ (∀ k, k ≠ Book.id D → getBookData k (idb st') = getBookData k (idb st))
     ∧ categories st' = categories st)
  ∧ (Book.id D ∈ faulty (idb st) →
       books st' = books st
       ∧ notes st' = notes st
       ∧ categories st' = categories st
       ∧ idb st' = idb st
       ∧ toast st' = Some (mkToast "Erro ao excluir livro." ToastType.error)).
Proof.
  intros HD. cbv zeta. unfold deleteBook, deleteBookData, getBookData.
  destruct (decide (Book.id D ∈ faulty (idb st))) as [Hf|Hf].
  - split; [done|]. intros _. done.
  - split; [|done]. intros _.
    assert (Hgoal :
      delete (Book.id D) (blobs (idb st)) !! Book.id D = None
      ∧ (D ∉ filter (λ b, Book.id b ≠ Book.id D) (books st))
      ∧ (∀ b, b ∈ filter (λ b, Book.id b ≠ Book.id D) (books st)
              ↔ b ∈ books st ∧ Book.id b ≠ Book.id D)
      ∧ (∀ n, n ∈ filter (λ n, Note.bookId n ≠ Book.id D) (notes st)
              ↔ n ∈ notes st ∧ Note.bookId n ≠ Book.id D)
      ∧ (∀ k, k ≠ Book.id D →
              delete (Book.id D) (blobs (idb st)) !! k = blobs (idb st) !! k)
      ∧ categories st = categories st).
    { split_and!.
      + apply lookup_delete_eq.
      + rewrite list_elem_of_filter. tauto.
      + intros b. rewrite list_elem_of_filter. tauto.
      + intros n. rewrite list_elem_of_filter. tauto.
      + intros k Hk. by apply lookup_delete_ne.
      + done. }
    destruct (currentBook st) as [cb|];
      [destruct (bool_decide (Book.id cb = Book.id D))|]; exact Hgoal.
Qed.

Lemma deleteBook_cascade_witness :
  bookA ∈ books (libraryAB ∅)
  ∧ ltac:(match type of (deleteBook_cascade (libraryAB ∅) bookA) with
          | _ → ?C => exact C
          end).
Proof.
  split; [|apply (deleteBook_cascade (libraryAB ∅) bookA)];
    apply list_elem_of_here.
Defined.

Example deleteBook_ex :
  let st' := deleteBook "a" true (libraryAB ∅) in
  books st' = [bookB] ∧ notes st' = [noteB]
  ∧ getBookData "a" (idb st') = None
  ∧ getBookData "b" (idb st') = Some (Pdf [["beta"]]).
Proof. vm_compute. done. Qed.

(* ------------------------------------------------------------------ *)
(** ** Batch delete *)
(* ------------------------------------------------------------------ *)

Lemma lookup_foldl_delete (ids : list string) (m : gmap string PdfData) k :
  foldl (λ m id, delete id m) m ids !! k = if decide (k ∈ ids) then None else m !! k.
Proof.
  revert m. induction ids as [|id ids IH]; intros m; cbn [foldl].
  - by rewrite decide_False by apply not_elem_of_nil.
  - rewrite IH. destruct (decide (k ∈ ids)) as [Hin|Hin].
    + by rewrite decide_True by by right.
    + destruct (decide (k = id)) as [->|Hne].
      * rewrite decide_True by by left. apply lookup_delete_eq.
      * rewrite decide_False by (rewrite elem_of_cons; tauto).
        by apply lookup_delete_ne.
Qed.

Lemma batchDeleteLoop_ok ids bks names db :
  Forall (λ id, id ∉ faulty db) ids →
  batchDeleteLoop ids bks names db
  = (Some (names ++ selectedTitles ids bks),
     mkIDB (foldl (λ m id, delete id m) (blobs db) ids) (faulty db)).
Proof.
  revert names db. induction ids as [|id ids IH]; intros names db Hok; simpl.
  - rewrite app_nil_r. by destruct db.
  - apply Forall_cons in Hok as [Hid Hok]. unfold deleteBookData.
    rewrite decide_False by done. rewrite IH by done. simpl.
    unfold selectedTitles. simpl.
    destruct (List.find (hasId id) bks); simpl; [|done].
    by rewrite <- app_assoc.
Qed.

Lemma batchDeleteLoop_fail ids bks names db :
  Exists (λ id, id ∈ faulty db) ids →
  (batchDeleteLoop ids bks names db).1 = None.
Proof.
  revert names db. induction ids as [|id ids IH]; intros names db Hex; simpl.
  - by apply Exists_nil in Hex.
  - unfold deleteBookData. destruct (decide (id ∈ faulty db)) as [Hf|Hf]; [done|].
    apply Exists_cons in Hex as [Hex|Hex]; [done|]. by apply IH.
Qed.

(** C3, as stated, fails: with both documents selected and the store
    rejecting the delete of "a", the document "b" is not removed either. *)
Lemma batchDelete_failure_blocks_others :
  let st := selectedAB {["a"]} in
  let st' := executeBatchDelete st in
  "b" ∈ booksToDelete st
  ∧ ("b" ∉ faulty (idb st))
  ∧ bookB ∈ books st'
  ∧ noteB ∈ notes st'
  ∧ getBookData "b" (idb st') = Some (Pdf [["beta"]])
  ∧ toast st' = Some (mkToast "Erro ao excluir alguns livros." ToastType.error).
Proof.
  cbv zeta. split_and!.
  - apply list_elem_of_further, list_elem_of_here.
  - simpl. by apply not_elem_of_singleton.
  - vm_compute. apply list_elem_of_further, list_elem_of_here.
  - vm_compute. apply list_elem_of_further, list_elem_of_here.
  - by vm_compute.
  - by vm_compute.
Qed.

(** C3, amended. For every non-empty selection: if no blob delete fails,
    every selected id loses its blob, its records and its notes, all other
    records, notes and blobs stay, the selection is cleared and the notice
    shows the titles of the selected documents (the first two, and the
    number of the others); if a blob delete fails, no record and no note is
    removed, the selection stays and an error is reported. *)
Theorem executeBatchDelete_all_or_error (st : State) :
  booksToDelete st ≠ [] →
  let st' := executeBatchDelete st in
  ((∀ id, id ∈ booksToDelete st → id ∉ faulty (idb st)) →
     (∀ b, b ∈ books st' ↔ b ∈ books st ∧ Book.id b ∉ booksToDelete st)
     ∧ (∀ n, n ∈ notes st' ↔ n ∈ notes st ∧ Note.bookId n ∉ booksToDelete st)
     ∧ (∀ id, id ∈ booksToDelete st → getBookData id (idb st') = None)
     ∧ (∀ k, k ∉ booksToDelete st →
            getBookData k (idb st') = getBookData k (idb st))
     ∧ booksToDelete st' = []
     ∧ toast st'
       = Some (mkToast
                 ("Livro(s) excluído(s) com sucesso! "
                  +:+ namesStr (selectedTitles (booksToDelete st) (books st))
                  +:+ ". Não estarão mais disponíveis nesta sessão.")
                 ToastType.success))
  ∧ ((∃ id, id ∈ booksToDelete st ∧ id ∈ faulty (idb st)) →
       books st' = books st
       ∧ notes st' = notes st
       ∧ booksToDelete st' = booksToDelete st
       ∧ toast st' = Some (mkToast "Erro ao excluir alguns livros." ToastType.error)).
Proof.
  intros Hne. cbv zeta. unfold executeBatchDelete.
  destruct (booksToDelete st) as [|id0 ids] eqn:Hsel; [done|]. split.
  - intros Hok. rewrite batchDeleteLoop_ok by (by apply Forall_forall).
    assert (Hgoal : ∀ st2,
      books st2 = books st → notes st2 = notes st →
      idb st2 = mkIDB (foldl (λ m id, delete id m) (blobs (idb st)) (id0 :: ids))
                  (faulty (idb st)) →
      (∀ b, b ∈ filter (λ b, Book.id b ∉ id0 :: ids) (books st2)
            ↔ b ∈ books st ∧ Book.id b ∉ id0 :: ids)
      ∧ (∀ n, n ∈ filter (λ n, Note.bookId n ∉ id0 :: ids) (notes st2)
              ↔ n ∈ notes st ∧ Note.bookId n ∉ id0 :: ids)
      ∧ (∀ id, id ∈ id0 :: ids → getBookData id (idb st2) = None)
      ∧ (∀ k, k ∉ id0 :: ids → getBookData k (idb st2) = getBookData k (idb st))).
    { intros st2 Hb Hn Hi. rewrite Hb, Hn, Hi. unfold getBookData.
      cbn [blobs]. split_and!.
      - intros b. rewrite list_elem_of_filter. tauto.
      - intros n. rewrite list_elem_of_filter. tauto.
      - intros id Hid. rewrite lookup_foldl_delete. by rewrite decide_True.
      - intros k Hk. rewrite lookup_foldl_delete. by rewrite decide_False. }
    destruct (currentBook st) as [cb|];
      [destruct (decide (Book.id cb ∈ id0 :: ids))|];
      (edestruct Hgoal as (H1 & H2 & H3 & H4);
       [..|split_and!; [exact H1|exact H2|exact H3|exact H4|done|done]]); done.
  - intros (id & Hid & Hf).
    pose proof (batchDeleteLoop_fail (id0 :: ids) (books st) [] (idb st)) as Hfail.
    destruct (batchDeleteLoop (id0 :: ids) (books st) [] (idb st)) as [[names|] db].
    + exfalso. assert (Some names = None); [|done].
      apply Hfail. apply Exists_exists. eauto.
    + simpl. by rewrite Hsel.
Qed.

Lemma executeBatchDelete_all_or_error_witness :
  booksToDelete (selectedAB ∅) ≠ []
  ∧ ltac:(match type of (executeBatchDelete_all_or_error (selectedAB ∅)) with
          | _ → ?C => exact C
          end).
Proof.
  split; [|apply (executeBatchDelete_all_or_error (selectedAB ∅))];
    discriminate.
Defined.

Example executeBatchDelete_ex :
  let st' := executeBatchDelete (selectedAB ∅) in
  books st' = [] ∧ notes st' = []
  ∧ getBookData "a" (idb st') = None ∧ getBookData "b" (idb st') = None
  ∧ toast st'
    = Some (mkToast
              "Livro(s) excluído(s) com sucesso! Alpha, Beta. Não estarão mais disponíveis nesta sessão."
              ToastType.success).
Proof. vm_compute. done. Qed.

(** When the second delete is rejected, the blob of the first document is
    gone while its record and its notes remain. *)
Example executeBatchDelete_second_fails :
  let st' := executeBatchDelete (selectedAB {["b"]}) in
  books st' = [bookA; bookB] ∧ notes st' = [noteA; noteB]
  ∧ getBookData "a" (idb st') = None
  ∧ getBookData "b" (idb st') = Some (Pdf [["beta"]]).
Proof. vm_compute. done. Qed.

(* ------------------------------------------------------------------ *)
(** ** Upload *)
(* ------------------------------------------------------------------ *)








Example handleFileUpload_ex :
  let st' := handleFileUpload [fileC; fileTxt; fileD] (libraryAB ∅) in
  map Book.id (books st') = ["a"; "b"; "c"; "d"]
  ∧ map Book.title (books st') = ["Alpha"; "Beta"; "Gamma"; "Delta"]
  ∧ getBookData "d" (idb st') = Some (Pdf [["delta"]])
  ∧ getBookData "t" (idb st') = None
  ∧ toast st'
    = Some (mkToast "2 livro(s) adicionado(s) à biblioteca." ToastType.success).
Proof. vm_compute. done. Qed.

(* ------------------------------------------------------------------ *)
(** ** Deleting a category *)
(* ------------------------------------------------------------------ *)

(** C6. For every category [C] of the library, a confirmed
    [deleteCategory (id C)] removes the categories with the id of [C] and no
    other, deletes and adds no document, clears [category] on the documents
    that referenced [C] and leaves their other fields unchanged, leaves the
    other documents as they were, and touches neither the notes nor the
    blobs. *)
Theorem deleteCategory_nulls_out (st : State) (C : Category) :
  C ∈ categories st →
  let id := Category.id C in
  let st' := deleteCategory id true st in
  (C ∉ categories st')
  ∧ (∀ c, c ∈ categories st' ↔ c ∈ categories st ∧ Category.id c ≠ id)
  ∧ length (books st') = length (books st)
  ∧ (∀ (i : nat) b, books st !! i = Some b →
       ∃ b', books st' !! i = Some b'
         ∧ Book.id b' = Book.id b
         ∧ Book.title b' = Book.title b
         ∧ Book.author b' = Book.author b
         ∧ Book.uploadDate b' = Book.uploadDate b
         ∧ Book.totalPages b' = Book.totalPages b
         ∧ Book.currentPage b' = Book.currentPage b
         ∧ Book.status b' = Book.status b
         ∧ Book.rating b' = Book.rating b
         ∧ (Book.category b = Some id → Book.category b' = None)
         ∧ (Book.category b ≠ Some id → b' = b))
  ∧ Forall (λ b', Book.category b' ≠ Some id) (books st')
  ∧ notes st' = notes st
  ∧ idb st' = idb st.
Proof.
  intros HC. cbv zeta. unfold deleteCategory. simpl. split_and!.
  - rewrite list_elem_of_filter. tauto.
  - intros c. rewrite list_elem_of_filter. tauto.
  - by rewrite length_map.
  - intros i b Hi. rewrite list_lookup_fmap, Hi. simpl.
    eexists. split; [reflexivity|].
    destruct (decide (Book.category b = Some (Category.id C))) as [Hc|Hc].
    + rewrite bool_decide_eq_true_2 by done. simpl. split_and!; done.
    + rewrite bool_decide_eq_false_2 by done. split_and!; done.
  - apply Forall_fmap, Forall_forall. intros b _. simpl.
    destruct (decide (Book.category b = Some (Category.id C))) as [Hc|Hc].
    + by rewrite bool_decide_eq_true_2 by done.
    + by rewrite bool_decide_eq_false_2 by done.
  - done.
  - done.
Qed.

Lemma deleteCategory_nulls_out_witness :
  sciFi ∈ categories (libraryAB ∅)
  ∧ ltac:(match type of (deleteCategory_nulls_out (libraryAB ∅) sciFi) with
          | _ → ?C => exact C
          end).
Proof.
  split; [|apply (deleteCategory_nulls_out (libraryAB ∅) sciFi)];
    apply list_elem_of_here.
Defined.

Example deleteCategory_ex :
  let st' := deleteCategory "c1" true (libraryAB ∅) in
  categories st' = []
  ∧ books st'
    = [bookA;
       Book.mk "b" "Beta" "Desconhecido" 20 7 3 (Some BookStatus.paused) None (Some 4)].
Proof. vm_compute. done. Qed.

(* ------------------------------------------------------------------ *)
(** ** Status transitions *)
(* ------------------------------------------------------------------ *)

Lemma keepsStatusOf_same bks b : b ∈ bks → keepsStatusOf bks b.
Proof. intros Hb. by exists b. Qed.

Lemma keepsStatusOf_filter (P : Book → Prop) `{!∀ b, Decision (P b)} bks b' :
  b' ∈ filter P bks → keepsStatusOf bks b'.
Proof. intros Hb%list_elem_of_filter. apply keepsStatusOf_same. tauto. Qed.

Lemma keepsStatusOf_map (f : Book → Book) bks b' :
  (∀ b, Book.id (f b) = Book.id b ∧ Book.title (f b) = Book.title b
        ∧ Book.uploadDate (f b) = Book.uploadDate b
        ∧ Book.status (f b) = Book.status b) →
  b' ∈ map f bks → keepsStatusOf bks b'.
Proof.
  intros Hf (b & -> & Hb)%list_elem_of_fmap. exists b. split; [done|]. apply Hf.
Qed.

Lemma uploadLoop_books files newBooks db l :
  (uploadLoop files newBooks db).1 = Some l →
  ∀ b, b ∈ l → b ∈ newBooks ∨ ∃ f, f ∈ files ∧ b = newBookOf f.
Proof.
  revert newBooks db. induction files as [|f files IH]; intros newBooks db; simpl.
  - intros [= <-] b Hb. by left.
  - destruct (bool_decide (File.type f = "application/pdf")); simpl.
    + destruct (saveBookData (File.uuid f) (File.arrayBuffer f) db) as [db'|];
        [|done].
      intros Hl b Hb. destruct (IH _ _ Hl b Hb) as [Hin|(g & Hg & ->)].
      * apply elem_of_app in Hin as [Hin|Hin]; [by left|].
        apply list_elem_of_singleton in Hin as ->. right. exists f.
        split; [by left|done].
      * right. exists g. split; [by right|done].
    + intros Hl b Hb. destruct (IH _ _ Hl b Hb) as [Hin|(g & Hg & ->)];
        [by left|].
      right. exists g. split; [by right|done].
Qed.

(** Every event other than a user edit and an open keeps the status of
    every record it keeps; the records it adds are those of an upload. *)
Lemma step_keeps_status a st b' :
  isUserEdit a = false → isOpen a = false →
  b' ∈ books (step a st) →
  keepsStatusOf (books st) b'
  ∨ ∃ files f, a = HandleFileUpload files ∧ f ∈ files ∧ b' = newBookOf f.
Proof.
  intros Hedit Hopen.
  destruct a; try discriminate; simpl;
    try (intros Hb; left; by apply keepsStatusOf_same).
  - (* handleFileUpload *)
    unfold handleFileUpload. destruct files as [|f0 files];
      [intros Hb; left; by apply keepsStatusOf_same|].
    pose proof (uploadLoop_books (f0 :: files) [] (idb st)) as Hloop.
    destruct (uploadLoop (f0 :: files) [] (idb st)) as [[newBooks|] db]; simpl.
    + intros [Hb|Hb]%elem_of_app; [left; by apply keepsStatusOf_same|].
      destruct (Hloop newBooks eq_refl b' Hb) as [Hin|(f & Hf & ->)];
        [by apply elem_of_nil in Hin|].
      right. by exists (f0 :: files), f.
    + intros Hb; left; by apply keepsStatusOf_same.
  - (* deleteBook *)
    unfold deleteBook. destruct confirmed; simpl;
      [|intros Hb; left; by apply keepsStatusOf_same].
    destruct (deleteBookData id (idb st));
      [|intros Hb; left; by apply keepsStatusOf_same].
    intros Hb. left.
    destruct (currentBook st) as [cb|];
      [destruct (bool_decide (Book.id cb = id))|];
      exact (keepsStatusOf_filter _ _ _ Hb).
  - (* toggleBookForDeletion *)
    unfold toggleBookForDeletion. destruct (decide (id ∈ booksToDelete st));
      intros Hb; left; by apply keepsStatusOf_same.
  - (* toggleAllForDeletion *)
    unfold toggleAllForDeletion.
    destruct (bool_decide (length (booksToDelete st) = length (books st)));
      intros Hb; left; by apply keepsStatusOf_same.
  - (* executeBatchDelete *)
    unfold executeBatchDelete. destruct (booksToDelete st) as [|id0 ids];
      [intros Hb; left; by apply keepsStatusOf_same|].
    destruct (batchDeleteLoop (id0 :: ids) (books st) [] (idb st)) as [[names|] db];
      [|intros Hb; left; by apply keepsStatusOf_same].
    intros Hb. left.
    destruct (currentBook st) as [cb|];
      [destruct (decide (Book.id cb ∈ id0 :: ids))|];
      exact (keepsStatusOf_filter _ _ _ Hb).
  - (* closeBook *)
    unfold closeBook. destruct (currentBook st) as [cb|]; simpl;
      [|intros Hb; left; by apply keepsStatusOf_same].
    intros Hb. left. eapply keepsStatusOf_map; [|exact Hb].
    intros b. simpl. by destruct (hasId (Book.id cb) b).
  - (* saveNote *)
    unfold saveNote. destruct (currentBook st) as [cb|];
      [destruct (negb (truthyStr (noteText st)) && negb (truthyStr (selection st)))|];
      intros Hb; left; by apply keepsStatusOf_same.
  - (* onDocumentLoadSuccess *)
    unfold onDocumentLoadSuccess. destruct (currentBook st) as [cb|];
      [destruct (Book.totalPages cb =? 0)|]; simpl;
      try (intros Hb; left; by apply keepsStatusOf_same).
    intros Hb. left. eapply keepsStatusOf_map; [|exact Hb].
    intros b. simpl. by destruct (hasId (Book.id cb) b).
  - (* handleSelection *)
    unfold handleSelection. destruct (truthyStr sel);
      intros Hb; left; by apply keepsStatusOf_same.
  - (* handleSearch *)
    unfold handleSearch. destruct (currentBookData st) as [[|pages]|];
      try destruct (negb (truthyStr (trim (searchQuery st))));
      intros Hb; left; by apply keepsStatusOf_same.
  - (* addCategory *)
    unfold addCategory. destruct (negb (truthyStr (trim (newCategoryName st))));
      intros Hb; left; by apply keepsStatusOf_same.
  - (* deleteCategory *)
    unfold deleteCategory. destruct confirmed; simpl;
      [|intros Hb; left; by apply keepsStatusOf_same].
    intros Hb. left. eapply keepsStatusOf_map; [|exact Hb].
    intros b. simpl. by destruct (bool_decide (Book.category b = Some id)).
Qed.

(** C9. Opening a document of the library whose payload is stored shows
    the reader; if its status is queued, the stored record becomes active;
    opening with any other status leaves the records as they were; and every
    event other than an open and a direct edit keeps the status of every
    record it keeps (the records an upload adds are new). *)
Theorem open_is_the_only_automatic_status_change :
  (∀ st book targetPage highlightText data,
     book ∈ books st →
     getBookData (Book.id book) (idb st) = Some data →
     let st' := openBook book targetPage highlightText st in
     view st' = READER
     ∧ currentBookData st' = Some data
     ∧ (Book.status book = Some BookStatus.next →
          withStatus BookStatus.reading book ∈ books st'
          ∧ books st'
            = map (λ b, if decide (Book.id b = Book.id book)
                        then withStatus BookStatus.reading b else b) (books st)))
  ∧ (∀ st book targetPage highlightText,
       Book.status book ≠ Some BookStatus.next →
       books (openBook book targetPage highlightText st) = books st)
  ∧ (∀ a st b',
       isUserEdit a = false → isOpen a = false →
       b' ∈ books (step a st) →
       keepsStatusOf (books st) b'
       ∨ ∃ files f, a = HandleFileUpload files ∧ f ∈ files ∧ b' = newBookOf f).
Proof.
  split_and!.
  - intros st book targetPage highlightText data Hin Hdata. cbv zeta.
    unfold openBook. rewrite Hdata.
    destruct (List.find (hasId (Book.id book)) (books st)) as [found|] eqn:Hfind.
    2:{ exfalso. pose proof (find_none _ _ Hfind book) as Hnone.
        unfold hasId in Hnone. rewrite bool_decide_eq_true_2 in Hnone by done.
        discriminate Hnone. by apply list_elem_of_In. }
    assert (Hmap :
      map (λ b, if hasId (Book.id book) b
                then spread b (PartialBook.mk None None None None None None
                                 (Some (Some BookStatus.reading)) None None)
                else b) (books st)
      = map (λ b, if decide (Book.id b = Book.id book)
                  then withStatus BookStatus.reading b else b) (books st)).
    { apply map_ext. intros b. unfold hasId.
      destruct (decide (Book.id b = Book.id book)) as [Heq|Hne].
      - by rewrite bool_decide_eq_true_2.
      - by rewrite bool_decide_eq_false_2. }
    destruct (bool_decide (Book.status book = Some BookStatus.next)) eqn:Hst.
    + apply bool_decide_eq_true_1 in Hst. unfold updateBookMetadataIn.
      assert (Hres : ∀ st1 : State,
        view st1 = READER → currentBookData st1 = Some data →
        books st1 = map (λ b, if decide (Book.id b = Book.id book)
                              then withStatus BookStatus.reading b else b) (books st) →
        view st1 = READER ∧ currentBookData st1 = Some data
        ∧ (Book.status book = Some BookStatus.next →
             withStatus BookStatus.reading book ∈ books st1
             ∧ books st1
               = map (λ b, if decide (Book.id b = Book.id book)
                           then withStatus BookStatus.reading b else b) (books st))).
      { intros st1 Hv Hd Hb. split_and!; [done..|]. intros _. split; [|done].
        rewrite Hb. apply list_elem_of_fmap. exists book.
        by rewrite decide_True. }
      destruct (currentBook st) as [cb|];
        [destruct (bool_decide (Book.id cb = Book.id book))|];
        apply Hres; simpl; done.
    + apply bool_decide_eq_false_1 in Hst. simpl. split_and!; done.
  - intros st book targetPage highlightText Hst. unfold openBook.
    destruct (List.find (hasId (Book.id book)) (books st)); [|done].
    destruct (getBookData (Book.id book) (idb st)); [|done].
    by rewrite bool_decide_eq_false_2.
  - apply step_keeps_status.
Qed.

Example openBook_ex :
  let st' := openBook bookA None None (libraryAB ∅) in
  books st' = [withStatus BookStatus.reading bookA; bookB]
  ∧ currentBook st' = Some bookA
  ∧ pageNumber st' = 1
  ∧ books (openBook bookB None None (libraryAB ∅)) = [bookA; bookB].
Proof. vm_compute. done. Qed.

(* ------------------------------------------------------------------ *)
(** ** Progress write-back *)
(* ------------------------------------------------------------------ *)

(** What one [closeBook] does to the records: the current page of the open
    document is written back, its page count is replaced by [numPages] when
    that is positive and kept otherwise, so a positive count never becomes
    0; the other records stay. *)
Lemma closeBook_writes_back st cb :
  currentBook st = Some cb →
  let st' := closeBook st in
  currentBook st' = None
  ∧ length (books st') = length (books st)
  ∧ ∀ (i : nat) b, books st !! i = Some b →
      ∃ b', books st' !! i = Some b'
        ∧ (Book.id b ≠ Book.id cb → b' = b)
        ∧ (Book.id b = Book.id cb →
             Book.currentPage b' = pageNumber st
             ∧ (0 < numPages st → Book.totalPages b' = numPages st)
             ∧ (numPages st ≤ 0 → Book.totalPages b' = Book.totalPages b)
             ∧ (0 < Book.totalPages b → 0 < Book.totalPages b')
             ∧ Book.status b' = Book.status b
             ∧ Book.category b' = Book.category b
             ∧ Book.rating b' = Book.rating b).
Proof.
  intros Hcb. cbv zeta. unfold closeBook. rewrite Hcb. simpl.
  split_and!; [done|by rewrite length_map|].
  intros i b Hi. rewrite list_lookup_fmap, Hi. simpl. eexists. split; [done|].
  unfold hasId. destruct (decide (Book.id b = Book.id cb)) as [Heq|Hne].
  - rewrite bool_decide_eq_true_2 by done. split; [done|]. intros _. simpl.
    destruct (Z.ltb_spec 0 (numPages st)); split_and!; (done || lia).
  - rewrite bool_decide_eq_false_2 by done. split; [done|]. done.
Qed.

(** What a load success does: it records the page count, and writes it to
    the records of the open document when the page count of the copy held in
    [currentBook] is 0. *)
Lemma onDocumentLoadSuccess_backfill st n :
  let st' := onDocumentLoadSuccess n st in
  numPages st' = n
  ∧ (∀ cb, currentBook st = Some cb → Book.totalPages cb ≠ 0 →
       books st' = books st)
  ∧ (currentBook st = None → books st' = books st)
  ∧ (∀ cb, currentBook st = Some cb → Book.totalPages cb = 0 →
       ∀ (i : nat) b, books st !! i = Some b →
         ∃ b', books st' !! i = Some b'
           ∧ (Book.id b ≠ Book.id cb → b' = b)
           ∧ (Book.id b = Book.id cb →
                Book.totalPages b' = n ∧ Book.currentPage b' = Book.currentPage b
                ∧ Book.status b' = Book.status b)).
Proof.
  cbv zeta. unfold onDocumentLoadSuccess. split_and!.
  - destruct (currentBook st) as [cb|]; [|done].
    by destruct (Book.totalPages cb =? 0).
  - intros cb -> Hne. by rewrite (proj2 (Z.eqb_neq _ _) Hne).
  - by intros ->.
  - intros cb -> ->. simpl. intros i b Hi. rewrite list_lookup_fmap, Hi. simpl.
    eexists. split; [done|]. unfold hasId.
    destruct (decide (Book.id b = Book.id cb)) as [Heq|Hne].
    + rewrite bool_decide_eq_true_2 by done. done.
    + rewrite bool_decide_eq_false_2 by done. done.
Qed.

(** C10. [numPages] survives from one session to the next: closing the
    second document, for which the renderer reported nothing, replaces its
    stored page count (7) by the page count of the first document (100). *)
Theorem closeBook_writes_stale_page_count :
  let st := libraryAB ∅ in
  let st' := run twoSessions st in
  bookB ∈ books (run (take 3 twoSessions) st)
  ∧ numPages (run (take 4 twoSessions) st) = 100
  ∧ Book.totalPages <$> List.find (hasId "b") (books st) = Some 7
  ∧ Book.totalPages <$> List.find (hasId "b") (books st') = Some 100.
Proof.
  cbv zeta. split_and!.
  - vm_compute. apply list_elem_of_further, list_elem_of_here.
  - by vm_compute.
  - by vm_compute.
  - by vm_compute.
Qed.

(* ------------------------------------------------------------------ *)
(** ** Sorting and grouping *)
(* ------------------------------------------------------------------ *)

Lemma insertSorted_perm {A} (cmp : A → A → Z) x l :
  insertSorted cmp x l ≡ₚ x :: l.
Proof.
  induction l as [|y l IH]; simpl; [done|].
  destruct (cmp x y <=? 0); [done|]. rewrite IH. apply Permutation_swap.
Qed.

Lemma sortBy_perm {A} (cmp : A → A → Z) l : sortBy cmp l ≡ₚ l.
Proof.
  unfold sortBy. induction l as [|x l IH]; simpl; [done|].
  by rewrite insertSorted_perm, IH.
Qed.

Lemma flatten_cons k arr (g : Groups) : flatten ((k, arr) :: g) = arr ++ flatten g.
Proof. done. Qed.

Lemma flatten_app (g1 g2 : Groups) : flatten (g1 ++ g2) = flatten g1 ++ flatten g2.
Proof. unfold flatten. by rewrite map_app, concat_app. Qed.

Lemma flatten_perm (g1 g2 : Groups) : g1 ≡ₚ g2 → flatten g1 ≡ₚ flatten g2.
Proof.
  induction 1 as [|[k arr] g1 g2 _ IH|[k1 a1] [k2 a2] g|g1 g2 g3 _ IH1 _ IH2].
  - done.
  - rewrite !flatten_cons. by rewrite IH.
  - rewrite !flatten_cons, !app_assoc. f_equiv. apply Permutation_app_comm.
  - by rewrite IH1.
Qed.

Lemma pushOwn_keys key book (g : Groups) : map fst (pushOwn key book g) = map fst g.
Proof.
  induction g as [|[k arr] g IH]; simpl; [done|].
  destruct (bool_decide (k = key)); simpl; [done|]. by rewrite IH.
Qed.

Lemma pushOwn_flatten key book (g : Groups) :
  key ∈ map fst g → flatten (pushOwn key book g) ≡ₚ flatten g ++ [book].
Proof.
  induction g as [|[k arr] g IH]; simpl; [by intros ?%elem_of_nil|].
  intros Hin. destruct (decide (k = key)) as [->|Hne].
  - rewrite bool_decide_eq_true_2 by done. rewrite !flatten_cons.
    rewrite <- !app_assoc. f_equiv. apply Permutation_app_comm.
  - rewrite bool_decide_eq_false_2 by done. rewrite !flatten_cons.
    apply elem_of_cons in Hin as [?|Hin]; [done|].
    by rewrite IH, app_assoc.
Qed.

Lemma pushOwn_buckets (keyOf : Book → string) book (g : Groups) :
  Forall (bucketOf keyOf) g →
  Forall (bucketOf keyOf) (pushOwn (keyOf book) book g).
Proof.
  induction g as [|[k arr] g IH]; simpl; [constructor|].
  intros [[Hne Hk] Hall]%Forall_cons. simpl in *.
  destruct (decide (k = keyOf book)) as [->|Hneq].
  - rewrite bool_decide_eq_true_2 by done. constructor; [|done].
    split; simpl; [by destruct arr|].
    apply Forall_app. split; [done|by constructor].
  - rewrite bool_decide_eq_false_2 by done. constructor; [done|by apply IH].
Qed.

Lemma pushOwn_fresh key book (g : Groups) :
  key ∉ map fst g → pushOwn key book (g ++ [(key, [])]) = g ++ [(key, [book])].
Proof.
  induction g as [|[k arr] g IH]; simpl.
  - intros _. by rewrite bool_decide_eq_true_2.
  - intros Hnotin. apply not_elem_of_cons in Hnotin as [Hne Hnotin].
    rewrite bool_decide_eq_false_2 by done. by rewrite IH.
Qed.

(** One round of the [forEach] body, for a key that is not inherited. *)
Lemma addToGroups_ok (keyOf : Book → string) book (g : Groups) :
  keyOf book ∉ objectPrototypeKeys →
  NoDup (map fst g) → Forall (bucketOf keyOf) g →
  ∃ g', addToGroups (keyOf book) book g = Some g'
        ∧ flatten g' ≡ₚ flatten g ++ [book]
        ∧ NoDup (map fst g')
        ∧ Forall (bucketOf keyOf) g'.
Proof.
  intros Hproto Hnd Hall. unfold addToGroups, hasOwn.
  destruct (decide (keyOf book ∈ map fst g)) as [Hin|Hnotin].
  - rewrite bool_decide_eq_true_2 by done. eexists. split; [done|].
    split_and!.
    + by apply pushOwn_flatten.
    + by rewrite pushOwn_keys.
    + by apply pushOwn_buckets.
  - rewrite bool_decide_eq_false_2 by done.
    rewrite bool_decide_eq_false_2 by done.
    rewrite pushOwn_fresh by done. eexists. split; [done|]. split_and!.
    + by rewrite flatten_app.
    + rewrite map_app. simpl. apply NoDup_app. split_and!; [done| |].
      * intros k Hk ->%list_elem_of_singleton. done.
      * apply NoDup_singleton.
    + apply Forall_app. split; [done|]. repeat constructor; done.
Qed.

(** The whole [forEach], started from the groups [g]. *)
Lemma forEach_ok (keyOf : Book → string) books (g : Groups) :
  (∀ b, keyOf b ∉ objectPrototypeKeys) →
  NoDup (map fst g) → Forall (bucketOf keyOf) g →
  ∃ g', foldl (λ groups book, groups ≫= addToGroups (keyOf book) book)
          (Some g) books = Some g'
        ∧ flatten g' ≡ₚ flatten g ++ books
        ∧ NoDup (map fst g')
        ∧ Forall (bucketOf keyOf) g'.
Proof.
  intros Hproto. revert g. induction books as [|b books IH]; intros g Hnd Hall.
  - exists g. by rewrite app_nil_r.
  - cbn [foldl mbind option_bind].
    destruct (addToGroups_ok keyOf b g (Hproto b) Hnd Hall)
      as (g1 & -> & Hp1 & Hnd1 & Hall1).
    destruct (IH g1 Hnd1 Hall1) as (g' & -> & Hp & Hnd' & Hall').
    exists g'. split_and!; [done| |done..].
    rewrite Hp, Hp1. by rewrite <- app_assoc.
Qed.

Lemma objectEntries_perm (g : Groups) : objectEntries g ≡ₚ g.
Proof.
  unfold objectEntries. rewrite sortBy_perm.
  assert (Hidx : map snd (omap (λ kv, (λ n, (n, kv)) <$> arrayIndex kv.1) g)
                 = filter (λ kv, ¬ arrayIndex kv.1 = None) g).
  { induction g as [|kv g IH]; [done|]. cbn [omap list_omap].
    destruct (arrayIndex kv.1) eqn:Hi.
    - rewrite filter_cons_True by (by rewrite Hi). cbn [fmap option_fmap option_map map].
      by rewrite <- IH.
    - rewrite filter_cons_False by (rewrite Hi; tauto). done. }
  rewrite Hidx. rewrite (Permutation_app_comm _ _).
  apply filter_app_complement.
Qed.

Lemma hasSpace_app s t : hasSpace (s +:+ t) = hasSpace s || hasSpace t.
Proof.
  induction s as [|c s IH]; [done|].
  rewrite sapp_cons. simpl. by rewrite IH, orb_assoc.
Qed.

Lemma objectPrototypeKeys_no_space k :
  k ∈ objectPrototypeKeys → hasSpace k = false.
Proof.
  revert k. apply Forall_forall. unfold objectPrototypeKeys.
  repeat constructor.
Qed.

Ltac not_inherited :=
  let H := fresh in
  intros H; unfold objectPrototypeKeys in H;
  repeat (apply elem_of_cons in H as [H|H]; [discriminate H|]);
  by apply elem_of_nil in H.

(** The keys of the status and rating groupings are never inherited; those
    of the category grouping are the names of the categories. *)
Lemma groupKey_not_inherited mode cats b :
  (mode = GroupingMode.category →
   ∀ c, c ∈ cats → Category.name c ∉ objectPrototypeKeys) →
  groupKey mode cats b ∉ objectPrototypeKeys.
Proof.
  intros Hcats. destruct mode; simpl.
  - not_inherited.
  - destruct (List.find _ cats) as [cat|] eqn:Hfind; [|not_inherited].
    apply find_some in Hfind as [Hcat%list_elem_of_In _]. by apply Hcats.
  - destruct (Book.status b) as [[]|]; simpl; not_inherited.
  - destruct (Book.rating b) as [r|]; [|not_inherited].
    destruct (r =? 0); [not_inherited|].
    intros Hin%objectPrototypeKeys_no_space.
    rewrite hasSpace_app in Hin. simpl in Hin. by rewrite orb_true_r in Hin.
Qed.

(** Where no category is named like an inherited property (or another
    grouping is chosen), [arrange] returns buckets with distinct labels, the
    buckets flattened in order hold exactly the documents given, every
    bucket of a grouping is non-empty and holds the documents of its key,
    and without grouping there is the single bucket of all documents. *)
Lemma arrange_partition localeCompare books categories groupingMode sortMode :
  (groupingMode = GroupingMode.category →
   ∀ c, c ∈ categories → Category.name c ∉ objectPrototypeKeys) →
  ∃ buckets,
    arrange localeCompare books categories groupingMode sortMode = Some buckets
    ∧ flatten buckets ≡ₚ books
    ∧ length (flatten buckets) = length books
    ∧ NoDup (map fst buckets)
    ∧ (groupingMode = GroupingMode.none →
         buckets = [("Todos", sortBooks localeCompare sortMode books)])
    ∧ (groupingMode ≠ GroupingMode.none →
         Forall (bucketOf (groupKey groupingMode categories)) buckets).
Proof.
  intros Hcats. unfold arrange.
  assert (Hnone : objectEntries [("Todos", sortBooks localeCompare sortMode books)]
                  = [("Todos", sortBooks localeCompare sortMode books)]) by done.
  assert (Hgrouped : groupingMode ≠ GroupingMode.none →
    ∃ g, getGroupedBooks groupingMode categories
           (sortBooks localeCompare sortMode books) = Some g
         ∧ flatten g ≡ₚ books ∧ NoDup (map fst g)
         ∧ Forall (bucketOf (groupKey groupingMode categories)) g).
  { intros Hmode.
    destruct (forEach_ok (groupKey groupingMode categories)
                (sortBooks localeCompare sortMode books) [])
      as (g & Hg & Hp & Hnd & Hall);
      [intros b; by apply groupKey_not_inherited|constructor|constructor|].
    exists g. split_and!; [by destruct groupingMode| |done..].
    rewrite Hp. simpl. apply sortBy_perm. }
  destruct (decide (groupingMode = GroupingMode.none)) as [->|Hmode].
  - simpl. rewrite Hnone. eexists. split; [done|].
    assert (Hp : flatten [("Todos", sortBooks localeCompare sortMode books)] ≡ₚ books).
    { unfold flatten. simpl. rewrite app_nil_r. apply sortBy_perm. }
    split_and!; [done|by rewrite Hp| |done|done].
    simpl. apply NoDup_singleton.
  - destruct (Hgrouped Hmode) as (g & -> & Hp & Hnd & Hall). simpl.
    exists (objectEntries g).
    pose proof (objectEntries_perm g) as Hperm.
    assert (Hp' : flatten (objectEntries g) ≡ₚ books)
      by (by rewrite (flatten_perm _ _ Hperm)).
    split_and!; [done|done|by rewrite Hp'| |done|].
    + by rewrite Hperm.
    + intros _. by rewrite Hperm.
Qed.

(** C5. With a category named "constructor" in use, grouping by category
    returns no buckets: the key is inherited from [Object.prototype], so no
    array is created for it and the [push] throws. *)
Theorem arrange_throws_on_inherited_key :
  Category.name constructorCategory = trim "constructor"
  ∧ arrange codeUnitCompare [bookA; bookC] [sciFi; constructorCategory]
      GroupingMode.category SortMode.recent = None
  ∧ ∀ sortMode,
      arrange codeUnitCompare [bookA; bookC] [sciFi; constructorCategory]
        GroupingMode.none sortMode
      = Some [("Todos", sortBooks codeUnitCompare sortMode [bookA; bookC])].
Proof. split_and!; [done|by vm_compute|done]. Qed.

(* ================================================================== *)
(** * Further properties *)
(* ================================================================== *)

(* ------------------------------------------------------------------ *)
(** ** Search *)
(* ------------------------------------------------------------------ *)

Lemma searchLoop_take pages i q results :
  (length results ≤ 50)%nat →
  searchLoop pages i q results
  = results ++ take (51 - length results) (allMatches pages i q).
Proof.
  revert i results. induction pages as [|items pages IH]; intros i results Hlen.
  - simpl. by rewrite take_nil, app_nil_r.
  - simpl. destruct (searchPage (pageText items) q) as [snippet|]; [|by apply IH].
    rewrite length_app. simpl.
    destruct (Z.ltb_spec 50 (Z.of_nat (length results + 1))) as [Hcap|Hcap].
    + replace (51 - length results)%nat with 1%nat by lia. done.
    + rewrite IH by (rewrite length_app; simpl; lia).
      rewrite length_app. simpl. rewrite <- app_assoc. simpl.
      replace (51 - length results)%nat with (S (51 - (length results + 1))) by lia.
      done.
Qed.

Lemma elem_of_allMatches pages i q r :
  r ∈ allMatches pages i q
  ↔ ∃ items, i ≤ page r
      ∧ pages !! Z.to_nat (page r - i) = Some items
      ∧ searchPage (pageText items) q = Some (text r).
Proof.
  revert i. induction pages as [|items pages IH]; intros i.
  - simpl. split; [by intros ?%elem_of_nil|]. by intros (? & _ & ? & _).
  - assert (Hrest : r ∈ allMatches pages (i + 1) q
              ↔ ∃ items0, i < page r
                  ∧ (items :: pages) !! Z.to_nat (page r - i) = Some items0
                  ∧ searchPage (pageText items0) q = Some (text r)).
    { rewrite IH. split; intros (items0 & Hi & Hl & Hs); exists items0.
      - split; [lia|]. split; [|done].
        replace (Z.to_nat (page r - i)) with (S (Z.to_nat (page r - (i + 1)))) by lia.
        done.
      - split; [lia|]. split; [|done].
        replace (Z.to_nat (page r - i)) with (S (Z.to_nat (page r - (i + 1))))
          in Hl by lia.
        done. }
    assert (Hhead : ∀ items0, page r = i →
              (items :: pages) !! Z.to_nat (page r - i) = Some items0 →
              items0 = items).
    { intros items0 ->. rewrite Z.sub_diag. simpl. congruence. }
    simpl. destruct (searchPage (pageText items) q) as [snippet|] eqn:Hp.
    + rewrite elem_of_cons, Hrest. split.
      * intros [->|(items0 & ? & ? & ?)].
        -- exists items. simpl. rewrite Z.sub_diag. split; [lia|done].
        -- exists items0. split; [lia|done].
      * intros (items0 & Hi & Hl & Hs).
        destruct (decide (page r = i)) as [Heq|Hne].
        -- left. rewrite (Hhead _ Heq Hl) in Hs. destruct r as [pg tx].
           simpl in *. congruence.
        -- right. exists items0. split; [lia|done].
    + rewrite Hrest. split.
      * intros (items0 & ? & ? & ?). exists items0. split; [lia|done].
      * intros (items0 & Hi & Hl & Hs).
        destruct (decide (page r = i)) as [Heq|Hne].
        -- rewrite (Hhead _ Heq Hl) in Hs. congruence.
        -- exists items0. split; [lia|done].
Qed.

(** X2. The search returns the results of the first 51 matching pages, in
    page order: a page is among the matches exactly when its text contains
    the query (case folded), its result carries its snippet, and when at
    most 51 pages match every one of them is returned. *)
Theorem search_first_matches (pages : list (list string)) (q : string) :
  search pages q = take 51 (allMatches pages 1 q)
  ∧ (∀ r, r ∈ allMatches pages 1 q
          ↔ ∃ items, 1 ≤ page r
              ∧ pages !! Z.to_nat (page r - 1) = Some items
              ∧ searchPage (pageText items) q = Some (text r))
  ∧ ((length (allMatches pages 1 q) ≤ 51)%nat →
       search pages q = allMatches pages 1 q).
Proof.
  assert (Hs : search pages q = take 51 (allMatches pages 1 q)).
  { unfold search. rewrite searchLoop_take by (simpl; lia). done. }
  split_and!; [done|apply elem_of_allMatches|].
  intros Hlen. rewrite Hs. by apply take_ge.
Qed.




(* ------------------------------------------------------------------ *)
(** ** The normalizer and the highlight pass *)
(* ------------------------------------------------------------------ *)

Lemma lowerChar_ws c : isWhiteSpace (lowerChar c) = isWhiteSpace c.
Proof. destruct c as [[] [] [] [] [] [] [] []]; reflexivity. Qed.

Lemma lowerChar_idem c : lowerChar (lowerChar c) = lowerChar c.
Proof. destruct c as [[] [] [] [] [] [] [] []]; reflexivity. Qed.

Lemma lowerChar_of_ws c : isWhiteSpace c = true → lowerChar c = c.
Proof. destruct c as [[] [] [] [] [] [] [] []]; (reflexivity || discriminate). Qed.

Lemma toLowerCase_idem s : toLowerCase (toLowerCase s) = toLowerCase s.
Proof. induction s as [|c s IH]; simpl; [done|]. by rewrite lowerChar_idem, IH. Qed.

Lemma toLowerCase_trimStart s :
  trimStart (toLowerCase s) = toLowerCase (trimStart s).
Proof.
  induction s as [|c s IH]; simpl; [done|]. rewrite lowerChar_ws.
  by destruct (isWhiteSpace c).
Qed.

Lemma toLowerCase_trimEnd s : trimEnd (toLowerCase s) = toLowerCase (trimEnd s).
Proof.
  induction s as [|c s IH]; simpl; [done|]. rewrite IH, lowerChar_ws.
  destruct (trimEnd s); simpl; [|done]. by destruct (isWhiteSpace c).
Qed.

Lemma toLowerCase_replaceWsRuns b s :
  replaceWsRuns b (toLowerCase s) = toLowerCase (replaceWsRuns b s).
Proof.
  revert b. induction s as [|c s IH]; intros b; simpl; [done|].
  rewrite lowerChar_ws. destruct (isWhiteSpace c); [|by rewrite IH].
  destruct b; simpl; by rewrite IH.
Qed.

Lemma headNonWs_trimStart s : headNonWs (trimStart s) = true.
Proof.
  induction s as [|c s IH]; simpl; [done|].
  destruct (isWhiteSpace c) eqn:Hc; [done|]. simpl. by rewrite Hc.
Qed.

Lemma trimStart_fixed s : headNonWs s = true → trimStart s = s.
Proof. destruct s as [|c s]; simpl; [done|]. by destruct (isWhiteSpace c). Qed.

Lemma headNonWs_trimEnd s : headNonWs s = true → headNonWs (trimEnd s) = true.
Proof.
  destruct s as [|c s]; simpl; [done|]. intros Hc.
  destruct (trimEnd s); [|exact Hc]. destruct (isWhiteSpace c) eqn:E; simpl in *; by rewrite ?E.
Qed.

Lemma trimEnd_cons c r :
  trimEnd (String c r)
  = match trimEnd r with
    | EmptyString => if isWhiteSpace c then EmptyString else String c EmptyString
    | r' => String c r'
    end.
Proof. done. Qed.

Lemma trimEnd_idem s : trimEnd (trimEnd s) = trimEnd s.
Proof.
  induction s as [|c s IH]; [done|]. rewrite trimEnd_cons.
  destruct (trimEnd s) as [|d r] eqn:Hr.
  - destruct (isWhiteSpace c) eqn:Hc; [done|]. rewrite trimEnd_cons. simpl.
    by rewrite Hc.
  - by rewrite trimEnd_cons, IH.
Qed.

Lemma trim_idem s : trim (trim s) = trim s.
Proof.
  unfold trim.
  rewrite (trimStart_fixed (trimEnd (trimStart s)))
    by apply headNonWs_trimEnd, headNonWs_trimStart.
  apply trimEnd_idem.
Qed.

Lemma collapsed_replaceWsRuns b s : collapsed b (replaceWsRuns b s) = true.
Proof.
  revert b. induction s as [|c s IH]; intros b; simpl; [done|].
  destruct (isWhiteSpace c) eqn:Hc.
  - destruct b; [apply IH|]. simpl. apply IH.
  - simpl. rewrite Hc. apply IH.
Qed.

Lemma collapsed_weaken b s : collapsed b s = true → collapsed false s = true.
Proof.
  destruct s as [|c s]; simpl; [done|]. destruct (isWhiteSpace c); [|done].
  rewrite !andb_true_iff. tauto.
Qed.

Lemma collapsed_trimStart b s :
  collapsed b s = true → collapsed true (trimStart s) = true.
Proof.
  revert b. induction s as [|c s IH]; intros b; simpl; [done|].
  destruct (isWhiteSpace c) eqn:Hc.
  - rewrite !andb_true_iff. intros [_ H]. by apply (IH true).
  - intros H. simpl. by rewrite Hc.
Qed.

Lemma collapsed_trimEnd b s :
  collapsed b s = true → collapsed b (trimEnd s) = true.
Proof.
  revert b. induction s as [|c s IH]; intros b; simpl; [done|].
  destruct (isWhiteSpace c) eqn:Hc.
  - rewrite !andb_true_iff. intros [[Hsp Hb] H]. apply IH in H.
    destruct (trimEnd s); [done|]. simpl. rewrite Hc, Hsp, Hb. done.
  - intros H. apply IH in H. destruct (trimEnd s); simpl; by rewrite Hc.
Qed.

Lemma replaceWsRuns_fixed b s : collapsed b s = true → replaceWsRuns b s = s.
Proof.
  revert b. induction s as [|c s IH]; intros b; simpl; [done|].
  destruct (isWhiteSpace c).
  - rewrite !andb_true_iff. intros [[Hsp Hb] H].
    apply Ascii.eqb_eq in Hsp as ->. destruct b; [done|].
    by rewrite (IH true).
  - intros H. by rewrite (IH false).
Qed.

(** X4. The output of the normalizer is a fixed point of each of its three
    steps (it holds no white-space run and no white space but single spaces,
    nothing to trim, no capital), so normalizing twice is normalizing
    once. *)
Theorem normalize_fixed_point (s : string) :
  normalize (normalize s) = normalize s
  ∧ replaceWsRuns false (normalize s) = normalize s
  ∧ trim (normalize s) = normalize s
  ∧ toLowerCase (normalize s) = normalize s.
Proof.
  assert (Hr : replaceWsRuns false (normalize s) = normalize s).
  { unfold normalize. rewrite toLowerCase_replaceWsRuns. f_equal.
    apply replaceWsRuns_fixed. unfold trim.
    apply (collapsed_weaken true), collapsed_trimEnd,
      (collapsed_trimStart false), collapsed_replaceWsRuns. }
  assert (Ht : trim (normalize s) = normalize s).
  { unfold normalize. unfold trim at 1.
    rewrite toLowerCase_trimStart, toLowerCase_trimEnd. f_equal.
    apply trim_idem. }
  assert (Hl : toLowerCase (normalize s) = normalize s)
    by apply toLowerCase_idem.
  split_and!; [|done..]. unfold normalize at 1. by rewrite Hr, Ht, Hl.
Qed.

Lemma spanMatches_short_target h span :
  strlen (normalize h) ≤ 3 → spanMatches (normalize h) span = false.
Proof.
  intros Hlen. destruct (spanMatches (normalize h) span) eqn:Hm; [|done].
  apply spanMatches_iff in Hm as [[Htok Hsub]|[Htgt _]]; [|lia].
  apply isSubstringOf_length in Hsub. lia.
Qed.

(** X5. A highlight text of normalized length at most 3 marks nothing, in
    any view: the spans stay as they are and nothing is found (so, for
    instance, a search for a three-letter word never highlights its
    results). *)
Theorem highlight_short_target (h : string) (view : ViewState)
    (spans : list Span) :
  strlen (normalize h) ≤ 3 →
  highlightEffect (Some h) view spans = (spans, false).
Proof.
  intros Hlen. unfold highlightEffect.
  destruct (truthyStr h && bool_decide (view = READER)); [|done].
  unfold highlightPass. f_equal.
  - induction spans as [|sp spans IH]; [done|]. simpl.
    by rewrite spanMatches_short_target, IH.
  - induction spans as [|sp spans IH]; [done|]. simpl.
    by rewrite spanMatches_short_target.
Qed.

Lemma highlight_short_target_witness :
  strlen (normalize " Cat ") ≤ 3
  ∧ highlightEffect (Some " Cat ") READER
      [mkSpan "concatenate" false; mkSpan "cat" false]
    = ([mkSpan "concatenate" false; mkSpan "cat" false], false).
Proof.
  split; [vm_compute; discriminate|].
  apply (highlight_short_target " Cat " READER). vm_compute. discriminate.
Defined.

(** X6. The pass reports [found] exactly when some span satisfies the
    marking rule; when nothing is found the spans are untouched; and a
    second pass over the marked spans changes nothing. *)
Theorem highlightPass_found_idempotent (h : string) (spans : list Span) :
  ((highlightPass h spans).2 = true
   ↔ ∃ span, span ∈ spans ∧ shouldMark h (textContent span))
  ∧ ((highlightPass h spans).2 = false → (highlightPass h spans).1 = spans)
  ∧ highlightPass h (highlightPass h spans).1 = highlightPass h spans.
Proof.
  unfold highlightPass. simpl. split_and!.
  - rewrite existsb_exists. split.
    + intros (span & Hin%list_elem_of_In & Hm). exists span.
      split; [done|]. by apply spanMatches_iff.
    + intros (span & Hin & Hm). exists span.
      split; [by apply list_elem_of_In|]. by apply spanMatches_iff.
  - intros Hnone. induction spans as [|sp spans IH]; [done|].
    simpl in *. apply orb_false_iff in Hnone as [Hsp Hrest].
    rewrite Hsp. by rewrite IH.
  - assert (Hkeep : ∀ sp,
      spanMatches (normalize h)
        (if spanMatches (normalize h) sp then mkSpan (textContent sp) true else sp)
      = spanMatches (normalize h) sp).
    { intros sp. by destruct (spanMatches (normalize h) sp) eqn:Hm. }
    f_equal.
    + rewrite map_map. apply map_ext. intros sp. rewrite Hkeep.
      by destruct (spanMatches (normalize h) sp).
    + induction spans as [|sp spans IH]; [done|]. simpl. by rewrite Hkeep, IH.
Qed.

(* ------------------------------------------------------------------ *)
(** ** Sorting *)
(* ------------------------------------------------------------------ *)

Lemma StronglySorted_weaken {A} (R R' : A → A → Prop) l :
  (∀ x y, R x y → R' x y) → StronglySorted R l → StronglySorted R' l.
Proof.
  intros HR. induction 1 as [|x l Hsorted IH Hall]; constructor; [done|].
  eapply Forall_impl; [exact Hall|]. apply HR.
Qed.

Section SortBy.

Context {A : Type} (cmp : A → A → Z).

(** A list already in order is left as it is. *)
Lemma sortBy_fixed l :
  StronglySorted (λ x y, cmp x y ≤ 0) l → sortBy cmp l = l.
Proof.
  induction 1 as [|x l Hsorted IH Hall]; [done|].
  unfold sortBy in *. simpl. rewrite IH. destruct l as [|y l]; [done|].
  simpl. apply Forall_cons in Hall as [Hxy _].
  by rewrite (proj2 (Z.leb_le _ _) Hxy).
Qed.

Hypothesis cmp_total : ∀ x y, 0 < cmp x y → cmp y x ≤ 0.
Hypothesis cmp_trans : ∀ x y z, cmp x y ≤ 0 → cmp y z ≤ 0 → cmp x z ≤ 0.

Lemma insertSorted_sorted x l :
  StronglySorted (λ x y, cmp x y ≤ 0) l →
  StronglySorted (λ x y, cmp x y ≤ 0) (insertSorted cmp x l).
Proof.
  induction 1 as [|y l Hsorted IH Hall]; simpl; [repeat constructor|].
  destruct (Z.leb_spec (cmp x y) 0) as [Hxy|Hxy].
  - constructor; [by constructor|]. constructor; [done|].
    eapply Forall_impl; [exact Hall|]. simpl. intros z Hyz. by eapply cmp_trans.
  - constructor; [done|]. rewrite insertSorted_perm.
    constructor; [by apply cmp_total|done].
Qed.

Lemma sortBy_sorted l : StronglySorted (λ x y, cmp x y ≤ 0) (sortBy cmp l).
Proof.
  unfold sortBy. induction l as [|x l IH]; simpl; [constructor|].
  by apply insertSorted_sorted.
Qed.

End SortBy.

(** Sorting by a number keeps, among the elements of one number, the order
    they came in. *)
Lemma sortBy_key_stable {A} (key : A → Z) (l : list A) (v : Z) :
  filter (λ y, key y = v) (sortBy (λ a b, key a - key b) l)
  = filter (λ y, key y = v) l.
Proof.
  assert (Hins : ∀ x l,
    filter (λ y, key y = v) (insertSorted (λ a b, key a - key b) x l)
    = filter (λ y, key y = v) (x :: l)).
  { intros x l0. induction l0 as [|y l0 IH]; simpl; [done|].
    destruct (Z.leb_spec (key x - key y) 0) as [Hxy|Hxy]; [done|].
    rewrite (filter_cons _ y), IH, !(filter_cons _ x), (filter_cons _ y).
    destruct (decide (key y = v)), (decide (key x = v)); (done || lia). }
  unfold sortBy. induction l as [|x l IH]; [done|]. simpl.
  by rewrite Hins, !(filter_cons _ x), IH.
Qed.

Lemma sortBy_key_sorted {A} (key : A → Z) (l : list A) :
  StronglySorted (λ x y, key x ≤ key y) (sortBy (λ a b, key a - key b) l).
Proof.
  eapply StronglySorted_weaken;
    [|apply (sortBy_sorted (λ a b, key a - key b)); simpl; intros; lia].
  simpl. intros; lia.
Qed.

Lemma compareBooks_by_key localeCompare sortMode a b :
  sortMode ≠ SortMode.completed →
  compareBooks localeCompare sortMode a b
  = - sortKey sortMode a - - sortKey sortMode b.
Proof.
  assert (Hor : ∀ x, orZ x 0 = x) by (intros x; unfold orZ; by destruct (Z.eqb_spec x 0)).
  destruct sortMode; simpl; rewrite ?Hor; intros; (done || lia).
Qed.

(** X7. In the modes recent, rating, progress and pages the sorted list is
    in descending order of the mode's number, documents with the same number
    keep the order they had (the sort is stable), and sorting the result
    again changes nothing. *)
Theorem sortBooks_descending_stable (localeCompare : string → string → Z)
    (sortMode : SortMode) (l : list Book) :
  sortMode ≠ SortMode.completed →
  StronglySorted (λ a b, sortKey sortMode b ≤ sortKey sortMode a)
    (sortBooks localeCompare sortMode l)
  ∧ (∀ v, filter (λ b, sortKey sortMode b = v) (sortBooks localeCompare sortMode l)
          = filter (λ b, sortKey sortMode b = v) l)
  ∧ sortBooks localeCompare sortMode (sortBooks localeCompare sortMode l)
    = sortBooks localeCompare sortMode l.
Proof.
  intros Hmode.
  assert (Heq : ∀ l0, sortBooks localeCompare sortMode l0
                      = sortBy (λ a b, - sortKey sortMode a - - sortKey sortMode b) l0).
  { intros l0. unfold sortBooks, sortBy.
    induction l0 as [|x l0 IH]; [done|]. simpl. rewrite IH.
    generalize (foldr (insertSorted (λ a b, - sortKey sortMode a - - sortKey sortMode b))
                  [] l0).
    intros l1. induction l1 as [|y l1 IH1]; [done|]. simpl.
    rewrite compareBooks_by_key by done. by rewrite IH1. }
  assert (Hsorted : StronglySorted (λ a b, sortKey sortMode b ≤ sortKey sortMode a)
                      (sortBooks localeCompare sortMode l)).
  { rewrite Heq. eapply StronglySorted_weaken;
      [|apply (sortBy_key_sorted (λ b, - sortKey sortMode b))].
    simpl. intros; lia. }
  split_and!; [done| |].
  - intros v. rewrite Heq.
    pose proof (sortBy_key_stable (λ b, - sortKey sortMode b) l (- v)) as Hst.
    rewrite <- (list_filter_iff (λ b, - sortKey sortMode b = - v)
                 (λ b, sortKey sortMode b = v)) by (intros; lia).
    rewrite <- (list_filter_iff (λ b, - sortKey sortMode b = - v)
                 (λ b, sortKey sortMode b = v) l) by (intros; lia).
    exact Hst.
  - rewrite (Heq (sortBooks _ _ _)). apply sortBy_fixed.
    eapply StronglySorted_weaken; [|exact Hsorted]. simpl. intros; lia.
Qed.

Lemma sortBooks_descending_stable_witness :
  SortMode.rating ≠ SortMode.completed
  ∧ ltac:(match type of (sortBooks_descending_stable codeUnitCompare
                           SortMode.rating [bookA; bookB; bookC]) with
          | _ → ?C => exact C
          end).
Proof.
  split; [|apply (sortBooks_descending_stable codeUnitCompare SortMode.rating
                    [bookA; bookB; bookC])];
    discriminate.
Defined.

Example sortBooks_rating_ex :
  sortBooks codeUnitCompare SortMode.rating [bookA; bookB; bookC]
  = [bookB; bookA; bookC].
Proof. vm_compute. done. Qed.

(** X8. In the mode completed, for a host comparison of titles that is a
    consistent order (total and transitive), the finished documents come
    first and, within the finished and within the others, the titles
    ascend; sorting the result again changes nothing. *)
Theorem sortBooks_completed_first (localeCompare : string → string → Z)
    (l : list Book) :
  (∀ x y, 0 < localeCompare x y → localeCompare y x ≤ 0) →
  (∀ x y z, localeCompare x y ≤ 0 → localeCompare y z ≤ 0 →
            localeCompare x z ≤ 0) →
  StronglySorted
    (λ a b, sortKey SortMode.completed b < sortKey SortMode.completed a
            ∨ (sortKey SortMode.completed a = sortKey SortMode.completed b
               ∧ localeCompare (Book.title a) (Book.title b) ≤ 0))
    (sortBooks localeCompare SortMode.completed l)
  ∧ sortBooks localeCompare SortMode.completed
      (sortBooks localeCompare SortMode.completed l)
    = sortBooks localeCompare SortMode.completed l.
Proof.
  intros Htotal Htrans.
  assert (Hcmp : ∀ a b,
    compareBooks localeCompare SortMode.completed a b
    = if negb (sortKey SortMode.completed a =? sortKey SortMode.completed b)
      then sortKey SortMode.completed b - sortKey SortMode.completed a
      else localeCompare (Book.title a) (Book.title b)) by done.
  assert (Hkey : ∀ b, sortKey SortMode.completed b = 0
                      ∨ sortKey SortMode.completed b = 1).
  { intros b. simpl. destruct (bool_decide _); auto. }
  assert (Hsorted : StronglySorted
            (λ x y, compareBooks localeCompare SortMode.completed x y ≤ 0)
            (sortBooks localeCompare SortMode.completed l)).
  { apply sortBy_sorted.
    - intros x y. rewrite !Hcmp.
      destruct (Z.eqb_spec (sortKey SortMode.completed x)
                  (sortKey SortMode.completed y)) as [Heq|Hne];
        destruct (Z.eqb_spec (sortKey SortMode.completed y)
                    (sortKey SortMode.completed x)); cbn [negb]; try lia.
      apply Htotal.
    - intros x y z. rewrite !Hcmp.
      destruct (Hkey x), (Hkey y), (Hkey z);
        destruct (Z.eqb_spec (sortKey SortMode.completed x)
                    (sortKey SortMode.completed y));
        destruct (Z.eqb_spec (sortKey SortMode.completed y)
                    (sortKey SortMode.completed z));
        destruct (Z.eqb_spec (sortKey SortMode.completed x)
                    (sortKey SortMode.completed z)); cbn [negb]; try lia;
        apply Htrans. }
  split.
  - eapply StronglySorted_weaken; [|exact Hsorted]. intros a b. cbv beta.
    rewrite Hcmp.
    destruct (Z.eqb_spec (sortKey SortMode.completed a)
                (sortKey SortMode.completed b)); cbn [negb]; [tauto|lia].
  - by apply sortBy_fixed.
Qed.

Lemma sortBooks_completed_first_witness :
  (∀ x y, 0 < lengthCompare x y → lengthCompare y x ≤ 0)
  ∧ (∀ x y z, lengthCompare x y ≤ 0 → lengthCompare y z ≤ 0 →
              lengthCompare x z ≤ 0)
  ∧ ltac:(match type of (sortBooks_completed_first lengthCompare
                           [bookA; bookB; bookC]) with
          | _ → _ → ?C => exact C
          end).
Proof.
  split; [unfold lengthCompare; intros; lia|].
  split; [unfold lengthCompare; intros; lia|].
  apply (sortBooks_completed_first lengthCompare [bookA; bookB; bookC]);
    unfold lengthCompare; intros; lia.
Defined.

(* ------------------------------------------------------------------ *)
(** ** The lists of notes *)
(* ------------------------------------------------------------------ *)

(** X9. The notes handed to the export, which are also the list of the
    notes view, are exactly the notes of the selected document, in ascending
    page order, notes of one page in the order of the note list (most recent
    first); and the export reports success only for a selected document of
    the library that has a note, changing nothing but the notice. *)
Theorem export_notes_by_page (sel : string) (st : State) :
  StronglySorted (λ a b, Note.pageNumber a ≤ Note.pageNumber b) (bookNotes sel st)
  ∧ (∀ n, n ∈ bookNotes sel st ↔ n ∈ notes st ∧ Note.bookId n = sel)
  ∧ bookNotes sel st ≡ₚ filter (λ n, Note.bookId n = sel) (notes st)
  ∧ (∀ v, filter (λ n, Note.pageNumber n = v) (bookNotes sel st)
          = filter (λ n, Note.pageNumber n = v)
              (filter (λ n, Note.bookId n = sel) (notes st)))
  ∧ handleExportNotes None st = st
  ∧ ((sel = "" ∨ ∀ b, b ∈ books st → Book.id b ≠ sel) →
       handleExportNotes (Some sel) st = st)
  ∧ (sel ≠ "" → (∃ b, b ∈ books st ∧ Book.id b = sel) →
       handleExportNotes (Some sel) st
       = if decide (Exists (λ n, Note.bookId n = sel) (notes st))
         then showToast "Anotações exportadas com sucesso!" ToastType.success st
         else showToast "Não há anotações para exportar." ToastType.info st).
Proof.
  assert (Hperm : bookNotes sel st ≡ₚ filter (λ n, Note.bookId n = sel) (notes st))
    by apply sortBy_perm.
  assert (Hmem : ∀ n, n ∈ bookNotes sel st ↔ n ∈ notes st ∧ Note.bookId n = sel).
  { intros n. rewrite Hperm, list_elem_of_filter. tauto. }
  split_and!; [apply sortBy_key_sorted|done|done|apply sortBy_key_stable|done| |].
  - intros [->|Hnone]; [done|]. unfold handleExportNotes.
    destruct (truthyStr sel); [|done]. simpl.
    destruct (List.find (hasId sel) (books st)) as [b|] eqn:Hfind; [|done].
    apply find_some in Hfind as [Hin%list_elem_of_In Hid].
    apply bool_decide_eq_true_1 in Hid. by destruct (Hnone b Hin).
  - intros Hsel (b & Hb & Hid). unfold handleExportNotes.
    destruct sel as [|c sel]; [done|]. simpl.
    destruct (List.find _ (books st)) as [b0|] eqn:Hfind.
    2:{ pose proof (find_none _ _ Hfind b) as Hnone. unfold hasId in Hnone.
        rewrite bool_decide_eq_true_2 in Hnone by done.
        discriminate Hnone. by apply list_elem_of_In. }
    destruct (bookNotes (String c sel) st) as [|n ns] eqn:Hbn.
    + rewrite decide_False; [done|]. intros (n & Hn & Hnid)%Exists_exists.
      apply (elem_of_nil n), Hmem. done.
    + rewrite decide_True; [done|]. apply Exists_exists. exists n.
      apply Hmem. by left.
Qed.

Example bookNotes_ex :
  map Note.id (bookNotes "a" (setNotes threeNotes (libraryAB ∅)))
  = ["n2"; "n1"; "n3"].
Proof. vm_compute. done. Qed.

(** X10. The note panel of the reader lists exactly the notes of the open
    document, the most recent first, notes of one instant in the order of
    the note list; with no document open it lists nothing. *)
Theorem readerNotes_recent_first (st : State) :
  StronglySorted (λ a b, Note.createdAt b ≤ Note.createdAt a) (readerNotes st)
  ∧ (∀ n, n ∈ readerNotes st
          ↔ n ∈ notes st ∧ ∃ cb, currentBook st = Some cb
                                 ∧ Note.bookId n = Book.id cb)
  ∧ (∀ v, filter (λ n, Note.createdAt n = v) (readerNotes st)
          = filter (λ n, Note.createdAt n = v)
              (filter (λ n, Some (Note.bookId n) = Book.id <$> currentBook st)
                 (notes st)))
  ∧ (currentBook st = None → readerNotes st = []).
Proof.
  assert (Heq : readerNotes st
    = sortBy (λ a b, - Note.createdAt a - - Note.createdAt b)
        (filter (λ n, Some (Note.bookId n) = Book.id <$> currentBook st) (notes st))).
  { unfold readerNotes, sortBy.
    generalize (filter (λ n, Some (Note.bookId n) = Book.id <$> currentBook st)
                  (notes st)).
    intros l. induction l as [|x l IH]; [done|]. simpl. rewrite IH.
    generalize (foldr (insertSorted (λ a b, - Note.createdAt a - - Note.createdAt b))
                  [] l).
    intros l1. induction l1 as [|y l1 IH1]; [done|]. simpl. rewrite IH1.
    by replace (Note.createdAt y - Note.createdAt x)
      with (- Note.createdAt x - - Note.createdAt y) by lia. }
  split_and!.
  - rewrite Heq. eapply StronglySorted_weaken;
      [|apply (sortBy_key_sorted (λ n, - Note.createdAt n))].
    simpl. intros; lia.
  - intros n. unfold readerNotes. rewrite sortBy_perm, list_elem_of_filter.
    destruct (currentBook st) as [cb|]; simpl.
    + split.
      * intros [[= Hid] Hn]. split; [done|]. by exists cb.
      * intros [Hn (cb' & [= <-] & Hid)]. split; [by f_equal|done].
    + split; [by intros [? _]|]. by intros [_ (cb & ? & _)].
  - intros v. rewrite Heq.
    pose proof (sortBy_key_stable (λ n, - Note.createdAt n)
                  (filter (λ n, Some (Note.bookId n) = Book.id <$> currentBook st)
                     (notes st)) (- v)) as Hst.
    rewrite <- (list_filter_iff (λ n, - Note.createdAt n = - v)
                 (λ n, Note.createdAt n = v)) by (intros; lia).
    rewrite <- (list_filter_iff (λ n, - Note.createdAt n = - v)
                 (λ n, Note.createdAt n = v)
                 (filter (λ n, Some (Note.bookId n) = Book.id <$> currentBook st)
                    (notes st))) by (intros; lia).
    exact Hst.
  - intros Hnone. clear Heq. unfold readerNotes. rewrite Hnone. simpl.
    replace (filter (λ n, Some (Note.bookId n) = None) (notes st))
      with ([] : list Note); [done|].
    induction (notes st) as [|n ns IH]; [done|].
    by rewrite filter_cons_False by done.
Qed.

(* ------------------------------------------------------------------ *)
(** ** The buckets of the library view *)
(* ------------------------------------------------------------------ *)

Lemma arrange_partition_witness :
  (GroupingMode.category = GroupingMode.category →
   ∀ c, c ∈ [sciFi] → Category.name c ∉ objectPrototypeKeys)
  ∧ ltac:(match type of (arrange_partition codeUnitCompare [bookA; bookB; bookC]
                           [sciFi] GroupingMode.category SortMode.recent) with
          | _ → ?C => exact C
          end).
Proof.
  assert (H : GroupingMode.category = GroupingMode.category →
              ∀ c, c ∈ [sciFi] → Category.name c ∉ objectPrototypeKeys).
  { intros _ c ->%list_elem_of_singleton. simpl. not_inherited. }
  split; [exact H|].
  apply (arrange_partition codeUnitCompare [bookA; bookB; bookC] [sciFi]
           GroupingMode.category SortMode.recent H).
Defined.

Lemma pushOwn_Forall (P Q : string * list Book → Prop) key book (g : Groups) :
  NoDup (map fst g) →
  (∀ arr, P (key, arr) → Q (key, arr ++ [book])) →
  (∀ kv, kv.1 ≠ key → P kv → Q kv) →
  Forall P g → Forall Q (pushOwn key book g).
Proof.
  intros Hnd Hpush Hkeep. induction g as [|[k arr] g IH]; simpl; [constructor|].
  intros [Hhead Hall]%Forall_cons. apply NoDup_cons in Hnd as [Hnotin Hnd].
  destruct (decide (k = key)) as [->|Hne].
  - rewrite bool_decide_eq_true_2 by done. constructor; [by apply Hpush|].
    apply Forall_forall. intros [k' arr'] Hin. apply Hkeep.
    + simpl. intros ->. apply Hnotin. apply list_elem_of_fmap.
      by exists (key, arr').
    + by eapply Forall_forall in Hall.
  - rewrite bool_decide_eq_false_2 by done. constructor; [by apply Hkeep|].
    by apply IH.
Qed.

Lemma filter_none {A} (P : A → Prop) `{!∀ x, Decision (P x)} (l : list A) :
  (∀ x, x ∈ l → ¬ P x) → filter P l = [].
Proof.
  induction l as [|x l IH]; intros Hno; [done|].
  rewrite filter_cons_False by (apply Hno; by left).
  apply IH. intros y Hy. apply Hno. by right.
Qed.

Lemma addToGroups_filter (keyOf : Book → string) book processed (g : Groups) :
  keyOf book ∉ objectPrototypeKeys →
  bucketsOf keyOf processed g →
  ∃ g', addToGroups (keyOf book) book g = Some g'
        ∧ bucketsOf keyOf (processed ++ [book]) g'.
Proof.
  intros Hproto (Hnd & Hkeys & Hall). unfold addToGroups, hasOwn.
  assert (Hother : ∀ kv : string * list Book, kv.1 ≠ keyOf book →
    kv.2 ≠ [] ∧ kv.2 = filter (λ b, keyOf b = kv.1) processed →
    kv.2 ≠ [] ∧ kv.2 = filter (λ b, keyOf b = kv.1) (processed ++ [book])).
  { intros kv Hne [Hnil Heq]. split; [done|].
    rewrite filter_app, filter_cons_False by done.
    by rewrite filter_nil, app_nil_r. }
  destruct (decide (keyOf book ∈ map fst g)) as [Hin|Hnotin].
  - rewrite bool_decide_eq_true_2 by done. eexists. split; [done|].
    split_and!.
    + by rewrite pushOwn_keys.
    + intros b Hb. rewrite pushOwn_keys.
      apply elem_of_app in Hb as [Hb| ->%list_elem_of_singleton];
        [by apply Hkeys|done].
    + eapply pushOwn_Forall; [done| |exact Hother|exact Hall].
      intros arr [Hnil Heq]. simpl in *. split; [by destruct arr|].
      rewrite filter_app, filter_cons_True by done.
      by rewrite filter_nil, <- Heq.
  - rewrite bool_decide_eq_false_2 by done.
    rewrite bool_decide_eq_false_2 by done.
    rewrite pushOwn_fresh by done. eexists. split; [done|]. split_and!.
    + rewrite map_app. simpl. apply NoDup_app. split_and!; [done| |].
      * intros k Hk ->%list_elem_of_singleton. done.
      * apply NoDup_singleton.
    + intros b Hb. rewrite map_app. apply elem_of_app.
      apply elem_of_app in Hb as [Hb| ->%list_elem_of_singleton];
        [left; by apply Hkeys|right; by left].
    + apply Forall_app. split.
      * apply Forall_forall. intros kv Hkv. apply Hother.
        -- intros Heq. apply Hnotin. rewrite <- Heq.
           apply list_elem_of_fmap. by exists kv.
        -- by eapply Forall_forall in Hall.
      * constructor; [|constructor]. simpl. split; [done|].
        rewrite filter_app, filter_cons_True by done. rewrite filter_nil.
        rewrite (filter_none (λ b, keyOf b = keyOf book) processed); [done|].
        intros b Hb Heq. apply Hnotin. rewrite <- Heq. by apply Hkeys.
Qed.

Lemma forEach_filter (keyOf : Book → string) books processed (g : Groups) :
  (∀ b, keyOf b ∉ objectPrototypeKeys) →
  bucketsOf keyOf processed g →
  ∃ g', foldl (λ groups book, groups ≫= addToGroups (keyOf book) book)
          (Some g) books = Some g'
        ∧ bucketsOf keyOf (processed ++ books) g'.
Proof.
  intros Hproto. revert processed g.
  induction books as [|b books IH]; intros processed g Hinv.
  - exists g. by rewrite app_nil_r.
  - cbn [foldl mbind option_bind].
    destruct (addToGroups_filter keyOf b processed g (Hproto b) Hinv)
      as (g1 & -> & Hinv1).
    destruct (IH _ _ Hinv1) as (g' & -> & Hinv').
    exists g'. split; [done|]. by rewrite <- app_assoc in Hinv'.
Qed.

(** X12. Grouping does not sort again: where no category is named like an
    inherited property, every bucket of a grouping is the sorted list
    filtered by its label, in the order of the sort, and is not empty; and
    every document has its label among the buckets. *)
Theorem arrange_buckets_keep_sort_order (localeCompare : string → string → Z)
    (books : list Book) (categories : list Category)
    (groupingMode : GroupingMode) (sortMode : SortMode) :
  (groupingMode = GroupingMode.category →
   ∀ c, c ∈ categories → Category.name c ∉ objectPrototypeKeys) →
  groupingMode ≠ GroupingMode.none →
  ∃ buckets,
    arrange localeCompare books categories groupingMode sortMode = Some buckets
    ∧ (∀ label arr, (label, arr) ∈ buckets →
         arr ≠ []
         ∧ arr = filter (λ b, groupKey groupingMode categories b = label)
                   (sortBooks localeCompare sortMode books))
    ∧ (∀ b, b ∈ books → groupKey groupingMode categories b ∈ map fst buckets).
Proof.
  intros Hcats Hmode. unfold arrange.
  destruct (forEach_filter (groupKey groupingMode categories)
              (sortBooks localeCompare sortMode books) [] [])
    as (g & Hg & Hnd & Hkeys & Hall).
  { intros b. by apply groupKey_not_inherited. }
  { split_and!; [constructor|by intros ? ?%elem_of_nil|constructor]. }
  assert (Hgrouped : getGroupedBooks groupingMode categories
                       (sortBooks localeCompare sortMode books) = Some g)
    by (by destruct groupingMode).
  rewrite Hgrouped. simpl. exists (objectEntries g).
  pose proof (objectEntries_perm g) as Hperm. split_and!; [done| |].
  - intros label arr Hin. rewrite Hperm in Hin.
    eapply Forall_forall in Hall; [|exact Hin]. exact Hall.
  - intros b Hb. rewrite Hperm. apply Hkeys. simpl.
    unfold sortBooks. rewrite sortBy_perm. done.
Qed.

Lemma arrange_buckets_keep_sort_order_witness :
  (GroupingMode.status = GroupingMode.category →
   ∀ c, c ∈ [sciFi] → Category.name c ∉ objectPrototypeKeys)
  ∧ GroupingMode.status ≠ GroupingMode.none
  ∧ ltac:(match type of (arrange_buckets_keep_sort_order codeUnitCompare
                           [bookA; bookB; bookC] [sciFi] GroupingMode.status
                           SortMode.recent) with
          | _ → _ → ?C => exact C
          end).
Proof.
  split; [discriminate|]. split; [discriminate|].
  apply (arrange_buckets_keep_sort_order codeUnitCompare [bookA; bookB; bookC]
           [sciFi] GroupingMode.status SortMode.recent);
    discriminate.
Defined.

(* ------------------------------------------------------------------ *)
(** ** Invariants of the library *)
(* ------------------------------------------------------------------ *)

Lemma hasBook_map (f : Book → Book) bks id :
  (∀ b, Book.id (f b) = Book.id b) → hasBook bks id → hasBook (map f bks) id.
Proof.
  intros Hf (b & Hb & Hid). exists (f b). split; [|by rewrite Hf].
  apply list_elem_of_fmap. by exists b.
Qed.

Lemma hasBook_filter (P : Book → Prop) `{!∀ b, Decision (P b)} bks id :
  (∀ b, Book.id b = id → P b) → hasBook bks id → hasBook (filter P bks) id.
Proof.
  intros HP (b & Hb & Hid). exists b. split; [|done].
  apply list_elem_of_filter. split; [by apply HP|done].
Qed.

Lemma hasBook_app_l bks more id : hasBook bks id → hasBook (bks ++ more) id.
Proof. intros (b & Hb & Hid). exists b. split; [|done]. apply elem_of_app. by left. Qed.

Lemma hasBook_found bks id b :
  List.find (hasId id) bks = Some b → hasBook bks id.
Proof.
  intros [Hin%list_elem_of_In Hid]%find_some. exists b. split; [done|].
  by apply bool_decide_eq_true_1 in Hid.
Qed.

Lemma spread_keeps_id b updates :
  PartialBook.id updates = None → Book.id (spread b updates) = Book.id b.
Proof. intros Hid. unfold spread. simpl. by rewrite Hid. Qed.

(** Where the identifiers of the library are kept, no note is added and the
    open document stays or is closed, no orphan appears. *)
Lemma noOrphans_mono st st' :
  noOrphans st →
  (∀ id, hasBook (books st) id → hasBook (books st') id) →
  (∀ n, n ∈ notes st' → n ∈ notes st) →
  (currentBook st' = currentBook st ∨ currentBook st' = None) →
  noOrphans st'.
Proof.
  intros [Hnotes Hcur] Hbooks Hsub Hcb. split.
  - intros n Hn. by apply Hbooks, Hnotes, Hsub.
  - intros cb Hcb'. destruct Hcb as [Heq|Hnone]; [|congruence].
    apply Hbooks, Hcur. congruence.
Qed.

Lemma noOrphans_delete (P : string → Prop) `{!∀ id, Decision (P id)} st st' :
  noOrphans st →
  books st' = filter (λ b, ¬ P (Book.id b)) (books st) →
  notes st' = filter (λ n, ¬ P (Note.bookId n)) (notes st) →
  (∀ cb, currentBook st' = Some cb → currentBook st = Some cb ∧ ¬ P (Book.id cb)) →
  noOrphans st'.
Proof.
  intros [Hnotes Hcur] Hb Hn Hcb. split.
  - intros n. rewrite Hn, Hb, list_elem_of_filter. intros [Hid Hin].
    apply hasBook_filter; [|by apply Hnotes]. intros b Heq. by rewrite Heq.
  - intros cb Hcb'. destruct (Hcb cb Hcb') as [Hold HnP]. rewrite Hb.
    apply hasBook_filter; [|by apply Hcur]. intros b Heq. by rewrite Heq.
Qed.

Lemma noOrphans_step a st : noOrphans st → keepsIds a → noOrphans (step a st).
Proof.
  intros Hinv Hids.
  destruct a; simpl; try exact Hinv.
  - (* handleFileUpload *)
    unfold handleFileUpload. destruct files as [|f0 files]; [exact Hinv|].
    destruct (uploadLoop (f0 :: files) [] (idb st)) as [[newBooks|] db];
      [|exact Hinv].
    apply (noOrphans_mono st); [done| |done|by left].
    intros id. apply hasBook_app_l.
  - (* deleteBook *)
    unfold deleteBook. destruct confirmed; [|exact Hinv]. simpl.
    destruct (deleteBookData id (idb st)) as [db|]; [|exact Hinv].
    apply (noOrphans_delete (λ k, k = id) st); [done|..].
    + by destruct (currentBook st) as [cb|];
        [destruct (bool_decide (Book.id cb = id))|].
    + by destruct (currentBook st) as [cb|];
        [destruct (bool_decide (Book.id cb = id))|].
    + intros cb'. destruct (currentBook st) as [cb|] eqn:Hcb; simpl;
        [|by rewrite Hcb].
      destruct (decide (Book.id cb = id)) as [Heq|Hne].
      * by rewrite bool_decide_eq_true_2.
      * rewrite bool_decide_eq_false_2 by done. simpl. rewrite Hcb.
        by intros [= <-].
  - (* toggleBookForDeletion *)
    unfold toggleBookForDeletion.
    by destruct (decide (id ∈ booksToDelete st)).
  - (* toggleAllForDeletion *)
    unfold toggleAllForDeletion. by destruct (bool_decide _).
  - (* executeBatchDelete *)
    unfold executeBatchDelete. destruct (booksToDelete st) as [|id0 ids];
      [exact Hinv|].
    destruct (batchDeleteLoop (id0 :: ids) (books st) [] (idb st))
      as [[names|] db]; [|exact Hinv].
    apply (noOrphans_delete (λ k, k ∈ id0 :: ids) st); [done|..].
    + by destruct (currentBook st) as [cb|];
        [destruct (decide (Book.id cb ∈ id0 :: ids))|].
    + by destruct (currentBook st) as [cb|];
        [destruct (decide (Book.id cb ∈ id0 :: ids))|].
    + intros cb'. destruct (currentBook st) as [cb|] eqn:Hcb; simpl;
        [|by rewrite Hcb].
      destruct (decide (Book.id cb ∈ id0 :: ids)) as [Hin|Hnotin]; [done|].
      simpl. rewrite Hcb. by intros [= <-].
  - (* updateBookMetadata *)
    simpl in Hids. unfold updateBookMetadata, updateBookMetadataIn.
    destruct Hinv as [Hnotes Hcur].
    assert (Hbooks : ∀ k, hasBook (books st) k →
      hasBook (map (λ b, if hasId id b then spread b updates else b) (books st)) k).
    { intros k. apply hasBook_map. intros b.
      destruct (hasId id b); [by apply spread_keeps_id|done]. }
    destruct (currentBook st) as [cb|] eqn:Hcb.
    + destruct (bool_decide (Book.id cb = id)); simpl.
      * split; simpl; [intros n Hn; by apply Hbooks, Hnotes|].
        rewrite Hcb. simpl. intros cb' [= <-].
        rewrite spread_keeps_id by done. by apply Hbooks, Hcur.
      * split; simpl; [intros n Hn; by apply Hbooks, Hnotes|].
        rewrite Hcb. intros cb' [= <-]. by apply Hbooks, Hcur.
    + split; simpl; [intros n Hn; by apply Hbooks, Hnotes|].
      simpl. by rewrite Hcb.
  - (* openBook *)
    unfold openBook.
    destruct (List.find (hasId (Book.id book)) (books st)) as [found|] eqn:Hfind;
      [|exact Hinv].
    apply hasBook_found in Hfind.
    destruct (getBookData (Book.id book) (idb st)) as [data|]; [|exact Hinv].
    destruct Hinv as [Hnotes Hcur].
    destruct (bool_decide (Book.status book = Some BookStatus.next)).
    + unfold updateBookMetadataIn.
      assert (Hbooks : ∀ k, hasBook (books st) k →
        hasBook (map (λ b, if hasId (Book.id book) b
                           then spread b (PartialBook.mk None None None None None
                                            None (Some (Some BookStatus.reading))
                                            None None)
                           else b) (books st)) k).
      { intros k. apply hasBook_map. intros b. by destruct (hasId _ b). }
      destruct (currentBook st) as [cb|];
        [destruct (bool_decide (Book.id cb = Book.id book))|]; simpl;
        (split; simpl; [intros n Hn; by apply Hbooks, Hnotes|]);
        intros cb' [= <-]; by apply Hbooks.
    + simpl. split; [done|]. by intros cb' [= <-].
  - (* closeBook *)
    unfold closeBook. destruct (currentBook st) as [cb|] eqn:Hcb; simpl.
    + apply (noOrphans_mono st); [done| |done|by right].
      intros id. apply hasBook_map. intros b. by destruct (hasId _ b).
    + apply (noOrphans_mono st); [done|done|done|by right].
  - (* saveNote *)
    unfold saveNote. destruct (currentBook st) as [cb|] eqn:Hcb; [|exact Hinv].
    destruct (negb (truthyStr (noteText st)) && negb (truthyStr (selection st)));
      [exact Hinv|].
    destruct Hinv as [Hnotes Hcur]. split; simpl.
    + intros n [->|Hn]%elem_of_cons; [by apply Hcur|by apply Hnotes].
    + rewrite Hcb. intros cb' [= <-]. by apply Hcur.
  - (* deleteNote *)
    apply (noOrphans_mono st); [done|done| |by left].
    intros n Hn. simpl in Hn. by apply list_elem_of_filter in Hn as [_ ?].
  - (* onDocumentLoadSuccess *)
    unfold onDocumentLoadSuccess. destruct (currentBook st) as [cb|] eqn:Hcb;
      [|exact Hinv].
    destruct (Book.totalPages cb =? 0); [|exact Hinv].
    apply (noOrphans_mono st); [done| |done|by left].
    intros id. apply hasBook_map. intros b. by destruct (hasId _ b).
  - (* handleSelection *)
    unfold handleSelection. by destruct (truthyStr sel).
  - (* handleSearch *)
    unfold handleSearch. destruct (currentBookData st) as [[|pages]|];
      try destruct (negb (truthyStr (trim (searchQuery st)))); exact Hinv.
  - (* addCategory *)
    unfold addCategory.
    by destruct (negb (truthyStr (trim (newCategoryName st)))).
  - (* deleteCategory *)
    unfold deleteCategory. destruct confirmed; [|exact Hinv].
    apply (noOrphans_mono st); [done| |done|by left].
    intros k. apply hasBook_map. intros b.
    by destruct (bool_decide (Book.category b = Some id)).
Qed.

(** X13. No event orphans a note: if every note belongs to a document of
    the library and so does the open document, the same holds after any
    sequence of events that do not rewrite a document's identifier (deletes,
    failed deletes and uploads included). *)
Theorem noOrphans_run (actions : list Action) (st : State) :
  noOrphans st → Forall keepsIds actions → noOrphans (run actions st).
Proof.
  revert st. induction actions as [|a actions IH]; intros st Hinv Hall; [done|].
  apply Forall_cons in Hall as [Ha Hall]. unfold run. simpl.
  apply IH; [|done]. by apply noOrphans_step.
Qed.

Lemma noOrphans_run_witness :
  noOrphans (libraryAB ∅)
  ∧ Forall keepsIds busySession
  ∧ noOrphans (run busySession (libraryAB ∅)).
Proof.
  assert (Hinv : noOrphans (libraryAB ∅)).
  { split.
    - intros n Hn. simpl in Hn.
      apply elem_of_cons in Hn as [->|Hn]; [exists bookA; split; [by left|done]|].
      apply elem_of_cons in Hn as [->|Hn];
        [exists bookB; split; [by right; left|done]|].
      by apply elem_of_nil in Hn.
    - intros cb Hcb. discriminate Hcb. }
  assert (Hids : Forall keepsIds busySession) by (repeat constructor).
  split; [exact Hinv|]. split; [exact Hids|].
  exact (noOrphans_run busySession (libraryAB ∅) Hinv Hids).
Defined.

Lemma uploadLoop_blobs files newBooks db :
  (∀ k, is_Some (blobs db !! k) →
        is_Some (blobs (uploadLoop files newBooks db).2 !! k))
  ∧ (∀ l, (uploadLoop files newBooks db).1 = Some l →
          (∀ b, b ∈ newBooks → is_Some (blobs db !! Book.id b)) →
          ∀ b, b ∈ l → is_Some (blobs (uploadLoop files newBooks db).2 !! Book.id b)).
Proof.
  revert newBooks db. induction files as [|f files IH]; intros newBooks db.
  - simpl. split; [done|]. intros l [= <-]. done.
  - simpl. destruct (bool_decide (File.type f = "application/pdf")); simpl;
      [|apply IH].
    unfold saveBookData. simpl.
    destruct (decide (File.uuid f ∈ faulty db)) as [Hf|Hf]; simpl; [done|].
    destruct (IH (newBooks ++ [newBookOf f])
                (mkIDB (<[File.uuid f := File.arrayBuffer f]> (blobs db)) (faulty db)))
      as [Hmono Hnew].
    assert (Hins : ∀ k, is_Some (blobs db !! k) →
              is_Some (<[File.uuid f := File.arrayBuffer f]> (blobs db) !! k)).
    { intros k Hk. rewrite lookup_insert_is_Some. destruct (decide (File.uuid f = k)); auto. }
    split.
    + intros k Hk. by apply Hmono, Hins.
    + intros l Hl Hold b Hb. apply (Hnew l Hl); [|done].
      intros b0 [Hb0| ->%list_elem_of_singleton]%elem_of_app; simpl.
      * by apply Hins, Hold.
      * rewrite lookup_insert_eq. eauto.
Qed.

Lemma everyBookHasBlob_mono st st' :
  everyBookHasBlob st →
  (∀ b', b' ∈ books st' → hasBook (books st) (Book.id b')) →
  idb st' = idb st →
  everyBookHasBlob st'.
Proof.
  intros Hinv Hbooks Hidb b' Hb'. rewrite Hidb.
  destruct (Hbooks b' Hb') as (b & Hb & <-). by apply Hinv.
Qed.

Lemma hasBook_of_map (f : Book → Book) bks b' :
  (∀ b, Book.id (f b) = Book.id b) → b' ∈ map f bks → hasBook bks (Book.id b').
Proof.
  intros Hf (b & -> & Hb)%list_elem_of_fmap. exists b. by rewrite Hf.
Qed.

(** X14. A record never lacks its payload: if every document of the library
    has its payload in the store, the same holds after every event that does
    not rewrite an identifier, a rejected upload or a rejected single delete
    included; the one exception is a batch delete that the store rejects. *)
Theorem everyBookHasBlob_step (a : Action) (st : State) :
  everyBookHasBlob st → keepsIds a → batchAccepted a st →
  everyBookHasBlob (step a st).
Proof.
  intros Hinv Hids Hbatch.
  assert (Hsame : ∀ b', b' ∈ books st → hasBook (books st) (Book.id b'))
    by (intros b' Hb'; by exists b').
  destruct a; simpl; try exact Hinv.
  - (* handleFileUpload *)
    unfold handleFileUpload. destruct files as [|f0 files]; [exact Hinv|].
    destruct (uploadLoop_blobs (f0 :: files) [] (idb st)) as [Hmono Hnew].
    destruct (uploadLoop (f0 :: files) [] (idb st)) as [[newBooks|] db]; simpl in *.
    + intros b [Hb|Hb]%elem_of_app; unfold getBookData; simpl.
      * by apply Hmono, Hinv.
      * apply (Hnew newBooks eq_refl); [|done]. by intros ? ?%elem_of_nil.
    + intros b Hb. unfold getBookData. simpl. by apply Hmono, Hinv.
  - (* deleteBook *)
    unfold deleteBook. destruct confirmed; [|exact Hinv]. simpl.
    unfold deleteBookData.
    destruct (decide (id ∈ faulty (idb st))); [exact Hinv|].
    assert (Hgoal : ∀ b, b ∈ filter (λ b, Book.id b ≠ id) (books st) →
              is_Some (delete id (blobs (idb st)) !! Book.id b)).
    { intros b [Hne Hb]%list_elem_of_filter.
      rewrite lookup_delete_ne by done. by apply Hinv. }
    by destruct (currentBook st) as [cb|];
      [destruct (bool_decide (Book.id cb = id))|].
  - (* toggleBookForDeletion *)
    unfold toggleBookForDeletion. by destruct (decide (id ∈ booksToDelete st)).
  - (* toggleAllForDeletion *)
    unfold toggleAllForDeletion. by destruct (bool_decide _).
  - (* executeBatchDelete *)
    simpl in Hbatch. unfold executeBatchDelete.
    destruct (booksToDelete st) as [|id0 ids]; [exact Hinv|].
    rewrite batchDeleteLoop_ok by (by apply Forall_forall).
    assert (Hgoal : ∀ b, b ∈ filter (λ b, Book.id b ∉ id0 :: ids) (books st) →
              is_Some (foldl (λ m id, delete id m) (blobs (idb st)) (id0 :: ids)
                       !! Book.id b)).
    { intros b [Hne Hb]%list_elem_of_filter.
      rewrite lookup_foldl_delete, decide_False by done. by apply Hinv. }
    by destruct (currentBook st) as [cb|];
      [destruct (decide (Book.id cb ∈ id0 :: ids))|].
  - (* updateBookMetadata *)
    simpl in Hids. unfold updateBookMetadata, updateBookMetadataIn.
    apply (everyBookHasBlob_mono st); [done| |].
    + assert (Hb : ∀ b', b' ∈ map (λ b, if hasId id b then spread b updates else b)
                               (books st) → hasBook (books st) (Book.id b')).
      { intros b'. apply hasBook_of_map. intros b.
        destruct (hasId id b); [by apply spread_keeps_id|done]. }
      by destruct (currentBook st) as [cb|];
        [destruct (bool_decide (Book.id cb = id))|].
    + by destruct (currentBook st) as [cb|];
        [destruct (bool_decide (Book.id cb = id))|].
  - (* openBook *)
    unfold openBook.
    destruct (List.find (hasId (Book.id book)) (books st)); [|exact Hinv].
    destruct (getBookData (Book.id book) (idb st)); [|exact Hinv].
    destruct (bool_decide (Book.status book = Some BookStatus.next));
      [|exact Hinv].
    unfold updateBookMetadataIn. apply (everyBookHasBlob_mono st); [done| |].
    + assert (Hb : ∀ b', b' ∈ map (λ b, if hasId (Book.id book) b
                  then spread b (PartialBook.mk None None None None None None
                                   (Some (Some BookStatus.reading)) None None)
                  else b) (books st) → hasBook (books st) (Book.id b')).
      { intros b'. apply hasBook_of_map. intros b. by destruct (hasId _ b). }
      by destruct (currentBook st) as [cb|];
        [destruct (bool_decide (Book.id cb = Book.id book))|].
    + by destruct (currentBook st) as [cb|];
        [destruct (bool_decide (Book.id cb = Book.id book))|].
  - (* closeBook *)
    unfold closeBook. destruct (currentBook st) as [cb|]; [|exact Hinv].
    apply (everyBookHasBlob_mono st); [done| |done].
    intros b'. simpl. apply hasBook_of_map. intros b. by destruct (hasId _ b).
  - (* saveNote *)
    unfold saveNote. destruct (currentBook st) as [cb|]; [|exact Hinv].
    by destruct (negb (truthyStr (noteText st)) && negb (truthyStr (selection st))).
  - (* onDocumentLoadSuccess *)
    unfold onDocumentLoadSuccess. destruct (currentBook st) as [cb|];
      [|exact Hinv].
    destruct (Book.totalPages cb =? 0); [|exact Hinv].
    apply (everyBookHasBlob_mono st); [done| |done].
    intros b'. simpl. apply hasBook_of_map. intros b. by destruct (hasId _ b).
  - (* handleSelection *)
    unfold handleSelection. by destruct (truthyStr sel).
  - (* handleSearch *)
    unfold handleSearch. destruct (currentBookData st) as [[|pages]|];
      try destruct (negb (truthyStr (trim (searchQuery st)))); exact Hinv.
  - (* addCategory *)
    unfold addCategory.
    by destruct (negb (truthyStr (trim (newCategoryName st)))).
  - (* deleteCategory *)
    unfold deleteCategory. destruct confirmed; [|exact Hinv].
    apply (everyBookHasBlob_mono st); [done| |done].
    intros b'. simpl. apply hasBook_of_map. intros b.
    by destruct (bool_decide (Book.category b = Some id)).
Qed.

Lemma everyBookHasBlob_step_witness :
  everyBookHasBlob (selectedAB ∅)
  ∧ keepsIds ExecuteBatchDelete
  ∧ batchAccepted ExecuteBatchDelete (selectedAB ∅)
  ∧ everyBookHasBlob (step ExecuteBatchDelete (selectedAB ∅)).
Proof.
  assert (Hinv : everyBookHasBlob (selectedAB ∅)).
  { intros b Hb. simpl in Hb.
    apply elem_of_cons in Hb as [->|Hb]; [by eexists|].
    apply elem_of_cons in Hb as [->|Hb]; [by eexists|].
    by apply elem_of_nil in Hb. }
  assert (Hbatch : batchAccepted ExecuteBatchDelete (selectedAB ∅)).
  { intros id _. apply not_elem_of_empty. }
  split; [exact Hinv|]. split; [exact I|]. split; [exact Hbatch|].
  exact (everyBookHasBlob_step ExecuteBatchDelete (selectedAB ∅) Hinv I Hbatch).
Defined.

(* ------------------------------------------------------------------ *)
(** ** The selection for the batch delete *)
(* ------------------------------------------------------------------ *)

(** X15. A toggle flips the membership of its identifier in the selection
    and of no other, keeps the selection free of repetitions, and touches
    neither the library nor the store; toggling twice gives the selection
    back as a set. *)
Theorem toggleBookForDeletion_flips (id : string) (st : State) :
  NoDup (booksToDelete st) →
  let st' := toggleBookForDeletion id st in
  NoDup (booksToDelete st')
  ∧ (id ∈ booksToDelete st' ↔ id ∉ booksToDelete st)
  ∧ (∀ k, k ≠ id → (k ∈ booksToDelete st' ↔ k ∈ booksToDelete st))
  ∧ (∀ k, k ∈ booksToDelete (toggleBookForDeletion id st') ↔ k ∈ booksToDelete st)
  ∧ books st' = books st ∧ notes st' = notes st ∧ idb st' = idb st.
Proof.
  intros Hnd. cbv zeta.
  assert (Hflip : ∀ sel : list string, NoDup sel →
    let sel' := if decide (id ∈ sel) then filter (λ x, x ≠ id) sel else sel ++ [id] in
    NoDup sel' ∧ (id ∈ sel' ↔ id ∉ sel) ∧ (∀ k, k ≠ id → (k ∈ sel' ↔ k ∈ sel))).
  { intros sel Hsel. cbv zeta. destruct (decide (id ∈ sel)) as [Hin|Hnotin].
    - split_and!.
      + by apply NoDup_filter.
      + rewrite list_elem_of_filter. tauto.
      + intros k Hk. rewrite list_elem_of_filter. tauto.
    - split_and!.
      + apply NoDup_app. split_and!; [done| |apply NoDup_singleton].
        by intros k Hk ->%list_elem_of_singleton.
      + rewrite elem_of_app, list_elem_of_singleton. tauto.
      + intros k Hk. rewrite elem_of_app, list_elem_of_singleton. tauto. }
  assert (Hsel : booksToDelete (toggleBookForDeletion id st)
                 = if decide (id ∈ booksToDelete st)
                   then filter (λ x, x ≠ id) (booksToDelete st)
                   else booksToDelete st ++ [id]).
  { unfold toggleBookForDeletion. by destruct (decide (id ∈ booksToDelete st)). }
  destruct (Hflip _ Hnd) as (Hnd' & Hid & Hother). rewrite <- Hsel in Hnd', Hid, Hother.
  split_and!; [done|done|done| |..].
  - assert (Hsel2 : booksToDelete (toggleBookForDeletion id (toggleBookForDeletion id st))
        = if decide (id ∈ booksToDelete (toggleBookForDeletion id st))
          then filter (λ x, x ≠ id) (booksToDelete (toggleBookForDeletion id st))
          else booksToDelete (toggleBookForDeletion id st) ++ [id]).
    { unfold toggleBookForDeletion at 1.
      by destruct (decide (id ∈ booksToDelete (toggleBookForDeletion id st))). }
    destruct (Hflip _ Hnd') as (_ & Hid2 & Hother2). rewrite <- Hsel2 in Hid2, Hother2.
    intros k. destruct (decide (k = id)) as [->|Hk].
    + rewrite Hid2, Hid. destruct (decide (id ∈ booksToDelete st)); tauto.
    + by rewrite Hother2, Hother.
  - unfold toggleBookForDeletion. by destruct (decide _).
  - unfold toggleBookForDeletion. by destruct (decide _).
  - unfold toggleBookForDeletion. by destruct (decide _).
Qed.

Lemma toggleBookForDeletion_flips_witness :
  NoDup (booksToDelete (selectedAB ∅))
  ∧ ltac:(match type of (toggleBookForDeletion_flips "a" (selectedAB ∅)) with
          | _ → ?C => exact C
          end).
Proof.
  assert (H : NoDup (booksToDelete (selectedAB ∅))).
  { simpl. apply NoDup_cons. split; [|apply NoDup_singleton].
    by intros ?%list_elem_of_singleton. }
  split; [exact H|]. exact (toggleBookForDeletion_flips "a" (selectedAB ∅) H).
Defined.

Lemma newSet_from (acc l : list string) :
  NoDup acc →
  NoDup (foldl (λ acc x, if decide (x ∈ acc) then acc else acc ++ [x]) acc l)
  ∧ (∀ k, k ∈ foldl (λ acc x, if decide (x ∈ acc) then acc else acc ++ [x]) acc l
          ↔ k ∈ acc ∨ k ∈ l)
  ∧ (NoDup (acc ++ l) →
       foldl (λ acc x, if decide (x ∈ acc) then acc else acc ++ [x]) acc l
       = acc ++ l).
Proof.
  revert acc. induction l as [|x l IH]; intros acc Hacc.
  - simpl. split_and!; [done| |by rewrite app_nil_r].
    intros k. rewrite elem_of_nil. tauto.
  - cbn [foldl]. destruct (decide (x ∈ acc)) as [Hin|Hnotin].
    + destruct (IH acc Hacc) as (Hnd & Hmem & _). split_and!; [done| |].
      * intros k. rewrite Hmem, elem_of_cons.
        split; [tauto|]. intros [?|[->|?]]; tauto.
      * intros Hall. apply NoDup_app in Hall as (_ & Hdisj & _).
        destruct (Hdisj x Hin). by left.
    + assert (Hacc' : NoDup (acc ++ [x])).
      { apply NoDup_app. split_and!; [done| |apply NoDup_singleton].
        by intros k Hk ->%list_elem_of_singleton. }
      destruct (IH _ Hacc') as (Hnd & Hmem & Hid). split_and!; [done| |].
      * intros k. rewrite Hmem, elem_of_app, list_elem_of_singleton, elem_of_cons.
        tauto.
      * intros Hall. rewrite Hid; [by rewrite <- app_assoc|].
        by rewrite <- app_assoc.
Qed.

(** X16. "Select all" leaves a selection without repetitions: when the
    selection has as many entries as the library has documents it is
    cleared, otherwise it becomes exactly the identifiers of the documents;
    and with distinct identifiers, selecting all and toggling again clears
    the selection. *)
Theorem toggleAllForDeletion_selects (st : State) :
  let st' := toggleAllForDeletion st in
  NoDup (booksToDelete st')
  ∧ (length (booksToDelete st) = length (books st) → booksToDelete st' = [])
  ∧ (length (booksToDelete st) ≠ length (books st) →
       (∀ k, k ∈ booksToDelete st' ↔ hasBook (books st) k)
       ∧ (NoDup (map Book.id (books st)) →
            booksToDelete st' = map Book.id (books st)
            ∧ booksToDelete (toggleAllForDeletion st') = []))
  ∧ books st' = books st.
Proof.
  cbv zeta.
  assert (Hsel : ∀ s, booksToDelete (toggleAllForDeletion s)
                      = if bool_decide (length (booksToDelete s) = length (books s))
                        then [] else newSet (map Book.id (books s))).
  { intros s. unfold toggleAllForDeletion. by destruct (bool_decide _). }
  assert (Hbooks : ∀ s, books (toggleAllForDeletion s) = books s).
  { intros s. unfold toggleAllForDeletion. by destruct (bool_decide _). }
  destruct (newSet_from [] (map Book.id (books st))) as (Hnd & Hmem & Hid);
    [apply NoDup_nil_2|]. fold (newSet (map Book.id (books st))) in Hnd, Hmem, Hid.
  rewrite (Hsel (toggleAllForDeletion st)), Hbooks, (Hsel st).
  destruct (decide (length (booksToDelete st) = length (books st))) as [Heq|Hne].
  - rewrite bool_decide_eq_true_2 by done.
    split_and!; [apply NoDup_nil_2|done|done|done].
  - rewrite bool_decide_eq_false_2 by done.
    split_and!; [done|done| |done]. intros _. split.
    + intros k. rewrite Hmem, elem_of_nil, list_elem_of_fmap. unfold hasBook.
      split.
      * intros [[]|(b & -> & Hb)]. by exists b.
      * intros (b & Hb & <-). right. by exists b.
    + intros Hids. rewrite (Hid Hids). simpl. split; [done|].
      rewrite bool_decide_eq_true_2; [done|]. apply length_map.
Qed.

(* ------------------------------------------------------------------ *)
(** ** Editing a document *)
(* ------------------------------------------------------------------ *)

(** X17. An edit keeps the number and the order of the records, replaces
    the records of the given identifier by their merge with the update and
    leaves every other record, the notes, the categories and the store as
    they were; for an identifier that neither a record nor the open document
    carries it changes nothing at all. *)
Theorem updateBookMetadata_frame (id : string) (updates : PartialBook)
    (st : State) :
  let st' := updateBookMetadata id updates st in
  length (books st') = length (books st)
  ∧ (∀ (i : nat) b, books st !! i = Some b →
       books st' !! i = Some (if decide (Book.id b = id) then spread b updates else b))
  ∧ notes st' = notes st ∧ categories st' = categories st ∧ idb st' = idb st
  ∧ ((∀ b, b ∈ books st → Book.id b ≠ id) →
     (∀ cb, currentBook st = Some cb → Book.id cb ≠ id) →
     st' = st).
Proof.
  cbv zeta. unfold updateBookMetadata, updateBookMetadataIn.
  assert (Hf : ∀ b, (if hasId id b then spread b updates else b)
                    = if decide (Book.id b = id) then spread b updates else b).
  { intros b. unfold hasId. destruct (decide (Book.id b = id)).
    - by rewrite bool_decide_eq_true_2.
    - by rewrite bool_decide_eq_false_2. }
  assert (Hlook : ∀ (i : nat) b, books st !! i = Some b →
    map (λ b, if hasId id b then spread b updates else b) (books st) !! i
    = Some (if decide (Book.id b = id) then spread b updates else b)).
  { intros i b Hi. by rewrite list_lookup_fmap, Hi, <- Hf. }
  split_and!.
  - destruct (currentBook st) as [cb|];
      [destruct (bool_decide (Book.id cb = id))|]; simpl; apply length_map.
  - by destruct (currentBook st) as [cb|];
      [destruct (bool_decide (Book.id cb = id))|].
  - by destruct (currentBook st) as [cb|];
      [destruct (bool_decide (Book.id cb = id))|].
  - by destruct (currentBook st) as [cb|];
      [destruct (bool_decide (Book.id cb = id))|].
  - by destruct (currentBook st) as [cb|];
      [destruct (bool_decide (Book.id cb = id))|].
  - intros Hbooks Hcur.
    assert (Hmap : map (λ b, if hasId id b then spread b updates else b) (books st)
                   = books st).
    { rewrite <- (map_id (books st)) at 2. apply map_ext_in.
      intros b Hb%list_elem_of_In. rewrite Hf.
      by rewrite decide_False by (by apply Hbooks). }
    rewrite Hmap. destruct (currentBook st) as [cb|] eqn:Hcb.
    + rewrite bool_decide_eq_false_2 by (by apply Hcur). by destruct st.
    + by destruct st.
Qed.

Example updateBookMetadata_unknown_ex :
  updateBookMetadata "zz"
    (PartialBook.mk None None None None None None None None (Some (Some 5)))
    (libraryAB ∅)
  = libraryAB ∅.
Proof. vm_compute. done. Qed.


(* ------------------------------------------------------------------ *)
(** ** Opening, paging and closing *)
(* ------------------------------------------------------------------ *)

Lemma found_of_hasBook bks id :
  hasBook bks id → is_Some (List.find (hasId id) bks).
Proof.
  intros (b & Hb & Hid). destruct (List.find (hasId id) bks) eqn:Hfind; [by eexists|].
  pose proof (find_none _ _ Hfind b) as Hnone. unfold hasId in Hnone.
  rewrite bool_decide_eq_true_2 in Hnone by done.
  by specialize (Hnone (proj1 (list_elem_of_In _ _) Hb)).
Qed.

(** X18. A document opened without a target page, as a click on its card
    opens it, starts on page 1 whatever current page its record stores; so
    closing it right away stores 1 as the current page of its records. *)
Theorem openBook_starts_at_page_one (book : Book) (h : option string)
    (st : State) (data : PdfData) :
  hasBook (books st) (Book.id book) →
  getBookData (Book.id book) (idb st) = Some data →
  let st1 := openBook book None h st in
  view st1 = READER
  ∧ currentBookData st1 = Some data
  ∧ pageNumber st1 = 1
  ∧ (∃ cb, currentBook st1 = Some cb ∧ Book.id cb = Book.id book)
  ∧ (∀ b', b' ∈ books (closeBook st1) → Book.id b' = Book.id book →
       Book.currentPage b' = 1).
Proof.
  intros [found Hfound]%found_of_hasBook Hdata. cbv zeta.
  assert (Hopen : ∃ cb bks,
    openBook book None h st
    = mkState READER bks (notes st) (categories st) (Some cb) (Some data) 1
        (numPages st)
        (match h with Some h => if truthyStr h then Some h else None | None => None end)
        (booksToDelete st) (toast st) (selection st) (noteText st) (searchQuery st)
        (searchResults st) (newCategoryName st) (idb st)
    ∧ Book.id cb = Book.id book).
  { unfold openBook. rewrite Hfound, Hdata. simpl.
    destruct (bool_decide (Book.status book = Some BookStatus.next)).
    - unfold updateBookMetadataIn.
      destruct (currentBook st) as [cb|];
        [destruct (bool_decide (Book.id cb = Book.id book))|]; simpl;
        eexists _, _; (split; [reflexivity|done]).
    - eexists _, _. split; [reflexivity|done]. }
  destruct Hopen as (cb & bks & -> & Hid). simpl.
  split_and!; [done|done|done|by exists cb|].
  intros b' (b & -> & Hb)%list_elem_of_fmap. unfold hasId.
  destruct (decide (Book.id b = Book.id cb)) as [Heq|Hne].
  - by rewrite bool_decide_eq_true_2.
  - rewrite bool_decide_eq_false_2 by done. congruence.
Qed.

Lemma openBook_starts_at_page_one_witness :
  hasBook (books (libraryAB ∅)) (Book.id bookB)
  ∧ getBookData (Book.id bookB) (idb (libraryAB ∅)) = Some (Pdf [["beta"]])
  ∧ ltac:(match type of (openBook_starts_at_page_one bookB None (libraryAB ∅)
                           (Pdf [["beta"]])) with
          | _ → _ → ?C => exact C
          end).
Proof.
  assert (Hhas : hasBook (books (libraryAB ∅)) (Book.id bookB)).
  { exists bookB. split; [|done]. apply list_elem_of_further, list_elem_of_here. }
  assert (Hdata : getBookData (Book.id bookB) (idb (libraryAB ∅))
                  = Some (Pdf [["beta"]])) by reflexivity.
  split; [exact Hhas|]. split; [exact Hdata|].
  exact (openBook_starts_at_page_one bookB None (libraryAB ∅) (Pdf [["beta"]])
           Hhas Hdata).
Defined.

(** X22. While the page shown is a page of the document, a click on a page
    button keeps it one: an enabled button moves by exactly one page, and on
    the first and on the last page the respective button does nothing. *)
Theorem page_buttons_stay_in_range (st : State) :
  pageInRange st →
  pageInRange (clickPrevious st) ∧ pageInRange (clickNext st)
  ∧ (1 < pageNumber st → pageNumber (clickPrevious st) = pageNumber st - 1)
  ∧ (pageNumber st < numPages st → pageNumber (clickNext st) = pageNumber st + 1)
  ∧ (pageNumber st = 1 → clickPrevious st = st)
  ∧ (pageNumber st = numPages st → clickNext st = st)
  ∧ numPages (clickPrevious st) = numPages st
  ∧ numPages (clickNext st) = numPages st.
Proof.
  unfold pageInRange, clickPrevious, clickNext, previousPage, nextPage.
  intros Hrange.
  destruct (Z.leb_spec (pageNumber st) 1), (Z.leb_spec (numPages st) (pageNumber st));
    simpl; split_and!; try done; try lia; intros; exfalso; lia.
Qed.

Lemma page_buttons_stay_in_range_witness :
  pageInRange readingB
  ∧ ltac:(match type of (page_buttons_stay_in_range readingB) with
          | _ → ?C => exact C
          end).
Proof.
  assert (H : pageInRange readingB) by (unfold pageInRange; simpl; lia).
  split; [exact H|]. exact (page_buttons_stay_in_range readingB H).
Defined.

(** X23. Submitting the page input keeps the page shown a page of the
    document: the page changes only to the number the input parses to, and
    only when that number lies between 1 and the page count; every other
    input changes nothing and the input is reset to the page shown. *)
Theorem handlePageInputSubmit_bounds (parseInt : string → option Z)
    (pageInput : string) (st : State) :
  pageInRange st →
  let r := handlePageInputSubmit parseInt pageInput st in
  pageInRange r.1
  ∧ (∀ val, parseInt pageInput = Some val → 1 ≤ val ≤ numPages st →
       pageNumber r.1 = val)
  ∧ (pageNumber r.1 ≠ pageNumber st →
       parseInt pageInput = Some (pageNumber r.1) ∧ r.2 = pretty (pageNumber r.1))
  ∧ ((∀ val, parseInt pageInput = Some val → ¬ (1 ≤ val ≤ numPages st)) →
       r = (st, pretty (pageNumber st)))
  ∧ numPages r.1 = numPages st ∧ books r.1 = books st.
Proof.
  unfold pageInRange, handlePageInputSubmit, handleJumpToPage. intros Hrange.
  cbv zeta. destruct (parseInt pageInput) as [val|] eqn:Hparse.
  - destruct (Z.leb_spec 1 val), (Z.leb_spec val (numPages st)); simpl;
      (split; [lia|]).
    + split_and!; [ | | |done|done].
      * by intros ? [= <-] _.
      * intros Hne. split; [done|]. by destruct (Z.eqb_spec val (pageNumber st)).
      * intros Hout. destruct (Hout val eq_refl). lia.
    + split_and!; [|done|done|done|done]. intros ? [= <-] ?. lia.
    + split_and!; [|done|done|done|done]. intros ? [= <-] ?. lia.
    + split_and!; [|done|done|done|done]. intros ? [= <-] ?. lia.
  - simpl. split; [lia|]. split_and!; done.
Qed.

Lemma handlePageInputSubmit_bounds_witness :
  pageInRange readingB
  ∧ ltac:(match type of (handlePageInputSubmit_bounds (λ _, Some 5) "5" readingB) with
          | _ → ?C => exact C
          end).
Proof.
  assert (H : pageInRange readingB) by (unfold pageInRange; simpl; lia).
  split; [exact H|]. exact (handlePageInputSubmit_bounds (λ _, Some 5) "5" readingB H).
Defined.

(* ------------------------------------------------------------------ *)
(** ** Notes *)
(* ------------------------------------------------------------------ *)

(** X19. Saving a note does nothing without an open document or when both
    the text and the selection are empty; otherwise it puts one note, for
    the open document and the page shown, in front of the others and clears
    the text and the selection, and deleting a note with a fresh identifier
    right after gives the notes back. The records are never touched. *)
Theorem saveNote_prepends (uuid : string) (now : Z) (st : State) :
  let st' := saveNote uuid now st in
  (currentBook st = None → st' = st)
  ∧ (noteText st = "" → selection st = "" → st' = st)
  ∧ (∀ cb, currentBook st = Some cb → noteText st ≠ "" ∨ selection st ≠ "" →
       notes st'
       = Note.mk uuid (Book.id cb) (pageNumber st) (noteText st)
           (Some (selection st)) now :: notes st
       ∧ noteText st' = "" ∧ selection st' = ""
       ∧ ((∀ n, n ∈ notes st → Note.id n ≠ uuid) →
            notes (deleteNote uuid st') = notes st))
  ∧ books st' = books st ∧ currentBook st' = currentBook st.
Proof.
  cbv zeta. unfold saveNote. split_and!.
  - by intros ->.
  - intros -> ->. by destruct (currentBook st).
  - intros cb -> Hsome.
    assert (Hguard : negb (truthyStr (noteText st)) && negb (truthyStr (selection st))
                     = false).
    { destruct Hsome as [H|H]; [destruct (noteText st)|destruct (selection st)];
        try done; simpl; by rewrite ?andb_false_r. }
    rewrite Hguard. simpl. split_and!; [done|done|done|].
    intros Hfresh. rewrite filter_cons_False by (simpl; by intros []).
    induction (notes st) as [|n l IH]; [done|].
    rewrite filter_cons_True by (apply Hfresh; by left).
    f_equal. apply IH. intros n' Hn'. apply Hfresh. by right.
  - destruct (currentBook st); [|done].
    by destruct (negb (truthyStr (noteText st)) && negb (truthyStr (selection st))).
  - destruct (currentBook st) eqn:Hcb; [|done].
    by destruct (negb (truthyStr (noteText st)) && negb (truthyStr (selection st))).
Qed.

Example saveNote_ex :
  let st := setNoteText "read again" readingB in
  notes (saveNote "n9" 99 st)
  = Note.mk "n9" "b" 3 "read again" (Some "") 99 :: notes st
  ∧ notes (deleteNote "n9" (saveNote "n9" 99 st)) = notes st.
Proof. by vm_compute. Qed.

(** X27. The witness of the write-back of [closeBook]: the reader on page 3
    of 7 is closed. *)
Lemma closeBook_writes_back_witness :
  currentBook readingB = Some bookB
  ∧ ltac:(match type of (closeBook_writes_back readingB bookB) with
          | _ → ?C => exact C
          end).
Proof.
  split; [reflexivity|]. exact (closeBook_writes_back readingB bookB eq_refl).
Defined.


(* ------------------------------------------------------------------ *)
(** ** What an event leaves alone *)
(* ------------------------------------------------------------------ *)

Ltac frame_cases :=
  unfold handleFileUpload, deleteBook, toggleBookForDeletion,
    toggleAllForDeletion, executeBatchDelete, updateBookMetadata, openBook,
    closeBook, saveNote, deleteNote, onDocumentLoadSuccess, handleSelection,
    handleSearch, addCategory, deleteCategory, handleJumpToPage, previousPage,
    nextPage, updateBookMetadataIn, leaveReader, showToast;
  repeat case_match; simpl; try done.

Lemma step_idb a st : ¬ writesStore a → idb (step a st) = idb st.
Proof. destruct a; simpl; intros H; try (by destruct H); frame_cases. Qed.

Lemma step_notes a st : ¬ writesNotes a → notes (step a st) = notes st.
Proof. destruct a; simpl; intros H; try (by destruct H); frame_cases. Qed.

Lemma step_categories a st :
  ¬ writesCategories a → categories (step a st) = categories st.
Proof. destruct a; simpl; intros H; try (by destruct H); frame_cases. Qed.

(** X24. The blob store is written by an upload, a delete and a batch
    delete only; the notes by a delete, a batch delete, saving and deleting
    a note only; the categories by adding and deleting a category only. In
    particular opening, reading, editing and closing a document never touch
    the store. *)
Theorem only_writers_write (a : Action) (st : State) :
  (idb (step a st) ≠ idb st → writesStore a)
  ∧ (notes (step a st) ≠ notes st → writesNotes a)
  ∧ (categories (step a st) ≠ categories st → writesCategories a).
Proof.
  assert (Hs : ∀ a, writesStore a ∨ ¬ writesStore a) by (intros []; simpl; tauto).
  assert (Hn : ∀ a, writesNotes a ∨ ¬ writesNotes a) by (intros []; simpl; tauto).
  assert (Hc : ∀ a, writesCategories a ∨ ¬ writesCategories a)
    by (intros []; simpl; tauto).
  split_and!; intros Hne.
  - destruct (Hs a) as [?|Hno]; [done|]. destruct Hne. by apply step_idb.
  - destruct (Hn a) as [?|Hno]; [done|]. destruct Hne. by apply step_notes.
  - destruct (Hc a) as [?|Hno]; [done|]. destruct Hne. by apply step_categories.
Qed.

(* ------------------------------------------------------------------ *)
(** ** Categories *)
(* ------------------------------------------------------------------ *)

Lemma trimmedName_step a st :
  Forall trimmedName (categories st) → Forall trimmedName (categories (step a st)).
Proof.
  intros H. destruct a; try (rewrite step_categories by (intros []); exact H); simpl.
  - unfold addCategory.
    destruct (truthyStr (trim (newCategoryName st))) eqn:E; simpl; [|exact H].
    apply Forall_app. split; [done|]. apply Forall_cons. split; [|apply Forall_nil_2].
    split; simpl; [|apply trim_idem]. intros Heq. by rewrite Heq in E.
  - unfold deleteCategory. destruct confirmed; [|exact H]. simpl.
    apply Forall_forall. intros c [_ Hc]%list_elem_of_filter.
    by eapply Forall_forall in H.
Qed.

(** X20. No event stores a category whose name is empty or has white space
    around it: if the names of the categories are not empty and trimmed,
    they are so after any sequence of events, whatever was typed. *)
Theorem category_names_stay_trimmed (actions : list Action) (st : State) :
  Forall trimmedName (categories st) →
  Forall trimmedName (categories (run actions st)).
Proof.
  revert st. induction actions as [|a actions IH]; intros st H; [done|].
  unfold run. simpl. apply IH. by apply trimmedName_step.
Qed.

Lemma category_names_stay_trimmed_witness :
  Forall trimmedName (categories (libraryAB ∅))
  ∧ Forall trimmedName
      (categories (run [SetNewCategoryName "  Poetry "; AddCategory "c2";
                        SetNewCategoryName "   "; AddCategory "c3";
                        DeleteCategory "c1" true] (libraryAB ∅))).
Proof.
  assert (H : Forall trimmedName (categories (libraryAB ∅))).
  { apply Forall_cons. split; [|apply Forall_nil_2]. by split. }
  split; [exact H|]. exact (category_names_stay_trimmed _ (libraryAB ∅) H).
Defined.

Lemma categoriesLive_mono st st' :
  categoriesLive st →
  (∀ b', b' ∈ books st' →
     Book.category b' = None
     ∨ ∃ b, b ∈ books st ∧ Book.category b = Book.category b') →
  (∀ cat, cat ∈ categories st → cat ∈ categories st') →
  categoriesLive st'.
Proof.
  intros Hinv Hbooks Hcats b' c Hb' Hc.
  destruct (Hbooks b' Hb') as [Hnone|(b & Hb & Heq)]; [congruence|].
  destruct (Hinv b c Hb) as (cat & Hcat & Hid); [congruence|].
  exists cat. split; [by apply Hcats|done].
Qed.

Lemma category_of_map (f : Book → Book) bks b' :
  (∀ b, Book.category (f b) = Book.category b) →
  b' ∈ map f bks →
  Book.category b' = None ∨ ∃ b, b ∈ bks ∧ Book.category b = Book.category b'.
Proof.
  intros Hf (b & -> & Hb)%list_elem_of_fmap. right. exists b. by rewrite Hf.
Qed.

Lemma category_of_filter (P : Book → Prop) `{!∀ b, Decision (P b)}
    (bks : list Book) b' :
  b' ∈ filter P bks →
  Book.category b' = None ∨ ∃ b, b ∈ bks ∧ Book.category b = Book.category b'.
Proof. intros [_ Hb]%list_elem_of_filter. right. by exists b'. Qed.

(** X21. No record is left with a reference to a category that does not
    exist: if every category a record refers to exists, the same holds after
    every event, provided an edit files a document under an existing
    category only. Deleting a category is covered: it clears the references
    to it. *)
Theorem categoriesLive_step (a : Action) (st : State) :
  categoriesLive st → picksLiveCategory a st → categoriesLive (step a st).
Proof.
  intros Hinv Hpick.
  destruct a; simpl; try exact Hinv.
  - (* handleFileUpload *)
    unfold handleFileUpload. destruct files as [|f0 files]; [exact Hinv|].
    pose proof (uploadLoop_books (f0 :: files) [] (idb st)) as Hnew.
    destruct (uploadLoop (f0 :: files) [] (idb st)) as [[newBooks|] db];
      [|exact Hinv].
    apply (categoriesLive_mono st); [done| |done]. simpl.
    intros b' [Hb|Hb]%elem_of_app; [right; by exists b'|].
    destruct (Hnew newBooks eq_refl b' Hb) as [[]%elem_of_nil|(f & _ & ->)].
    by left.
  - (* deleteBook *)
    unfold deleteBook. destruct confirmed; [|exact Hinv]. simpl.
    destruct (deleteBookData id (idb st)) as [db|]; [|exact Hinv].
    apply (categoriesLive_mono st); [done| |].
    + assert (Hb : ∀ b', b' ∈ filter (λ b, Book.id b ≠ id) (books st) →
        Book.category b' = None
        ∨ ∃ b, b ∈ books st ∧ Book.category b = Book.category b')
        by (intros b'; apply category_of_filter).
      by destruct (currentBook st) as [cb|];
        [destruct (bool_decide (Book.id cb = id))|].
    + by destruct (currentBook st) as [cb|];
        [destruct (bool_decide (Book.id cb = id))|].
  - (* toggleBookForDeletion *)
    unfold toggleBookForDeletion. by destruct (decide (id ∈ booksToDelete st)).
  - (* toggleAllForDeletion *)
    unfold toggleAllForDeletion. by destruct (bool_decide _).
  - (* executeBatchDelete *)
    unfold executeBatchDelete. destruct (booksToDelete st) as [|id0 ids];
      [exact Hinv|].
    destruct (batchDeleteLoop (id0 :: ids) (books st) [] (idb st))
      as [[names|] db]; [|exact Hinv].
    apply (categoriesLive_mono st); [done| |].
    + assert (Hb : ∀ b', b' ∈ filter (λ b, Book.id b ∉ id0 :: ids) (books st) →
        Book.category b' = None
        ∨ ∃ b, b ∈ books st ∧ Book.category b = Book.category b')
        by (intros b'; apply category_of_filter).
      by destruct (currentBook st) as [cb|];
        [destruct (decide (Book.id cb ∈ id0 :: ids))|].
    + by destruct (currentBook st) as [cb|];
        [destruct (decide (Book.id cb ∈ id0 :: ids))|].
  - (* updateBookMetadata *)
    simpl in Hpick. unfold updateBookMetadata, updateBookMetadataIn.
    assert (Hgoal : ∀ b' c,
      b' ∈ map (λ b, if hasId id b then spread b updates else b) (books st) →
      Book.category b' = Some c →
      ∃ cat, cat ∈ categories st ∧ Category.id cat = c).
    { intros b' c (b & -> & Hb)%list_elem_of_fmap.
      destruct (hasId id b); [|by apply Hinv]. unfold spread. simpl.
      destruct (PartialBook.category updates) as [[c'|]|] eqn:Hcat; simpl.
      - intros [= <-]. by apply Hpick.
      - done.
      - by apply Hinv. }
    by destruct (currentBook st) as [cb|];
      [destruct (bool_decide (Book.id cb = id))|].
  - (* openBook *)
    unfold openBook.
    destruct (List.find (hasId (Book.id book)) (books st)); [|exact Hinv].
    destruct (getBookData (Book.id book) (idb st)); [|exact Hinv].
    destruct (bool_decide (Book.status book = Some BookStatus.next));
      [|exact Hinv].
    unfold updateBookMetadataIn. apply (categoriesLive_mono st); [done| |].
    + assert (Hb : ∀ b', b' ∈ map (λ b, if hasId (Book.id book) b
                  then spread b (PartialBook.mk None None None None None None
                                   (Some (Some BookStatus.reading)) None None)
                  else b) (books st) →
        Book.category b' = None
        ∨ ∃ b, b ∈ books st ∧ Book.category b = Book.category b').
      { intros b'. apply category_of_map. intros b. by destruct (hasId _ b). }
      by destruct (currentBook st) as [cb|];
        [destruct (bool_decide (Book.id cb = Book.id book))|].
    + by destruct (currentBook st) as [cb|];
        [destruct (bool_decide (Book.id cb = Book.id book))|].
  - (* closeBook *)
    unfold closeBook. destruct (currentBook st) as [cb|]; [|exact Hinv].
    apply (categoriesLive_mono st); [done| |done].
    intros b'. simpl. apply category_of_map. intros b. by destruct (hasId _ b).
  - (* saveNote *)
    unfold saveNote. destruct (currentBook st) as [cb|]; [|exact Hinv].
    by destruct (negb (truthyStr (noteText st)) && negb (truthyStr (selection st))).
  - (* onDocumentLoadSuccess *)
    unfold onDocumentLoadSuccess. destruct (currentBook st) as [cb|];
      [|exact Hinv].
    destruct (Book.totalPages cb =? 0); [|exact Hinv].
    apply (categoriesLive_mono st); [done| |done].
    intros b'. simpl. apply category_of_map. intros b. by destruct (hasId _ b).
  - (* handleSelection *)
    unfold handleSelection. by destruct (truthyStr sel).
  - (* handleSearch *)
    unfold handleSearch. destruct (currentBookData st) as [[|pages]|];
      try destruct (negb (truthyStr (trim (searchQuery st)))); exact Hinv.
  - (* addCategory *)
    unfold addCategory.
    destruct (negb (truthyStr (trim (newCategoryName st)))); [exact Hinv|].
    apply (categoriesLive_mono st); [done| |].
    + intros b' Hb'. right. by exists b'.
    + intros cat Hcat. simpl. apply elem_of_app. by left.
  - (* deleteCategory *)
    unfold deleteCategory. destruct confirmed; [|exact Hinv].
    intros b' c. simpl. intros (b & -> & Hb)%list_elem_of_fmap.
    destruct (decide (Book.category b = Some id)) as [Heq|Hne].
    + by rewrite bool_decide_eq_true_2.
    + rewrite bool_decide_eq_false_2 by done. intros Hc.
      destruct (Hinv b c Hb Hc) as (cat & Hcat & Hid). exists cat.
      split; [|done]. apply list_elem_of_filter. split; [|done]. congruence.
Qed.

Lemma categoriesLive_step_witness :
  categoriesLive (libraryAB ∅)
  ∧ picksLiveCategory (DeleteCategory "c1" true) (libraryAB ∅)
  ∧ categoriesLive (step (DeleteCategory "c1" true) (libraryAB ∅)).
Proof.
  assert (Hinv : categoriesLive (libraryAB ∅)).
  { intros b c Hb Hc. simpl in Hb.
    apply elem_of_cons in Hb as [->|Hb]; [discriminate Hc|].
    apply elem_of_cons in Hb as [->|Hb]; [|by apply elem_of_nil in Hb].
    injection Hc as <-. exists sciFi. split; [apply list_elem_of_here|done]. }
  split; [exact Hinv|]. split; [exact I|].
  exact (categoriesLive_step (DeleteCategory "c1" true) (libraryAB ∅) Hinv I).
Defined.


(* ------------------------------------------------------------------ *)
(** ** The batch delete against single deletes *)
(* ------------------------------------------------------------------ *)

Lemma filter_keep_all {A} (P : A → Prop) `{!∀ x, Decision (P x)} (l : list A) :
  (∀ x, x ∈ l → P x) → filter P l = l.
Proof.
  induction l as [|x l IH]; intros Hall; [done|].
  rewrite filter_cons_True by (apply Hall; by left).
  f_equal. apply IH. intros y Hy. apply Hall. by right.
Qed.

Lemma filter_not_in_cons {A} (key : A → string) (id : string)
    (ids : list string) (l : list A) :
  filter (λ x, key x ∉ ids) (filter (λ x, key x ≠ id) l)
  = filter (λ x, key x ∉ id :: ids) l.
Proof.
  induction l as [|x l IH]; [done|].
  destruct (decide (key x = id)) as [Heq|Hne].
  - rewrite (filter_cons_False (λ x, key x ≠ id)) by (intros H; by apply H).
    rewrite (filter_cons_False (λ x, key x ∉ id :: ids))
      by (intros H; apply H; rewrite Heq; by left).
    done.
  - rewrite (filter_cons_True (λ x, key x ≠ id)) by done.
    destruct (decide (key x ∈ ids)) as [Hin|Hnotin].
    + rewrite (filter_cons_False (λ x, key x ∉ ids)) by (intros H; by apply H).
      rewrite (filter_cons_False (λ x, key x ∉ id :: ids))
        by (intros H; apply H; by right).
      done.
    + rewrite (filter_cons_True (λ x, key x ∉ ids)) by done.
      rewrite (filter_cons_True (λ x, key x ∉ id :: ids))
        by (rewrite not_elem_of_cons; done).
      by rewrite IH.
Qed.

Lemma deletedFrom_nil st : deletedFrom [] st st.
Proof.
  unfold deletedFrom. split_and!; try done.
  - symmetry. apply filter_keep_all. intros b _. apply not_elem_of_nil.
  - symmetry. apply filter_keep_all. intros n _. apply not_elem_of_nil.
  - simpl. by destruct (idb st).
  - destruct (currentBook st) as [cb|]; [|done].
    by rewrite decide_False by apply not_elem_of_nil.
  - destruct (currentBook st) as [cb|]; [|done].
    by rewrite decide_False by apply not_elem_of_nil.
  - destruct (currentBook st) as [cb|]; [|done].
    by rewrite decide_False by apply not_elem_of_nil.
Qed.

Lemma deleteBook_deletes id st :
  id ∉ faulty (idb st) → deletedFrom [id] st (deleteBook id true st).
Proof.
  intros Hid. unfold deletedFrom, deleteBook. simpl. unfold deleteBookData.
  rewrite decide_False by done.
  assert (Hb : filter (λ b, Book.id b ≠ id) (books st)
               = filter (λ b, Book.id b ∉ [id]) (books st)).
  { apply list_filter_iff. intros b. rewrite list_elem_of_singleton. done. }
  assert (Hn : filter (λ n, Note.bookId n ≠ id) (notes st)
               = filter (λ n, Note.bookId n ∉ [id]) (notes st)).
  { apply list_filter_iff. intros n. rewrite list_elem_of_singleton. done. }
  destruct (currentBook st) as [cb|] eqn:Hcb.
  - destruct (decide (Book.id cb = id)) as [Heq|Hne].
    + rewrite bool_decide_eq_true_2 by done.
      rewrite !decide_True by (by apply list_elem_of_singleton). simpl.
      by rewrite Hb, Hn.
    + rewrite bool_decide_eq_false_2 by done.
      rewrite !decide_False by (by rewrite list_elem_of_singleton). simpl.
      by rewrite Hb, Hn, Hcb.
  - simpl. by rewrite Hb, Hn, Hcb.
Qed.

Lemma deletedFrom_cons id ids st s1 s :
  deletedFrom [id] st s1 → deletedFrom ids s1 s → deletedFrom (id :: ids) st s.
Proof.
  intros (Hb1 & Hn1 & Hi1 & Hc1 & Hd1 & Hv1 & Hg1 & Hp1 & Hm1)
         (Hb & Hn & Hi & Hc & Hd & Hv & Hg & Hp & Hm).
  assert (Hb1' : books s1 = filter (λ b, Book.id b ≠ id) (books st)).
  { rewrite Hb1. apply list_filter_iff. intros b. by rewrite list_elem_of_singleton. }
  assert (Hn1' : notes s1 = filter (λ n, Note.bookId n ≠ id) (notes st)).
  { rewrite Hn1. apply list_filter_iff. intros n. by rewrite list_elem_of_singleton. }
  unfold deletedFrom. split_and!.
  - by rewrite Hb, Hb1', filter_not_in_cons.
  - by rewrite Hn, Hn1', filter_not_in_cons.
  - by rewrite Hi, Hi1.
  - rewrite Hc, Hc1. destruct (currentBook st) as [cb|]; [|done].
    repeat case_decide; try done; exfalso; set_unfold; intuition congruence.
  - rewrite Hd, Hc1, Hd1. destruct (currentBook st) as [cb|]; [|done].
    repeat case_decide; try done; exfalso; set_unfold; intuition congruence.
  - rewrite Hv, Hc1, Hv1. destruct (currentBook st) as [cb|]; [|done].
    repeat case_decide; try done; exfalso; set_unfold; intuition congruence.
  - congruence.
  - congruence.
  - congruence.
Qed.

Lemma deleteEach_deletes ids st :
  (∀ id, id ∈ ids → id ∉ faulty (idb st)) →
  deletedFrom ids st (run (deleteEach ids) st).
Proof.
  revert st. induction ids as [|id ids IH]; intros st Hok.
  - apply deletedFrom_nil.
  - assert (Hid : id ∉ faulty (idb st)) by (apply Hok; by left).
    pose proof (deleteBook_deletes id st Hid) as H1.
    apply (deletedFrom_cons id ids st (deleteBook id true st)); [done|].
    apply IH. intros k Hk. destruct H1 as (_ & _ & -> & _). simpl.
    apply Hok. by right.
Qed.

Lemma executeBatchDelete_deletes st :
  (∀ id, id ∈ booksToDelete st → id ∉ faulty (idb st)) →
  deletedFrom (booksToDelete st) st (executeBatchDelete st).
Proof.
  intros Hok. unfold executeBatchDelete.
  destruct (booksToDelete st) as [|id0 ids] eqn:Hsel; [apply deletedFrom_nil|].
  rewrite batchDeleteLoop_ok by (by apply Forall_forall).
  unfold deletedFrom.
  destruct (currentBook st) as [cb|] eqn:Hcb.
  - destruct (decide (Book.id cb ∈ id0 :: ids)); simpl; by rewrite ?Hcb.
  - simpl. by rewrite Hcb.
Qed.

(** X25. When the store accepts every delete, the batch delete leaves the
    records, the notes, the store and the reader as the confirmed single
    deletes of the selected identifiers leave them, one after the other;
    only the batch delete clears the selection. *)
Theorem batch_delete_as_single_deletes (st : State) :
  (∀ id, id ∈ booksToDelete st → id ∉ faulty (idb st)) →
  let st1 := executeBatchDelete st in
  let st2 := run (deleteEach (booksToDelete st)) st in
  books st1 = books st2 ∧ notes st1 = notes st2 ∧ idb st1 = idb st2
  ∧ currentBook st1 = currentBook st2
  ∧ currentBookData st1 = currentBookData st2
  ∧ view st1 = view st2
  ∧ categories st1 = categories st2
  ∧ booksToDelete st1 = [].
Proof.
  intros Hok. cbv zeta.
  destruct (executeBatchDelete_deletes st Hok)
    as (Hb1 & Hn1 & Hi1 & Hc1 & Hd1 & Hv1 & Hg1 & _).
  destruct (deleteEach_deletes (booksToDelete st) st Hok)
    as (Hb2 & Hn2 & Hi2 & Hc2 & Hd2 & Hv2 & Hg2 & _).
  split_and!; try congruence.
  unfold executeBatchDelete.
  destruct (booksToDelete st) as [|id0 ids] eqn:Hsel; [done|].
  by rewrite batchDeleteLoop_ok by (by apply Forall_forall).
Qed.

Lemma batch_delete_as_single_deletes_witness :
  (∀ id, id ∈ booksToDelete (selectedAB ∅) → id ∉ faulty (idb (selectedAB ∅)))
  ∧ ltac:(match type of (batch_delete_as_single_deletes (selectedAB ∅)) with
          | _ → ?C => exact C
          end).
Proof.
  assert (H : ∀ id, id ∈ booksToDelete (selectedAB ∅)
                    → id ∉ faulty (idb (selectedAB ∅))).
  { intros id _. apply not_elem_of_empty. }
  split; [exact H|]. exact (batch_delete_as_single_deletes (selectedAB ∅) H).
Defined.

(* ------------------------------------------------------------------ *)
(** ** The record of an uploaded file *)
(* ------------------------------------------------------------------ *)

Lemma stake_app_exact pre s : stake (String.length pre) (pre +:+ s) = pre.
Proof. induction pre as [|c pre IH]; [by destruct s|]. simpl. by rewrite IH. Qed.

Lemma sdrop_app_exact pre s : sdrop (String.length pre) (pre +:+ s) = s.
Proof. induction pre as [|c pre IH]; [done|]. simpl. by rewrite IH. Qed.

(** X26. The title of an uploaded file is its name without the first
    occurrence of ".pdf", wherever that is, and the name itself when it has
    none (an upper-case extension stays); the record starts with status
    "next", page 1, no page count, no category and rating 0. *)
Theorem upload_record_title (file : File) :
  let book := newBookOf file in
  ((¬ isSubstringOf ".pdf" (File.name file) ∧ Book.title book = File.name file)
   ∨ ∃ pre post, File.name file = pre +:+ ".pdf" +:+ post
       ∧ (∀ pre' post', File.name file = pre' +:+ ".pdf" +:+ post' →
            strlen pre ≤ strlen pre')
       ∧ Book.title book = pre +:+ post)
  ∧ Book.id book = File.uuid file
  ∧ Book.status book = Some BookStatus.next
  ∧ Book.currentPage book = 1 ∧ Book.totalPages book = 0
  ∧ Book.category book = None ∧ Book.rating book = Some 0.
Proof.
  cbv zeta. split; [|done]. unfold newBookOf. simpl. unfold replaceFirst.
  destruct (indexOf_spec (File.name file) ".pdf")
    as [(Hr & Hno)|(pre & post & Hs & Hr & Hmin)]; cbv zeta; rewrite Hr.
  - left. done.
  - right. exists pre, post. split; [done|]. split; [done|].
    assert (Hne : (strlen pre =? -1) = false).
    { apply Z.eqb_neq. pose proof (strlen_nonneg pre). lia. }
    rewrite Hne. unfold strlen. rewrite Nat2Z.id, Hs.
    rewrite stake_app_exact, sapp_nil_l, sdrop_add, sdrop_app_exact. done.
Qed.

Example upload_record_title_ex :
  Book.title (newBookOf (File.mk "Gamma.pdf" "application/pdf" Unparseable "c" 5))
  = "Gamma"
  ∧ Book.title (newBookOf (File.mk "my.pdf.notes.pdf" "application/pdf"
                             Unparseable "c" 5))
    = "my.notes.pdf"
  ∧ Book.title (newBookOf (File.mk "SCAN.PDF" "application/pdf" Unparseable "c" 5))
    = "SCAN.PDF".
Proof. by vm_compute. Qed.

(* ------------------------------------------------------------------ *)
(** ** The side bar of the notes view *)
(* ------------------------------------------------------------------ *)

Lemma sum_countFor_nil (bks : list Book) :
  sum_list_with (λ b, countFor [] (Book.id b)) bks = 0%nat.
Proof. induction bks as [|b bks IH]; [done|]. simpl. by rewrite IH. Qed.

Lemma countFor_cons n ns id :
  countFor (n :: ns) id
  = ((if decide (Note.bookId n = id) then 1 else 0) + countFor ns id)%nat.
Proof.
  unfold countFor. destruct (decide (Note.bookId n = id)) as [Heq|Hne].
  - by rewrite filter_cons_True.
  - by rewrite filter_cons_False.
Qed.

Lemma sum_indicator (bks : list Book) (k : string) :
  NoDup (map Book.id bks) →
  sum_list_with (λ b, if decide (k = Book.id b) then 1%nat else 0%nat) bks
  = if decide (k ∈ map Book.id bks) then 1%nat else 0%nat.
Proof.
  induction bks as [|b bks IH]; intros Hnd.
  - by rewrite decide_False by apply not_elem_of_nil.
  - cbn [List.map] in Hnd. apply NoDup_cons in Hnd as [Hnotin Hnd].
    cbn [List.map sum_list_with].
    rewrite (IH Hnd).
    destruct (decide (k = Book.id b)) as [->|Hne];
      destruct (decide (_ ∈ map Book.id bks)) as [Hin|Hnotin'];
      destruct (decide (_ ∈ _ :: _)) as [Hin2|Hnotin2];
      try done; exfalso; set_unfold; intuition congruence.
Qed.

Lemma sum_countFor (bks : list Book) (ns : list Note) :
  NoDup (map Book.id bks) →
  (∀ n, n ∈ ns → hasBook bks (Note.bookId n)) →
  sum_list_with (λ b, countFor ns (Book.id b)) bks = length ns.
Proof.
  intros Hnd. induction ns as [|n ns IH]; intros Hall.
  - apply sum_countFor_nil.
  - transitivity
      (sum_list_with (λ b, if decide (Note.bookId n = Book.id b)
                           then 1%nat else 0%nat) bks
       + sum_list_with (λ b, countFor ns (Book.id b)) bks)%nat.
    + clear IH Hall Hnd. induction bks as [|b bks IHb]; [done|]. simpl.
      rewrite IHb, countFor_cons. lia.
    + rewrite sum_indicator by done.
      rewrite decide_True.
      * rewrite IH; [done|]. intros n' Hn'. apply Hall. by right.
      * destruct (Hall n) as (b & Hb & Hid); [by left|].
        apply list_elem_of_fmap. by exists b.
Qed.

(** X28. The side bar of the notes view lists exactly the documents with at
    least one note, in the order of the library; and when the identifiers of
    the library are distinct and every note belongs to a document of it, the
    counts shown add up to the number of notes. *)
Theorem sidebar_counts (st : State) :
  NoDup (map Book.id (books st)) →
  (∀ n, n ∈ notes st → hasBook (books st) (Note.bookId n)) →
  (∀ b, b ∈ booksWithNotes st ↔ b ∈ books st ∧ (0 < noteCount st b)%nat)
  ∧ booksWithNotes st `sublist_of` books st
  ∧ sum_list_with (noteCount st) (booksWithNotes st) = length (notes st).
Proof.
  intros Hnd Hall.
  assert (Hpos : ∀ b, (0 < noteCount st b)%nat
                      ↔ Exists (λ n, Note.bookId n = Book.id b) (notes st)).
  { intros b. unfold noteCount. rewrite Exists_exists. split.
    - destruct (filter _ (notes st)) as [|n l] eqn:Hf; simpl; [lia|]. intros _.
      assert (Hn : n ∈ filter (λ n, Note.bookId n = Book.id b) (notes st))
        by (rewrite Hf; by left).
      apply list_elem_of_filter in Hn as [Hid Hn]. by exists n.
    - intros (n & Hn & Hid).
      assert (Hn' : n ∈ filter (λ n, Note.bookId n = Book.id b) (notes st))
        by (by apply list_elem_of_filter).
      destruct (filter _ (notes st)); [by apply elem_of_nil in Hn'|simpl; lia]. }
  split_and!.
  - intros b. unfold booksWithNotes. rewrite list_elem_of_filter, Hpos. tauto.
  - apply sublist_filter.
  - rewrite <- (sum_countFor (books st) (notes st) Hnd Hall).
    unfold booksWithNotes. fold (noteCount st).
    change (λ b, countFor (notes st) (Book.id b)) with (noteCount st).
    clear Hnd Hall. induction (books st) as [|b bks IH]; [done|].
    destruct (decide (Exists (λ n, Note.bookId n = Book.id b) (notes st)))
      as [Hex|Hno].
    + rewrite filter_cons_True by done. simpl. by rewrite IH.
    + rewrite filter_cons_False by done. simpl. rewrite IH.
      assert (noteCount st b = 0)%nat; [|lia].
      destruct (noteCount st b) eqn:Hc; [done|]. destruct Hno. apply Hpos. lia.
Qed.

Lemma sidebar_counts_witness :
  NoDup (map Book.id (books (libraryAB ∅)))
  ∧ (∀ n, n ∈ notes (libraryAB ∅) → hasBook (books (libraryAB ∅)) (Note.bookId n))
  ∧ ltac:(match type of (sidebar_counts (libraryAB ∅)) with
          | _ → _ → ?C => exact C
          end).
Proof.
  assert (Hnd : NoDup (map Book.id (books (libraryAB ∅)))).
  { simpl. apply NoDup_cons. split; [|apply NoDup_singleton].
    by intros ?%list_elem_of_singleton. }
  assert (Hall : ∀ n, n ∈ notes (libraryAB ∅)
                      → hasBook (books (libraryAB ∅)) (Note.bookId n)).
  { intros n Hn. simpl in Hn.
    apply elem_of_cons in Hn as [->|Hn]; [exists bookA; split; [by left|done]|].
    apply elem_of_cons in Hn as [->|Hn];
      [exists bookB; split; [by right; left|done]|].
    by apply elem_of_nil in Hn. }
  split; [exact Hnd|]. split; [exact Hall|].
  exact (sidebar_counts (libraryAB ∅) Hnd Hall).
Defined.
